(** * DataWeb backend: a shallow embedding of the gateway's request handlers

    The development follows the layout of the backend:

    - [routes/auth.js]      registration and login,
    - [routes/dataset.js]   upload (multer storage, path guard, schema
                            extraction) and dataset listing,
    - [routes/chat.js]      the ask-question proxy and the history read,
    - [index.js]            the global middleware, the public health
                            probe, the mounts and the error handler,
    - [database/init.sql]   the three tables.

    JavaScript strings are sequences of UTF-16 code units, handlers are
    written in a small state-and-completion monad (a handler either
    falls through, sends a response early, or throws into its [catch]),
    and the relational store is a record of row lists with SQLite's
    AUTOINCREMENT counters. *)

From Stdlib Require Import ZArith NArith List Bool Lia String Ascii.
From Stdlib Require Import Sorting.Sorted Sorting.Permutation.
From Stdlib Require Import DecimalZ.
Import ListNotations.

Set Implicit Arguments.
Set Warnings "-register-all".

(* ================================================================== *)
(** * Part I: definitions *)
(* ================================================================== *)

(** ** JavaScript strings *)

Module JS.

(** A string is a sequence of UTF-16 code units. *)
Definition jsstring := list N.

(** ASCII literals of the source, as code units. *)
Definition lit (s : string) : jsstring :=
  map N_of_ascii (list_ascii_of_string s).

Fixpoint str_eqb (a b : jsstring) : bool :=
  match a, b with
  | [], [] => true
  | x :: a', y :: b' => N.eqb x y && str_eqb a' b'
  | _, _ => false
  end.

(** [s.startsWith(p)] *)
Fixpoint startsWith (s p : jsstring) : bool :=
  match p, s with
  | [], _ => true
  | y :: p', x :: s' => N.eqb x y && startsWith s' p'
  | _ :: _, [] => false
  end.

(** [s.endsWith(p)] *)
Definition endsWith (s p : jsstring) : bool :=
  startsWith (rev s) (rev p).

(** [s.split(c)] for a one-character separator: never empty. *)
Fixpoint split_on (c : N) (s : jsstring) : list jsstring :=
  match s with
  | [] => [[]]
  | x :: r =>
      if N.eqb x c then [] :: split_on c r
      else match split_on c r with
           | [] => [[x]]
           | p :: ps => (x :: p) :: ps
           end
  end.

(** [parts.join(sep)] *)
Fixpoint join_with (sep : jsstring) (parts : list jsstring) : jsstring :=
  match parts with
  | [] => []
  | [p] => p
  | p :: rest => p ++ sep ++ join_with sep rest
  end.

(** ECMAScript WhiteSpace and LineTerminator code units, the set
    removed by [String.prototype.trim]. *)
Definition is_whitespace (c : N) : bool :=
  ((9 <=? c) && (c <=? 13) || (c =? 32) || (c =? 160) || (c =? 5760)
   || (8192 <=? c) && (c <=? 8202) || (c =? 8232) || (c =? 8233)
   || (c =? 8239) || (c =? 8287) || (c =? 12288) || (c =? 65279))%N.

Fixpoint drop_while (f : N -> bool) (s : jsstring) : jsstring :=
  match s with
  | [] => []
  | x :: r => if f x then drop_while f r else s
  end.

(** [s.trim()] *)
Definition trim (s : jsstring) : jsstring :=
  rev (drop_while is_whitespace (rev (drop_while is_whitespace s))).

(** ASCII letters are the only code units whose lower-case image is
    one of ['.'], ['c'], ['s'], ['v'], so for the extension test the
    ASCII mapping is all of [toLowerCase] that matters. *)
Definition lower_unit (c : N) : N :=
  if ((65 <=? c) && (c <=? 90))%N then (c + 32)%N else c.

Definition toLowerCase (s : jsstring) : jsstring := map lower_unit s.

Fixpoint uint_units (d : Decimal.uint) : jsstring :=
  match d with
  | Decimal.Nil => []
  | Decimal.D0 r => 48%N :: uint_units r
  | Decimal.D1 r => 49%N :: uint_units r
  | Decimal.D2 r => 50%N :: uint_units r
  | Decimal.D3 r => 51%N :: uint_units r
  | Decimal.D4 r => 52%N :: uint_units r
  | Decimal.D5 r => 53%N :: uint_units r
  | Decimal.D6 r => 54%N :: uint_units r
  | Decimal.D7 r => 55%N :: uint_units r
  | Decimal.D8 r => 56%N :: uint_units r
  | Decimal.D9 r => 57%N :: uint_units r
  end.

(** The text of an integer inside a template literal ([`${n}`]). *)
Definition number_text (z : Z) : jsstring :=
  match Z.to_int z with
  | Decimal.Pos d => uint_units d
  | Decimal.Neg d => 45%N :: uint_units d
  end.

(** Values that travel in request bodies, analysis responses and
    decoded JSON documents.  Numbers carry integers only. *)
Inductive jsval :=
| JUndefined
| JNull
| JBool (b : bool)
| JNum (z : Z)
| JStr (s : jsstring)
| JArr (items : list jsval)
| JObj (props : list (jsstring * jsval)).

(** ToBoolean *)
Definition truthy (v : jsval) : bool :=
  match v with
  | JUndefined | JNull => false
  | JBool b => b
  | JNum z => negb (Z.eqb z 0)
  | JStr s => match s with [] => false | _ => true end
  | JArr _ | JObj _ => true
  end.

(** [a || b] *)
Definition js_or (a b : jsval) : jsval := if truthy a then a else b.

Fixpoint assoc (k : jsstring) (props : list (jsstring * jsval)) : jsval :=
  match props with
  | [] => JUndefined
  | (k', v) :: rest => if str_eqb k' k then v else assoc k rest
  end.

(** [v.name] for a data property [name] on a value that is neither
    [null] nor [undefined]; primitives and arrays carry none of the
    names the handlers read. *)
Definition get_prop (v : jsval) (name : jsstring) : jsval :=
  match v with
  | JObj props => assoc name props
  | _ => JUndefined
  end.

Definition nullish (v : jsval) : bool :=
  match v with JUndefined | JNull => true | _ => false end.

End JS.
Import JS.

(** ** POSIX [path] module *)

Module Path.

Definition slash : N := 47%N.
Definition dot : jsstring := [46%N].
Definition dotdot : jsstring := [46%N; 46%N].

Definition isAbsolute (p : jsstring) : bool :=
  match p with c :: _ => N.eqb c slash | [] => false end.

Definition hasTrailingSlash (p : jsstring) : bool :=
  match rev p with c :: _ => N.eqb c slash | [] => false end.

(** Node's [normalizeString], on the pieces between separators:
    empty and ["."] pieces vanish, [".."] pops the last kept piece;
    above the root it is dropped, or kept when [allowAboveRoot]. *)
Fixpoint normalize_segs (allowAboveRoot : bool)
         (acc : list jsstring) (segs : list jsstring) : list jsstring :=
  match segs with
  | [] => rev acc
  | s :: r =>
      if str_eqb s [] || str_eqb s dot then normalize_segs allowAboveRoot acc r
      else if str_eqb s dotdot then
        match acc with
        | a :: acc' =>
            if str_eqb a dotdot
            then normalize_segs allowAboveRoot (dotdot :: acc) r
            else normalize_segs allowAboveRoot acc' r
        | [] =>
            if allowAboveRoot
            then normalize_segs allowAboveRoot [dotdot] r
            else normalize_segs allowAboveRoot [] r
        end
      else normalize_segs allowAboveRoot (s :: acc) r
  end.

Definition normalizeString (p : jsstring) (allowAboveRoot : bool) : jsstring :=
  join_with [slash] (normalize_segs allowAboveRoot [] (split_on slash p)).

(** [path.normalize] *)
Definition normalize (p : jsstring) : jsstring :=
  match p with
  | [] => dot
  | _ =>
      let abs := isAbsolute p in
      let trailing := hasTrailingSlash p in
      let body := normalizeString p (negb abs) in
      match body with
      | [] => if abs then [slash]
              else if trailing then dot ++ [slash] else dot
      | _ =>
          let body' := if trailing then body ++ [slash] else body in
          if abs then slash :: body' else body'
      end
  end.

(** [path.join(...parts)]: the non-empty parts glued with ['/'],
    then normalised. *)
Definition join (parts : list jsstring) : jsstring :=
  normalize
    (join_with [slash]
       (filter (fun p => negb (str_eqb p [])) parts)).

(** The right-to-left scan of [path.resolve]: parts are prepended
    until one of them is absolute. *)
Fixpoint resolve_scan (rparts : list jsstring) (resolved : jsstring)
  : jsstring * bool :=
  match rparts with
  | [] => (resolved, false)
  | p :: r =>
      if str_eqb p [] then resolve_scan r resolved
      else
        let resolved' := p ++ [slash] ++ resolved in
        if isAbsolute p then (resolved', true)
        else resolve_scan r resolved'
  end.

(** [path.resolve(...parts)]; [cwd] is [process.cwd()], an absolute
    path, used when no part is absolute. *)
Definition resolve (cwd : jsstring) (parts : list jsstring) : jsstring :=
  let '(p, abs) := resolve_scan (rev parts) [] in
  let p' := if abs then p else cwd ++ [slash] ++ p in
  slash :: normalizeString p' false.

(** The pieces of an absolute normalised path. *)
Definition segments (p : jsstring) : list jsstring :=
  filter (fun s => negb (str_eqb s [])) (split_on slash p).

Fixpoint strict_prefix (base l : list jsstring) : bool :=
  match base, l with
  | [], _ :: _ => true
  | b :: base', x :: l' => str_eqb b x && strict_prefix base' l'
  | _, _ => false
  end.

(** [p] lies strictly below the directory [root]. *)
Definition descendant (p root : jsstring) : bool :=
  strict_prefix (segments root) (segments p).

End Path.

Local Open Scope Z_scope.

(** ** Collaborators outside the repository

    Library and platform functions the handlers call.  Their code is
    not part of the backend; the handlers are modelled for every
    behaviour of them. *)

Class Runtime := {
  (** [JSON.parse]; [None] stands for the [SyntaxError] it throws. *)
  JSON_parse : jsstring -> option jsval;
  (** [JSON.stringify] *)
  JSON_stringify : jsval -> jsstring;
  (** [bcrypt.hash(password, salt)] *)
  bcrypt_hash : jsstring -> jsstring -> jsstring;
  (** [bcrypt.compare(password, digest)] *)
  bcrypt_compare : jsstring -> jsstring -> bool;
  (** [jwt.sign({id, username}, JWT_SECRET, {expiresIn: '24h'})] at a
      given issue time; [username] is whatever value the route holds. *)
  jwt_sign : Z -> jsval -> Z -> jsstring;
  (** SQLite's INTEGER affinity applied to a TEXT parameter: the
      integer the text converts to, if any. *)
  sqlite_integer : jsstring -> option Z;
  (** SQLite's text of a REAL of sixteen digits or more (exponent
      notation). *)
  sqlite_real_text : Z -> jsstring;
  (** The language's [v < k] and [v > k] for an integer [k] and a
      value [v] that is a string, an array or an object: [v] is
      converted to a number first; [None] when the conversion throws. *)
  js_less_than : jsval -> Z -> option bool;
  js_greater_than : jsval -> Z -> option bool;
  (** [__dirname] of [routes/dataset.js]. *)
  dirname : jsstring;
  (** [process.cwd()] *)
  cwd : jsstring
}.

(** ** The relational store ([database/init.sql]) *)

Record user_row := {
  user_id : Z;
  user_username : jsstring;
  user_password_hash : jsstring;
  user_created_at : Z
}.

Record dataset_row := {
  ds_id : Z;
  ds_user_id : Z;
  ds_file_path : jsstring;
  ds_original_name : jsstring;
  ds_schema_json : option jsstring;      (* nullable TEXT *)
  ds_uploaded_at : Z
}.

Record chat_row := {
  ch_id : Z;
  ch_user_id : Z;
  ch_dataset_id : Z;
  ch_query : jsstring;
  ch_response : option jsstring;         (* nullable TEXT *)
  ch_code : option jsstring;             (* nullable TEXT *)
  ch_created_at : Z
}.

(** The three tables in rowid order, with the AUTOINCREMENT counter
    SQLite keeps for each of them. *)
Record database := {
  users : list user_row;
  datasets : list dataset_row;
  chat_history : list chat_row;
  seq_users : Z;
  seq_datasets : Z;
  seq_chat_history : Z
}.

Definition empty_database : database :=
  {| users := []; datasets := []; chat_history := [];
     seq_users := 0; seq_datasets := 0; seq_chat_history := 0 |}.

(** The tables after a row is appended: the new rowid is one more than
    the table's counter. *)
Definition push_user (d : database) (username hash : jsstring) (now : Z)
  : database :=
  {| users := users d ++
       [{| user_id := seq_users d + 1; user_username := username;
           user_password_hash := hash; user_created_at := now |}];
     datasets := datasets d; chat_history := chat_history d;
     seq_users := seq_users d + 1; seq_datasets := seq_datasets d;
     seq_chat_history := seq_chat_history d |}.

Definition push_dataset (d : database) (uid : Z) (path name : jsstring)
           (schema_json : option jsstring) (now : Z) : database :=
  {| users := users d;
     datasets := datasets d ++
       [{| ds_id := seq_datasets d + 1; ds_user_id := uid;
           ds_file_path := path; ds_original_name := name;
           ds_schema_json := schema_json; ds_uploaded_at := now |}];
     chat_history := chat_history d;
     seq_users := seq_users d; seq_datasets := seq_datasets d + 1;
     seq_chat_history := seq_chat_history d |}.

Definition push_chat (d : database) (uid dsid : Z) (query : jsstring)
           (resp code : option jsstring) (now : Z) : database :=
  {| users := users d; datasets := datasets d;
     chat_history := chat_history d ++
       [{| ch_id := seq_chat_history d + 1; ch_user_id := uid;
           ch_dataset_id := dsid; ch_query := query; ch_response := resp;
           ch_code := code; ch_created_at := now |}];
     seq_users := seq_users d; seq_datasets := seq_datasets d;
     seq_chat_history := seq_chat_history d + 1 |}.

(** A JavaScript value bound to a statement parameter: a number
    (better-sqlite3 binds every JavaScript number as a REAL), a text
    or NULL. *)
Inductive sql_param :=
| SqlInt (z : Z)
| SqlText (s : jsstring)
| SqlNull.

(** better-sqlite3 binds numbers, strings, [null] and [undefined] to
    one parameter; a boolean, or an array or object where one value is
    expected, makes the statement throw a [TypeError]. *)
Definition bind_scalar (v : jsval) : option sql_param :=
  match v with
  | JNum z => Some (SqlInt z)
  | JStr s => Some (SqlText s)
  | JNull | JUndefined => Some SqlNull
  | JBool _ | JArr _ | JObj _ => None
  end.

(** An array argument gives its elements to the next parameters, one
    each. *)
Fixpoint bind_array (items : list jsval) : option (list sql_param) :=
  match items with
  | [] => Some []
  | v :: rest =>
      match bind_scalar v, bind_array rest with
      | Some p, Some ps => Some (p :: ps)
      | _, _ => None
      end
  end.

(** The anonymous parameters the arguments of [get], [all] or [run]
    give, from left to right: an array is spread, a plain object is
    read for named parameters (the statements here have none, so it
    gives nothing, and a second one is refused), any other argument
    gives one parameter. *)
Fixpoint bind_arguments (seen_object : bool) (args : list jsval)
  : option (list sql_param) :=
  match args with
  | [] => Some []
  | JArr items :: rest =>
      match bind_array items, bind_arguments seen_object rest with
      | Some ps, Some qs => Some (ps ++ qs)
      | _, _ => None
      end
  | JObj _ :: rest =>
      if seen_object then None else bind_arguments true rest
  | v :: rest =>
      match bind_scalar v, bind_arguments seen_object rest with
      | Some p, Some qs => Some (p :: qs)
      | _, _ => None
      end
  end.

(** The parameters of a statement with [n] question marks run on the
    given arguments; too few or too many values throw a
    [RangeError]. *)
Definition bind_values (n : nat) (args : list jsval)
  : option (list sql_param) :=
  match bind_arguments false args with
  | Some ps => if Nat.eqb (List.length ps) n then Some ps else None
  | None => None
  end.

(** The parameter an argument gives where the statement takes exactly
    one from it: the value itself, or the one element of an array. *)
Definition bind_value (v : jsval) : option sql_param :=
  match bind_values 1 [v] with
  | Some [p] => Some p
  | _ => None
  end.

(** SQLite's text of a REAL in a TEXT column or a comparison with
    one (["%!.15g"]): an integer of at most fifteen digits reads as
    the integer followed by [.0]. *)
Definition real_text `{Runtime} (z : Z) : jsstring :=
  if Z.abs z <? 10 ^ 15 then number_text z ++ lit ".0"
  else sqlite_real_text z.

(** What a TEXT column stores for a bound parameter. *)
Definition text_column `{Runtime} (p : sql_param) : option jsstring :=
  match p with
  | SqlInt z => Some (real_text z)
  | SqlText s => Some s
  | SqlNull => None
  end.

(** The integer an INTEGER column or comparison sees for a bound
    parameter (a REAL with an integer value is that integer). *)
Definition integer_key `{Runtime} (p : sql_param) : option Z :=
  match p with
  | SqlInt z => Some z
  | SqlText s => sqlite_integer s
  | SqlNull => None
  end.

Definition key_is (k : option Z) (id : Z) : bool :=
  match k with Some z => Z.eqb z id | None => false end.

(** [ORDER BY key DESC]: rows with equal keys stay in scan order. *)
Fixpoint insert_desc {A} (key : A -> Z) (x : A) (l : list A) : list A :=
  match l with
  | [] => [x]
  | y :: r => if Z.leb (key y) (key x) then x :: l
              else y :: insert_desc key x r
  end.

Definition order_by_desc {A} (key : A -> Z) (l : list A) : list A :=
  fold_right (insert_desc key) [] l.

(** ** Requests, responses and the handler monad *)

Record analyze_request := {
  ar_file_path : jsstring;
  ar_schema : jsval;
  ar_question : jsstring;
  ar_context : jsval
}.

(** How an axios call settles: resolved with the response data, or
    rejected with an error carrying [error.code]. *)
Inductive axios_outcome :=
| AxiosResolved (data : jsval)
| AxiosRejected (code : option string).

(** A thrown JavaScript error, as far as the handlers look at it:
    its [code] property. *)
Inductive js_error := JsError (code : option string).

Definition error_code (e : js_error) : option string :=
  match e with JsError c => c end.

Definition code_is (e : js_error) (c : string) : bool :=
  match error_code e with
  | Some c' => String.eqb c' c
  | None => false
  end.

Record dataset_view := {
  dv_id : Z;
  dv_original_name : jsstring;
  dv_schema_json : option jsstring;
  dv_uploaded_at : Z;
  dv_schema : jsval
}.

Record history_view := {
  hv_id : Z;
  hv_query : jsstring;
  hv_response : option jsstring;
  hv_code : option jsstring;
  hv_created_at : Z;
  hv_dataset_name : jsstring
}.

Inductive payload :=
| PError (error : string)
| PNoContent
| PAuth (message : string) (token : jsstring) (id : Z) (username : jsval)
| PUploaded (id : Z) (original_name : jsstring) (schema : jsval)
| PDatasets (datasets : list dataset_view)
| PAnswer (answer data code chart_type : jsval)
| PHistory (history : list history_view)
| PHealth (status database python_service : string) (timestamp : Z).

Record response := { status : Z; body : payload }.

(** What a request finds outside the process while it runs. *)
Record env := {
  now_ms : Z;                 (* Date.now() *)
  now_s : Z;                  (* CURRENT_TIMESTAMP *)
  store_reads : bool;         (* SELECT statements run *)
  store_writes : bool;        (* INSERT statements run *)
  analyze : analyze_request -> axios_outcome;
  python_health : bool;       (* GET /health resolves *)
  salt : jsstring             (* bcrypt.genSalt(10) *)
}.

(** Everything a handler can change: the store, the upload area and
    the calls made to the analysis service. *)
Record world := {
  db : database;
  files : list (jsstring * jsstring);
  analyze_calls : list analyze_request
}.

Definition initial_world : world :=
  {| db := empty_database; files := []; analyze_calls := [] |}.

Inductive completion (A : Type) :=
| Done (a : A)
| Sent (r : response)
| Thrown (e : js_error).
Arguments Done {A} a.
Arguments Sent {A} r.
Arguments Thrown {A} e.

Definition handler (A : Type) := world -> completion A * world.

Definition ret {A} (a : A) : handler A := fun w => (Done a, w).

Definition bind {A B} (m : handler A) (k : A -> handler B) : handler B :=
  fun w =>
    match m w with
    | (Done a, w') => k a w'
    | (Sent r, w') => (Sent r, w')
    | (Thrown e, w') => (Thrown e, w')
    end.

Notation "x <- m ;; k" := (bind m (fun x => k))
  (at level 61, m at next level, right associativity).
Notation "m ;;; k" := (bind m (fun _ => k))
  (at level 61, right associativity).

(** [return res.status(st).json(p)] *)
Definition send {A} (st : Z) (p : payload) : handler A :=
  fun w => (Sent {| status := st; body := p |}, w).

Definition throw {A} (e : js_error) : handler A := fun w => (Thrown e, w).

(** [try { body } catch (error) { handle error }] *)
Definition try_catch {A} (body : handler A) (handle : js_error -> handler A)
  : handler A :=
  fun w =>
    match body w with
    | (Thrown e, w') => handle e w'
    | other => other
    end.

Definition of_option {A} (o : option A) (e : js_error) : handler A :=
  match o with Some a => ret a | None => throw e end.

Definition TypeError : js_error := JsError None.
Definition SyntaxError : js_error := JsError None.
Definition SqliteError : js_error := JsError (Some "SQLITE_ERROR"%string).

(** The response a request ends with.  A handler that neither sends
    nor catches ends in the application's last error middleware. *)
Definition settle (c : completion response) : response :=
  match c with
  | Done r => r
  | Sent r => r
  | Thrown _ => {| status := 500; body := PError "Internal server error" |}
  end.

Definition run (h : handler response) (w : world) : response * world :=
  let '(c, w') := h w in (settle c, w').

Section Handlers.

Context `{RT : Runtime}.

(** *** Statements *)

(** A SELECT evaluated on the current tables. *)
Definition sql_select {A} (e : env) (q : database -> A) : handler A :=
  fun w => if store_reads e then (Done (q (db w)), w)
           else (Thrown SqliteError, w).

Definition with_db (w : world) (d : database) : world :=
  {| db := d; files := files w; analyze_calls := analyze_calls w |}.

(** [INSERT INTO users (username, password_hash)]: the username is
    UNIQUE. *)
Definition insert_user (e : env) (username hash : jsstring) : handler Z :=
  fun w =>
    let d := db w in
    if negb (store_writes e) then (Thrown SqliteError, w)
    else if existsb (fun u => str_eqb (user_username u) username) (users d)
    then (Thrown SqliteError, w)
    else
      let id := seq_users d + 1 in
      (Done id, with_db w (push_user d username hash (now_s e))).

Definition user_exists (d : database) (uid : Z) : bool :=
  existsb (fun u => Z.eqb (user_id u) uid) (users d).

Definition dataset_exists (d : database) (id : Z) : bool :=
  existsb (fun r => Z.eqb (ds_id r) id) (datasets d).

(** [INSERT INTO datasets (user_id, file_path, original_name,
    schema_json)]: [user_id] references [users(id)]. *)
Definition insert_dataset (e : env) (uid : Z) (path name : jsstring)
           (schema_json : option jsstring) : handler Z :=
  fun w =>
    let d := db w in
    if negb (store_writes e) then (Thrown SqliteError, w)
    else if negb (user_exists d uid) then (Thrown SqliteError, w)
    else
      let id := seq_datasets d + 1 in
      (Done id,
       with_db w (push_dataset d uid path name schema_json (now_s e))).

(** [INSERT INTO chat_history (user_id, dataset_id, query, response,
    code)]: [user_id] and [dataset_id] are foreign keys, [query] is
    NOT NULL. *)
Definition insert_chat (e : env) (uid dsid : Z) (query : jsstring)
           (resp code : option jsstring) : handler Z :=
  fun w =>
    let d := db w in
    if negb (store_writes e) then (Thrown SqliteError, w)
    else if negb (user_exists d uid && dataset_exists d dsid)
    then (Thrown SqliteError, w)
    else
      let id := seq_chat_history d + 1 in
      (Done id,
       with_db w (push_chat d uid dsid query resp code (now_s e))).

(** *** routes/auth.js *)

(** A body field that holds a string, or is missing, as the value the
    body parsers deliver. *)
Definition body_field (f : option jsstring) : jsval :=
  match f with Some s => JStr s | None => JUndefined end.

(** [!field] fails: the presence test of both routes is the
    language's truthiness of whatever JSON value the body holds. *)
Definition present (v : jsval) : bool := truthy v.

Definition field (f : option jsstring) : jsstring :=
  match f with Some s => s | None => [] end.

Definition len (s : jsstring) : Z := Z.of_nat (List.length s).

(** [v.length] of a value that passed the presence test: code units
    of a string, elements of an array, the property of that name of an
    object; numbers and booleans have none. *)
Definition js_length (v : jsval) : jsval :=
  match v with
  | JStr s => JNum (len s)
  | JArr items => JNum (Z.of_nat (List.length items))
  | JObj _ => get_prop v (lit "length")
  | _ => JUndefined
  end.

(** [v < k]: [undefined] compares as NaN, [null] as 0, a boolean as 0
    or 1. *)
Definition less_than (v : jsval) (k : Z) : option bool :=
  match v with
  | JNum n => Some (n <? k)
  | JUndefined => Some false
  | JNull => Some (0 <? k)
  | JBool b => Some ((if b then 1 else 0) <? k)
  | _ => js_less_than v k
  end.

(** [v > k] *)
Definition greater_than (v : jsval) (k : Z) : option bool :=
  match v with
  | JNum n => Some (k <? n)
  | JUndefined => Some false
  | JNull => Some (k <? 0)
  | JBool b => Some (k <? (if b then 1 else 0))
  | _ => js_greater_than v k
  end.

Definition find_user (name : jsstring) (d : database) : option user_row :=
  find (fun u => str_eqb (user_username u) name) (users d).

(** [SELECT ... FROM users WHERE username = ?]: the parameter is
    compared as text, and NULL equals nothing. *)
Definition find_user_by (p : sql_param) (d : database) : option user_row :=
  match text_column p with
  | Some name => find_user name d
  | None => None
  end.

(** [.run(username, passwordHash)] on the INSERT of the registration
    route; both columns are NOT NULL. *)
Definition run_insert_user (e : env) (args : list jsval) : handler Z :=
  params <- of_option (bind_values 2 args) TypeError ;;
  match params with
  | [p_name; p_hash] =>
      name <- of_option (text_column p_name) SqliteError ;;
      hash <- of_option (text_column p_hash) SqliteError ;;
      insert_user e name hash
  | _ => throw TypeError
  end.

(** bcryptjs takes a string to hash or compare and rejects with
    [Error("Illegal arguments: ...")] on any other value. *)
Definition bcrypt_argument (password : jsval) : handler jsstring :=
  match password with
  | JStr s => ret s
  | _ => throw (JsError None)
  end.

(** [POST /api/auth/register] *)
Definition register (e : env) (username password : jsval)
  : handler response :=
  try_catch
    (if negb (present username) || negb (present password)
     then send 400 (PError "Username and password are required")
     else
       short <- of_option (less_than (js_length username) 3) TypeError ;;
       long <- (if short then ret true
                else of_option (greater_than (js_length username) 30)
                               TypeError) ;;
       if long
       then send 400 (PError "Username must be 3-30 characters")
       else
         weak <- of_option (less_than (js_length password) 6) TypeError ;;
         if weak
         then send 400 (PError "Password must be at least 6 characters")
         else
           name <- of_option (bind_value username) TypeError ;;
           existing <- sql_select e (find_user_by name) ;;
           match existing with
           | Some _ => send 409 (PError "Username already taken")
           | None =>
               secret <- bcrypt_argument password ;;
               let passwordHash := bcrypt_hash secret (salt e) in
               id <- run_insert_user e [username; JStr passwordHash] ;;
               let token := jwt_sign id username (now_s e) in
               send 201 (PAuth "User registered successfully" token id
                               username)
           end)
    (fun _ => send 500 (PError "Internal server error")).

(** [POST /api/auth/login] *)
Definition login (e : env) (username password : jsval)
  : handler response :=
  try_catch
    (if negb (present username) || negb (present password)
     then send 400 (PError "Username and password are required")
     else
       name <- of_option (bind_value username) TypeError ;;
       user <- sql_select e (find_user_by name) ;;
       match user with
       | None => send 401 (PError "Invalid credentials")
       | Some u =>
           secret <- bcrypt_argument password ;;
           let isMatch := bcrypt_compare secret (user_password_hash u) in
           if negb isMatch
           then send 401 (PError "Invalid credentials")
           else
             let token :=
               jwt_sign (user_id u) (JStr (user_username u)) (now_s e) in
             send 200 (PAuth "Login successful" token (user_id u)
                             (JStr (user_username u)))
       end)
    (fun _ => send 500 (PError "Internal server error")).

(** *** routes/dataset.js *)

Record upload_file := {
  originalname : jsstring;
  size : Z;                    (* bytes received *)
  content : jsstring           (* the bytes decoded as UTF-8 text *)
}.

(** [/uploads/user_<id>/] under the backend directory. *)
Definition userDir (uid : Z) : jsstring :=
  Path.join [dirname; lit ".."; lit "uploads"; lit "user_" ++ number_text uid].

(** The class [[a-zA-Z0-9._-]]. *)
Definition allowed_unit (c : N) : bool :=
  ((97 <=? c) && (c <=? 122) || (65 <=? c) && (c <=? 90)
   || (48 <=? c) && (c <=? 57)
   || (c =? 46) || (c =? 95) || (c =? 45))%N.

(** [originalname.replace(/[^a-zA-Z0-9._-]/g, '_')] *)
Definition safeName (original : jsstring) : jsstring :=
  map (fun c => if allowed_unit c then c else 95%N) original.

(** [`${Date.now()}_${safeName}`] *)
Definition uniqueName (e : env) (original : jsstring) : jsstring :=
  number_text (now_ms e) ++ lit "_" ++ safeName original.

Definition fileFilter (f : upload_file) : bool :=
  endsWith (toLowerCase (originalname f)) (lit ".csv").

Definition fileSize_limit : Z := 10 * 1024 * 1024.

Fixpoint remove_file (p : jsstring) (fs : list (jsstring * jsstring))
  : list (jsstring * jsstring) :=
  match fs with
  | [] => []
  | (q, c) :: r => if str_eqb q p then remove_file p r
                   else (q, c) :: remove_file p r
  end.

Fixpoint read_file (p : jsstring) (fs : list (jsstring * jsstring))
  : option jsstring :=
  match fs with
  | [] => None
  | (q, c) :: r => if str_eqb q p then Some c else read_file p r
  end.

Definition write_file (p c : jsstring) (w : world) : world :=
  {| db := db w; files := (p, c) :: remove_file p (files w);
     analyze_calls := analyze_calls w |}.

(** Where the disk storage puts an accepted file:
    [path.join(destination, filename)]. *)
Definition stored_path (e : env) (uid : Z) (f : upload_file) : jsstring :=
  Path.join [userDir uid; uniqueName e (originalname f)].

(** What [upload.single('file')] hands to its callback. *)
Inductive multer_result :=
| MulterError (code : string) (message : string)
| UploadError (message : string)
| NoFile
| Stored (path : jsstring) (original : jsstring).

(** The file filter runs first; an accepted file is streamed to
    [destination/filename]; a stream longer than the limit is removed
    again and reported as [LIMIT_FILE_SIZE]. *)
Definition upload_single (e : env) (uid : Z) (part : option upload_file)
           (w : world) : multer_result * world :=
  match part with
  | None => (NoFile, w)
  | Some f =>
      if negb (fileFilter f)
      then (UploadError "Only CSV files are allowed", w)
      else if fileSize_limit <? size f
      then (MulterError "LIMIT_FILE_SIZE" "File too large", w)
      else
        let path := stored_path e uid f in
        (Stored path (originalname f), write_file path (content f) w)
  end.

(** [fs.readFileSync(path, 'utf-8')] *)
Definition readFileSync (p : jsstring) : handler jsstring :=
  fun w => match read_file p (files w) with
           | Some c => (Done c, w)
           | None => (Thrown (JsError (Some "ENOENT"%string)), w)
           end.

(** [fs.unlinkSync(path)] *)
Definition unlinkSync (p : jsstring) : handler unit :=
  fun w => match read_file p (files w) with
           | Some _ => (Done tt,
                        {| db := db w; files := remove_file p (files w);
                           analyze_calls := analyze_calls w |})
           | None => (Thrown (JsError (Some "ENOENT"%string)), w)
           end.

(** [col.trim().replace(/^"|"$/g, '')]: one quote off the front, then
    one off the end of what is left. *)
Definition strip_quotes (s : jsstring) : jsstring :=
  let s1 := match s with 34%N :: r => r | _ => s end in
  match rev s1 with
  | 34%N :: r => rev r
  | _ => s1
  end.

(** The columns [extractSchema] derives from a file's text. *)
Definition header_columns (text : jsstring) : list jsstring :=
  let firstLine := hd [] (split_on 10%N text) in
  map (fun col => strip_quotes (trim col)) (split_on 44%N firstLine).

Definition extractSchema (filePath : jsstring) : handler (list jsstring) :=
  text <- readFileSync filePath ;;
  ret (header_columns text).

(** [{ columns }] *)
Definition schema_object (columns : list jsstring) : jsval :=
  JObj [(lit "columns", JArr (map JStr columns))].

(** [!schema.columns || schema.columns.length === 0 ||
    schema.columns[0] === ''] *)
Definition no_valid_headers (columns : list jsstring) : bool :=
  match columns with
  | [] => true
  | c :: _ => str_eqb c []
  end.

Definition safeBase (uid : Z) : jsstring :=
  Path.resolve cwd [dirname; lit ".."; lit "uploads";
                    lit "user_" ++ number_text uid].

Definition upload_callback (e : env) (uid : Z) (r : multer_result)
  : handler response :=
  match r with
  | MulterError code message =>
      if String.eqb code "LIMIT_FILE_SIZE"
      then send 413 (PError "File too large — 10 MB max")
      else send 400 (PError message)
  | UploadError message => send 400 (PError message)
  | NoFile => send 400 (PError "No file uploaded")
  | Stored path originalName =>
      try_catch
        (let filePath := Path.resolve cwd [path] in
         if negb (startsWith filePath (safeBase uid))
         then
           unlinkSync filePath ;;;
           send 400 (PError "Invalid file path detected")
         else
           columns <- extractSchema filePath ;;
           if no_valid_headers columns
           then send 400 (PError "CSV has no valid column headers")
           else
             let schema := schema_object columns in
             let schemaJson := JSON_stringify schema in
             id <- insert_dataset e uid filePath originalName
                                  (Some schemaJson) ;;
             send 201 (PUploaded id originalName schema))
        (fun _ => send 500 (PError "Failed to process upload"))
  end.

(** [POST /api/upload] *)
Definition upload (e : env) (uid : Z) (part : option upload_file)
  : handler response :=
  fun w =>
    let '(r, w') := upload_single e uid part w in
    upload_callback e uid r w'.

(** [JSON.parse(column)]; a NULL column reads as [null], whose text
    ["null"] decodes to [null]. *)
Definition parse_column (c : option jsstring) : option jsval :=
  match c with
  | None => Some JNull
  | Some t => JSON_parse t
  end.

Definition datasets_of (uid : Z) (d : database) : list dataset_row :=
  order_by_desc ds_uploaded_at
    (filter (fun r => Z.eqb (ds_user_id r) uid) (datasets d)).

Fixpoint parse_rows (rows : list dataset_row) : option (list dataset_view) :=
  match rows with
  | [] => Some []
  | r :: rest =>
      match parse_column (ds_schema_json r) with
      | None => None
      | Some schema =>
          match parse_rows rest with
          | None => None
          | Some vs =>
              Some ({| dv_id := ds_id r;
                       dv_original_name := ds_original_name r;
                       dv_schema_json := ds_schema_json r;
                       dv_uploaded_at := ds_uploaded_at r;
                       dv_schema := schema |} :: vs)
          end
      end
  end.

(** [GET /api/upload/datasets] *)
Definition list_datasets (e : env) (uid : Z) : handler response :=
  try_catch
    (rows <- sql_select e (datasets_of uid) ;;
     parsed <- of_option (parse_rows rows) SyntaxError ;;
     send 200 (PDatasets parsed))
    (fun _ => send 500 (PError "Failed to fetch datasets")).

(** *** routes/chat.js *)

Definition isArray (v : jsval) : bool :=
  match v with JArr _ => true | _ => false end.

(** [v.length] of an array *)
Definition array_length (v : jsval) : Z :=
  match v with JArr items => Z.of_nat (List.length items) | _ => 0 end.

(** [SELECT * FROM datasets WHERE id = ? AND user_id = ?] *)
Definition find_dataset (key : option Z) (uid : Z) (d : database)
  : option dataset_row :=
  find (fun r => key_is key (ds_id r) && Z.eqb (ds_user_id r) uid)
       (datasets d).

(** What an INTEGER foreign-key column takes from a parameter; one
    without an integer reading matches no parent row and the
    statement fails. *)
Definition integer_column (p : sql_param) : handler Z :=
  of_option (integer_key p) SqliteError.

(** [.run(userId, dataset_id, question, answer || '', code || '')] on
    the INSERT of the chat route: the values are taken in the order
    the arguments give them. *)
Definition run_insert_chat (e : env) (args : list jsval) : handler Z :=
  params <- of_option (bind_values 5 args) TypeError ;;
  match params with
  | [p_user; p_dataset; p_query; p_response; p_code] =>
      uid <- of_option (integer_key p_user) SqliteError ;;
      dsid <- integer_column p_dataset ;;
      query <- of_option (text_column p_query) SqliteError ;;
      insert_chat e uid dsid query
                  (text_column p_response) (text_column p_code)
  | _ => throw TypeError
  end.

(** [axios.post(`${PYTHON_SERVICE_URL}/analyze`, request,
    { timeout: 10000 })] *)
Definition axios_post (e : env) (rq : analyze_request) : handler jsval :=
  fun w =>
    let w' := {| db := db w; files := files w;
                 analyze_calls := analyze_calls w ++ [rq] |} in
    match analyze e rq with
    | AxiosResolved data => (Done data, w')
    | AxiosRejected code => (Thrown (JsError code), w')
    end.

Definition invalid_schema (schema : jsval) : bool :=
  negb (truthy schema)
  || negb (isArray (get_prop schema (lit "columns")))
  || (array_length (get_prop schema (lit "columns")) =? 0).

(** [POST /api/chat] *)
Definition chat (e : env) (uid : Z) (dataset_id question context : jsval)
  : handler response :=
  try_catch
    (if negb (truthy dataset_id) || negb (truthy question)
     then send 400 (PError "dataset_id and question are required")
     else
       match question with
       | JStr q =>
           if len (trim q) =? 0
           then send 400 (PError "Question must be a non-empty string")
           else if 500 <? len q
           then send 400 (PError "Question too long — 500 characters max")
           else
             id_param <- of_option (bind_value dataset_id) TypeError ;;
             dataset <- sql_select e
                          (find_dataset (integer_key id_param) uid) ;;
             match dataset with
             | None => send 404 (PError "Dataset not found")
             | Some d =>
                 schema <- of_option (parse_column (ds_schema_json d))
                                     SyntaxError ;;
                 if invalid_schema schema
                 then send 400
                        (PError "Dataset has invalid schema — re-upload the CSV")
                 else
                   data <- axios_post e
                             {| ar_file_path := ds_file_path d;
                                ar_schema := schema;
                                ar_question := q;
                                ar_context := js_or context (JArr []) |} ;;
                   (* destructuring throws on null and undefined *)
                   (if nullish data then throw TypeError else ret tt) ;;;
                   let answer := get_prop data (lit "answer") in
                   let code := get_prop data (lit "code") in
                   run_insert_chat e [JNum uid; dataset_id; JStr q;
                                      js_or answer (JStr []);
                                      js_or code (JStr [])] ;;;
                   send 200
                     (PAnswer answer
                              (js_or (get_prop data (lit "data")) (JObj []))
                              (js_or code (JStr []))
                              (js_or (get_prop data (lit "chart_type")) JNull))
             end
       | _ => send 400 (PError "Question must be a non-empty string")
       end)
    (fun error =>
       if code_is error "ECONNABORTED"
       then send 504 (PError "AI Service Timeout — try again later")
       else if code_is error "ECONNREFUSED"
       then send 503
              (PError "AI Service Unavailable — Python service is not running")
       else send 500 (PError "Internal server error")).

(** [FROM chat_history ch JOIN datasets d ON ch.dataset_id = d.id
    WHERE ch.user_id = ? [AND ch.dataset_id = ?]] *)
Definition history_join (uid : Z) (only : option (option Z)) (d : database)
  : list (chat_row * dataset_row) :=
  flat_map
    (fun ch =>
       if Z.eqb (ch_user_id ch) uid
          && match only with
             | None => true
             | Some key => key_is key (ch_dataset_id ch)
             end
       then map (fun r => (ch, r))
                (filter (fun r => Z.eqb (ch_dataset_id ch) (ds_id r))
                        (datasets d))
       else [])
    (chat_history d).

(** [ORDER BY ch.created_at DESC LIMIT 5] on the joined rows. *)
Definition history_top (uid : Z) (only : option (option Z)) (d : database)
  : list (chat_row * dataset_row) :=
  firstn 5 (order_by_desc (fun p => ch_created_at (fst p))
                          (history_join uid only d)).

Definition history_row (p : chat_row * dataset_row) : history_view :=
  {| hv_id := ch_id (fst p); hv_query := ch_query (fst p);
     hv_response := ch_response (fst p); hv_code := ch_code (fst p);
     hv_created_at := ch_created_at (fst p);
     hv_dataset_name := ds_original_name (snd p) |}.

Definition history_rows (uid : Z) (only : option (option Z)) (d : database)
  : list history_view :=
  map history_row (history_top uid only d).

(** [GET /api/history] *)
Definition history (e : env) (uid : Z) (datasetId : jsval)
  : handler response :=
  try_catch
    (rows <- (if truthy datasetId
              then
                p <- of_option (bind_value datasetId) TypeError ;;
                sql_select e (history_rows uid (Some (integer_key p)))
              else sql_select e (history_rows uid None)) ;;
     send 200 (PHistory rows))
    (fun _ => send 500 (PError "Failed to fetch history")).

(** *** index.js *)

(** [axios.get(`${PYTHON_SERVICE_URL}/health`, { timeout: 3000 })] *)
Definition axios_get_health (e : env) : handler unit :=
  if python_health e then ret tt
  else throw (JsError (Some "ECONNREFUSED"%string)).

(** [GET /api/health] *)
Definition health (e : env) : handler response :=
  dbStatus <- try_catch
                (sql_select e (fun _ => tt) ;;;
                 ret "connected"%string)
                (fun _ => ret "error"%string) ;;
  pythonStatus <- try_catch
                    (axios_get_health e ;;;
                     ret "connected"%string)
                    (fun _ => ret "unavailable"%string) ;;
  send 200
    (PHealth (if String.eqb dbStatus "connected" then "ok" else "degraded")
             dbStatus pythonStatus (now_ms e)).

(** *** The routes together *)

Inductive request :=
| Register (username password : jsval)
| Login (username password : jsval)
| Upload (uid : Z) (part : option upload_file)
| ListDatasets (uid : Z)
| Chat (uid : Z) (dataset_id question context : jsval)
| History (uid : Z) (datasetId : jsval)
| Health.

(** The handler a request is routed to; protected routes run with
    the identity the session verifier attached. *)
Definition route (e : env) (rq : request) : handler response :=
  match rq with
  | Register u p => register e u p
  | Login u p => login e u p
  | Upload uid part => upload e uid part
  | ListDatasets uid => list_datasets e uid
  | Chat uid dataset_id question context =>
      chat e uid dataset_id question context
  | History uid datasetId => history e uid datasetId
  | Health => health e
  end.

Definition serve (e : env) (rq : request) (w : world) : response * world :=
  run (route e rq) w.

(** The worlds the server can be in: the initial one, and any world
    a served request leaves behind. *)
Inductive reachable : world -> Prop :=
| reach_init : reachable initial_world
| reach_serve : forall w e rq,
    reachable w -> reachable (snd (serve e rq w)).

End Handlers.

(** ** A concrete runtime

    Enough of the collaborators to evaluate the handlers on concrete
    requests: a decoder for [null] and for the schema documents the
    upload route writes (column names free of quotes, commas and
    escapes; every other text is rejected as malformed), and simple
    stand-ins for the digest, the token and SQLite's integer
    conversion of decimal texts. *)

Module Sample.

Definition quote : N := 34%N.

(** The text before the first column of a schema document. *)
Definition document_prefix : jsstring :=
  [123%N; quote] ++ lit "columns" ++ [quote; 58%N; 91%N].

Definition document_suffix : jsstring := lit "]}".

Definition quoted (v : jsval) : jsstring :=
  match v with
  | JStr s => quote :: s ++ [quote]
  | _ => lit "null"
  end.

Definition stringify (v : jsval) : jsstring :=
  match v with
  | JObj [(_, JArr items)] =>
      document_prefix ++ join_with [44%N] (map quoted items)
                      ++ document_suffix
  | _ => lit "null"
  end.

Definition unquoted (s : jsstring) : jsstring :=
  match s with
  | 34%N :: r => removelast r
  | _ => s
  end.

Definition parse (t : jsstring) : option jsval :=
  if str_eqb t (lit "null") then Some JNull
  else if startsWith t document_prefix && endsWith t document_suffix
  then
    let inner :=
      firstn (List.length t - List.length document_prefix
              - List.length document_suffix)
             (skipn (List.length document_prefix) t) in
    Some (JObj [(lit "columns",
                 JArr (match inner with
                       | [] => []
                       | _ => map (fun c => JStr (unquoted c))
                                  (split_on 44%N inner)
                       end))])
  else None.

Definition digit_value (c : N) : option Z :=
  if ((48 <=? c) && (c <=? 57))%N then Some (Z.of_N c - 48) else None.

Fixpoint decimal (acc : Z) (s : jsstring) : option Z :=
  match s with
  | [] => Some acc
  | c :: r => match digit_value c with
              | Some d => decimal (10 * acc + d) r
              | None => None
              end
  end.

Definition integer_of_text (s : jsstring) : option Z :=
  match s with [] => None | _ => decimal 0 s end.

Definition runtime : Runtime := {|
  JSON_parse := parse;
  JSON_stringify := stringify;
  bcrypt_hash := fun password salt => salt ++ 36%N :: password;
  bcrypt_compare := fun password digest => endsWith digest (36%N :: password);
  jwt_sign := fun id username issued =>
                number_text id ++ 46%N :: number_text issued;
  sqlite_integer := integer_of_text;
  sqlite_real_text := fun z => number_text z ++ lit "e+0";
  js_less_than := fun _ _ => Some false;
  js_greater_than := fun _ _ => Some false;
  dirname := lit "/srv/dataweb/backend/routes";
  cwd := lit "/srv/dataweb/backend"
|}.

Definition quiet (now : Z) : env :=
  {| now_ms := now * 1000; now_s := now; store_reads := true;
     store_writes := true;
     analyze := fun _ => AxiosRejected (Some "ECONNREFUSED"%string);
     python_health := false; salt := lit "salt" |}.


(** An analysis service that answers every question. *)
Definition answering (now : Z) (data : jsval) : env :=
  {| now_ms := now * 1000; now_s := now; store_reads := true;
     store_writes := true;
     analyze := fun _ => AxiosResolved data;
     python_health := true; salt := lit "salt" |}.

End Sample.

(** ** Vocabulary of the statements *)

(** A piece that survives normalisation of an absolute path. *)
Definition clean (s : jsstring) : Prop :=
  s <> [] /\ s <> Path.dot /\ s <> Path.dotdot /\ ~ In Path.slash s.

(** The absolute path made of the given pieces. *)
Definition abs_path (l : list jsstring) : jsstring :=
  Path.slash :: join_with [Path.slash] l.

(** The pieces of a user's upload directory: those of the backend
    directory (the parent of [__dirname]), then [uploads] and
    [user_<id>]. *)
Definition sandbox_segs `{Runtime} (uid : Z) : list jsstring :=
  Path.normalize_segs false []
    (split_on Path.slash dirname ++ [Path.dotdot])
  ++ [lit "uploads"; lit "user_" ++ number_text uid].

(** ** Concrete requests and worlds *)

Module Scenario.

(** A traversal payload with a proper header line. *)
Definition evil_csv : upload_file :=
  {| originalname := lit "../../evil.csv"; size := 19;
     content := lit "name,age,city" ++ 10%N :: lit "a,1,x" |}.


(** A file whose first line is empty. *)
Definition headerless_csv : upload_file :=
  {| originalname := lit "empty.csv"; size := 4;
     content := 10%N :: lit "a,b" |}.

Definition alice : option jsstring := Some (lit "alice").
Definition secret : option jsstring := Some (lit "secret1").

(** The world after alice registered. *)
Definition registered : world :=
  snd (@serve Sample.runtime (Sample.quiet 1)
              (Register (body_field alice) (body_field secret))
              initial_world).

(** The world after alice, user 1, uploaded [evil_csv] as dataset 1. *)
Definition uploaded : world :=
  snd (@serve Sample.runtime (Sample.quiet 2) (Upload 1 (Some evil_csv))
              registered).

(** An analysis response that carries an answer and no code. *)
Definition answer_only : jsval := JObj [(lit "answer", JStr (lit "42"))].

Definition how_many : jsval := JStr (lit "how many rows?").

(** The world after alice asked one question about dataset 1. *)
Definition asked : world :=
  snd (@serve Sample.runtime (Sample.answering 3 answer_only)
              (Chat 1 (JNum 1) how_many JUndefined) uploaded).

Definition ask (now : Z) (w : world) : world :=
  snd (@serve Sample.runtime (Sample.answering now answer_only)
              (Chat 1 (JNum 1) how_many JUndefined) w).

(** The world after six questions about dataset 1. *)
Definition six_asked : world :=
  ask 8 (ask 7 (ask 6 (ask 5 (ask 4 (ask 3 uploaded))))).

(** The world after six questions about dataset 1, all answered
    within the second 3. *)
Definition six_in_a_second : world :=
  ask 3 (ask 3 (ask 3 (ask 3 (ask 3 (ask 3 uploaded))))).

(** The history entry of the question [ask] puts, answered at second
    [now], as the read shows it under the given id. *)
Definition asked_entry (id now : Z) : history_view :=
  {| hv_id := id; hv_query := lit "how many rows?";
     hv_response := Some (lit "42"); hv_code := Some [];
     hv_created_at := now; hv_dataset_name := lit "../../evil.csv" |}.

(** The world after bob registered as user 2, next to alice and her
    dataset. *)
Definition two_users : world :=
  snd (@serve Sample.runtime (Sample.quiet 9)
              (Register (JStr (lit "bob")) (JStr (lit "hunter22")))
              asked).

(** A store whose only dataset, owned by user 1, holds a schema
    document that is not JSON. *)
Definition corrupted : world :=
  {| db := {| users := users (db registered);
              datasets :=
                [{| ds_id := 1; ds_user_id := 1;
                    ds_file_path :=
                      lit "/srv/dataweb/backend/uploads/user_1/2000_data.csv";
                    ds_original_name := lit "data.csv";
                    ds_schema_json := Some (lit "{columns:");
                    ds_uploaded_at := 2 |}];
              chat_history := [];
              seq_users := 1; seq_datasets := 1; seq_chat_history := 0 |};
     files := []; analyze_calls := [] |}.

End Scenario.

(** What one request can do to the tables. *)
Inductive db_step (d : database) : database -> Prop :=
| step_same : db_step d d
| step_user name hash now : db_step d (push_user d name hash now)
| step_dataset uid path name sj now :
    user_exists d uid = true ->
    db_step d (push_dataset d uid path name sj now)
| step_chat r q resp code now :
    In r (datasets d) ->
    db_step d (push_chat d (ds_user_id r) (ds_id r) q resp code now).

(** The constraints of [init.sql] the handlers rely on: dataset ids
    are unique and bounded by the table's counter, every dataset's
    owner is a user, and every history row points at a dataset of the
    user the row belongs to. *)
Definition db_wf (d : database) : Prop :=
  NoDup (map ds_id (datasets d))
  /\ Forall (fun r => ds_id r <= seq_datasets d) (datasets d)
  /\ Forall (fun r => user_exists d (ds_user_id r) = true) (datasets d)
  /\ Forall (fun ch => exists r, In r (datasets d)
                                /\ ds_id r = ch_dataset_id ch
                                /\ ds_user_id r = ch_user_id ch)
            (chat_history d).

(** No history row holds NULL for the answer or the code. *)
Definition answers_present (d : database) : Prop :=
  Forall (fun ch => ch_response ch <> None /\ ch_code ch <> None)
         (chat_history d).

(** [post h w Q]: running [h] from [w] ends in a completion and a
    world that satisfy [Q]. *)
Definition post {A} (h : handler A) (w : world)
           (Q : completion A -> world -> Prop) : Prop :=
  Q (fst (h w)) (snd (h w)).

(** The world after one more call to the analysis service. *)
Definition record_call (w : world) (rq : analyze_request) : world :=
  {| db := db w; files := files w;
     analyze_calls := analyze_calls w ++ [rq] |}.

(** What the [catch] of the chat route answers to a rejected call. *)
Definition upstream_failure (code : option string) : response :=
  if code_is (JsError code) "ECONNABORTED"
  then {| status := 504;
          body := PError "AI Service Timeout — try again later" |}
  else if code_is (JsError code) "ECONNREFUSED"
  then {| status := 503;
          body := PError
                    "AI Service Unavailable — Python service is not running" |}
  else {| status := 500; body := PError "Internal server error" |}.

(** The request the chat route sends for dataset [d]. *)
Definition analysis_request (d : dataset_row) (schema : jsval)
           (q : jsstring) (context : jsval) : analyze_request :=
  {| ar_file_path := ds_file_path d; ar_schema := schema;
     ar_question := q; ar_context := js_or context (JArr []) |}.

(** What the INSERT of the chat route stores in [response] and [code]
    for the two fields of the analysis response ([answer || ''],
    [code || '']), when their values bind to the two parameters the
    first three arguments leave. *)
Definition logged_texts `{Runtime} (answer code : jsval)
  : option (option jsstring * option jsstring) :=
  match bind_values 2 [js_or answer (JStr []); js_or code (JStr [])] with
  | Some [p_response; p_code] =>
      Some (text_column p_response, text_column p_code)
  | _ => None
  end.

(** The ways a chat request can end. *)
Inductive chat_outcome `{Runtime} (e : env) (uid : Z)
          (dataset_id question context : jsval) (w : world)
  : response -> world -> Prop :=
| chat_rejected st msg :
    In st [400; 404; 500] ->
    chat_outcome e uid dataset_id question context w
      {| status := st; body := PError msg |} w
| chat_upstream_error p d q schema code :
    question = JStr q -> bind_value dataset_id = Some p ->
    find_dataset (integer_key p) uid (db w) = Some d ->
    parse_column (ds_schema_json d) = Some schema ->
    invalid_schema schema = false ->
    analyze e (analysis_request d schema q context) = AxiosRejected code ->
    chat_outcome e uid dataset_id question context w
      (upstream_failure code)
      (record_call w (analysis_request d schema q context))
| chat_late_fault p d q schema data :
    question = JStr q -> bind_value dataset_id = Some p ->
    find_dataset (integer_key p) uid (db w) = Some d ->
    parse_column (ds_schema_json d) = Some schema ->
    invalid_schema schema = false ->
    analyze e (analysis_request d schema q context) = AxiosResolved data ->
    nullish data = true
    \/ logged_texts (get_prop data (lit "answer"))
                    (get_prop data (lit "code")) = None
    \/ store_writes e = false
    \/ user_exists (db w) uid = false ->
    chat_outcome e uid dataset_id question context w
      {| status := 500; body := PError "Internal server error" |}
      (record_call w (analysis_request d schema q context))
| chat_answered p d q schema data answer code :
    question = JStr q -> bind_value dataset_id = Some p ->
    find_dataset (integer_key p) uid (db w) = Some d ->
    parse_column (ds_schema_json d) = Some schema ->
    invalid_schema schema = false ->
    analyze e (analysis_request d schema q context) = AxiosResolved data ->
    nullish data = false ->
    logged_texts (get_prop data (lit "answer"))
                 (get_prop data (lit "code")) = Some (answer, code) ->
    store_writes e = true ->
    chat_outcome e uid dataset_id question context w
      {| status := 200;
         body := PAnswer (get_prop data (lit "answer"))
                         (js_or (get_prop data (lit "data")) (JObj []))
                         (js_or (get_prop data (lit "code")) (JStr []))
                         (js_or (get_prop data (lit "chart_type")) JNull) |}
      (with_db (record_call w (analysis_request d schema q context))
               (push_chat (db w) uid (ds_id d) q answer code (now_s e))).

(** The checks the chat route makes on the request body before it
    looks at the store. *)
Definition well_formed_chat (dataset_id question : jsval) : bool :=
  match question with
  | JStr q => truthy dataset_id && truthy question
              && negb (Z.eqb (Z.of_nat (List.length (trim q))) 0)
              && negb (Z.ltb 500 (Z.of_nat (List.length q)))
  | _ => false
  end.

(** The history rows of one user about one dataset. *)
Definition rows_about (uid k : Z) (d : database) : list chat_row :=
  filter (fun ch => Z.eqb (ch_user_id ch) uid && Z.eqb (ch_dataset_id ch) k)
         (chat_history d).

(** [after_queries uid k n w w']: the server went from [w] to [w'], and
    on the way [n] chat requests of user [uid] about dataset [k] were
    answered with status 200, one after the other; any other requests
    may have been served in between. *)
Inductive after_queries `{Runtime} (uid k : Z) : nat -> world -> world -> Prop :=
| queries_none w : after_queries uid k 0 w w
| queries_other n w w' e rq :
    after_queries uid k n w w' ->
    after_queries uid k n w (snd (serve e rq w'))
| queries_answered n w w' e i q c p :
    after_queries uid k n w w' ->
    bind_value i = Some p -> integer_key p = Some k ->
    status (fst (serve e (Chat uid i q c) w')) = 200 ->
    after_queries uid k (S n) w (snd (serve e (Chat uid i q c) w')).

(** [a] may come before [b] in a descending order by [key]. *)
Definition descending {A} (key : A -> Z) (a b : A) : Prop :=
  key b <= key a.

(** Newest first. *)
Definition newer_first : chat_row * dataset_row ->
                         chat_row * dataset_row -> Prop :=
  descending (fun p => ch_created_at (fst p)).

(** ** Session verifier ([middleware/auth.js]) *)

(** [jwt.verify(token, JWT_SECRET)]: the decoded [id] and [username],
    or [None] when it throws (bad signature, expired, malformed). *)
Class Verifier := {
  jwt_verify : jsstring -> option (Z * jsstring)
}.

(** [req.user] *)
Record identity := { id_user : Z; id_username : jsstring }.

(** ["Bearer <token>"] or the bare token. *)
Definition token_of (authHeader : jsstring) : jsstring :=
  if startsWith authHeader (lit "Bearer ") then skipn 7 authHeader
  else authHeader.

(** The middleware either answers itself or calls [next] with the
    identity attached. *)
Definition authMiddleware `{Verifier} (authHeader : option jsstring)
  : response + identity :=
  match authHeader with
  | None | Some [] =>
      inl {| status := 401;
             body := PError "Unauthorized — No token provided" |}
  | Some h =>
      match jwt_verify (token_of h) with
      | Some (id, username) =>
          inr {| id_user := id; id_username := username |}
      | None =>
          inl {| status := 401;
                 body := PError "Unauthorized — Invalid or expired token" |}
      end
  end.

(** ** The application ([index.js]) *)

(** OPTIONS never reaches a route: [cors()] answers it. *)
Inductive http_method := GET | HEAD | POST | OtherMethod.

Record http_request := {
  hr_method : http_method;
  (** the pieces of the URL path between slashes, an optional
      trailing slash dropped *)
  hr_path : list jsstring;
  hr_authorization : option jsstring;     (* req.headers['authorization'] *)
  (** express-rate-limit finds the client over the limit of the
      limiter that guards the path *)
  hr_over_limit : bool;
  hr_username : jsval;                    (* req.body.username *)
  hr_password : jsval;                    (* req.body.password *)
  hr_dataset_id : jsval;                  (* req.body.dataset_id *)
  hr_question : jsval;                    (* req.body.question *)
  hr_context : jsval;                     (* req.body.context *)
  hr_query_dataset_id : jsval;            (* req.query.dataset_id *)
  hr_file : option upload_file            (* the multipart field [file] *)
}.

(** What the global middleware of [index.js] makes of a request
    before any route sees it: [cors()] answers every OPTIONS request
    itself, with status 204; [express.json()] and
    [express.urlencoded()] pass an error on when they refuse the body
    (malformed JSON, a body over the size limit, an unsupported
    encoding), which skips every route and ends in the error
    middleware; any other request goes on with its body parsed. *)
Inductive incoming :=
| Preflight
| BadBody
| Parsed (rq : http_request).

(** Route paths match without regard to case. *)
Definition seg_is (s : jsstring) (name : string) : bool :=
  str_eqb (toLowerCase s) (lit name).

(** [app.use(prefix, ...)]: the rest of the path when it lies under
    the mount point. *)
Fixpoint under (prefix : list string) (path : list jsstring)
  : option (list jsstring) :=
  match prefix, path with
  | [], _ => Some path
  | name :: prefix', s :: path' =>
      if seg_is s name then under prefix' path' else None
  | _ :: _, [] => None
  end.

(** A GET route also answers HEAD. *)
Definition reads (m : http_method) : bool :=
  match m with GET | HEAD => true | _ => false end.

Definition posts (m : http_method) : bool :=
  match m with POST => true | _ => false end.

Section Application.

Context `{RT : Runtime} `{VF : Verifier}.

(** The last middleware: [res.status(404).json(...)]. *)
Definition route_not_found : handler response :=
  send 404 (PError "Route not found").

(** [routes/auth.js] below its mount point. *)
Definition authRoutes (e : env) (rq : http_request) (rest : list jsstring)
  : handler response :=
  match rest with
  | [s] =>
      if posts (hr_method rq) && seg_is s "register"
      then register e (hr_username rq) (hr_password rq)
      else if posts (hr_method rq) && seg_is s "login"
      then login e (hr_username rq) (hr_password rq)
      else route_not_found
  | _ => route_not_found
  end.

(** [routes/dataset.js] below its mount point. *)
Definition datasetRoutes (e : env) (u : identity) (rq : http_request)
           (rest : list jsstring) : handler response :=
  match rest with
  | [] =>
      if posts (hr_method rq) then upload e (id_user u) (hr_file rq)
      else route_not_found
  | [s] =>
      if reads (hr_method rq) && seg_is s "datasets"
      then list_datasets e (id_user u)
      else route_not_found
  | _ => route_not_found
  end.

(** [routes/chat.js] below its mount point. *)
Definition chatRoutes (e : env) (u : identity) (rq : http_request)
           (rest : list jsstring) : handler response :=
  match rest with
  | [] =>
      if posts (hr_method rq)
      then chat e (id_user u) (hr_dataset_id rq) (hr_question rq)
                (hr_context rq)
      else route_not_found
  | [s] =>
      if reads (hr_method rq) && seg_is s "history"
      then history e (id_user u) (hr_query_dataset_id rq)
      else route_not_found
  | _ => route_not_found
  end.

(** A mount behind [authMiddleware]. *)
Definition protected (rq : http_request) (k : identity -> handler response)
  : handler response :=
  match authMiddleware (hr_authorization rq) with
  | inl r => send (status r) (body r)
  | inr u => k u
  end.

(** The response of a limiter that refuses. *)
Definition limited (message : string) : handler response :=
  send 429 (PError message).

(** [app.get('/api/health', ...)] matches. *)
Definition is_health (rq : http_request) : bool :=
  match hr_path rq with
  | [a; h] => reads (hr_method rq) && seg_is a "api" && seg_is h "health"
  | _ => false
  end.

(** The four mounts and the 404 handler, in the order [index.js]
    declares them. *)
Definition mounts (e : env) (rq : http_request) : handler response :=
  match under ["api"; "auth"]%string (hr_path rq) with
  | Some rest =>
      if hr_over_limit rq
      then limited "Too many auth attempts — try again in a minute"
      else authRoutes e rq rest
  | None =>
      match under ["api"; "upload"]%string (hr_path rq) with
      | Some rest => protected rq (fun u => datasetRoutes e u rq rest)
      | None =>
          match under ["api"; "chat"]%string (hr_path rq) with
          | Some rest =>
              protected rq
                (fun u =>
                   if hr_over_limit rq
                   then limited "Too many requests — slow down"
                   else chatRoutes e u rq rest)
          | None =>
              match under ["api"; "history"]%string (hr_path rq) with
              | Some rest => protected rq (fun u => chatRoutes e u rq rest)
              | None => route_not_found
              end
          end
      end
  end.

(** What a request meets once the global middleware let it through:
    the health route first, then the mounts. *)
Definition routes (e : env) (rq : http_request) : handler response :=
  if is_health rq then health e else mounts e rq.

(** The error middleware at the end of [index.js]. *)
Definition error_middleware : handler response :=
  send 500 (PError "Internal server error").

(** The [app] of [index.js]: the global middleware, then the routes. *)
Definition express_app (e : env) (i : incoming) : handler response :=
  match i with
  | Preflight => send 204 PNoContent
  | BadBody => error_middleware
  | Parsed rq => routes e rq
  end.

End Application.

(** ** Vocabulary of the further properties *)

(** [later w w']: the server can get from [w] to [w'] by serving
    requests. *)
Inductive later `{Runtime} (w : world) : world -> Prop :=
| later_now : later w w
| later_serve w' e rq : later w w' -> later w (snd (serve e rq w')).

(** The user table keeps usernames and ids apart, and no id is above
    the table's counter. *)
Definition users_wf (d : database) : Prop :=
  NoDup (map user_username (users d))
  /\ NoDup (map user_id (users d))
  /\ Forall (fun u => 0 < user_id u <= seq_users d) (users d)
  /\ 0 <= seq_users d.

(** The field lengths the registration route accepts. *)
Definition acceptable_credentials (username password : option jsstring)
  : Prop :=
  present (body_field username) = true
  /\ present (body_field password) = true
  /\ 3 <= Z.of_nat (List.length (field username)) <= 30
  /\ 6 <= Z.of_nat (List.length (field password)).

(** The text the [username] column gets for the username a request
    body holds. *)
Definition stored_username `{Runtime} (username : jsval)
  : option jsstring :=
  match bind_value username with
  | Some p => text_column p
  | None => None
  end.

(** A dataset row as the upload route writes it for an accepted file:
    the stored path below the owner's directory, the declared name and
    the schema document of the file's header line. *)
Definition uploaded_row `{Runtime} (r : dataset_row) : Prop :=
  exists e f,
    fileFilter f = true
    /\ no_valid_headers (header_columns (content f)) = false
    /\ ds_file_path r = stored_path e (ds_user_id r) f
    /\ ds_original_name r = originalname f
    /\ ds_schema_json r
       = Some (JSON_stringify (schema_object (header_columns (content f))))
    /\ ds_uploaded_at r = now_s e.

(** The row an accepted upload appends. *)
Definition upload_row `{Runtime} (e : env) (uid : Z) (f : upload_file)
           (d : database) : dataset_row :=
  {| ds_id := seq_datasets d + 1; ds_user_id := uid;
     ds_file_path := stored_path e uid f;
     ds_original_name := originalname f;
     ds_schema_json :=
       Some (JSON_stringify (schema_object (header_columns (content f))));
     ds_uploaded_at := now_s e |}.

(** [JSON.parse] undoes [JSON.stringify] on schema objects (asked for
    column names without commas only, which is all a header line
    yields). *)
Definition schema_round_trip `{Runtime} : Prop :=
  forall columns,
    Forall (fun c => ~ In 44%N c) columns ->
    JSON_parse (JSON_stringify (schema_object columns))
    = Some (schema_object columns).

(** The view the listing gives of a row whose schema decodes to
    [schema]. *)
Definition view_of (r : dataset_row) (schema : jsval) : dataset_view :=
  {| dv_id := ds_id r; dv_original_name := ds_original_name r;
     dv_schema_json := ds_schema_json r;
     dv_uploaded_at := ds_uploaded_at r; dv_schema := schema |}.

(** A view of the listing next to the row it shows: the row's fields
    and the column list its schema document holds, which is not empty
    and has no comma in a name. *)
Definition shows `{Runtime} (v : dataset_view) (r : dataset_row) : Prop :=
  exists columns,
    columns <> [] /\ Forall (fun c => ~ In 44%N c) columns
    /\ ds_schema_json r = Some (JSON_stringify (schema_object columns))
    /\ v = view_of r (schema_object columns).


(** ** Concrete HTTP traffic *)

Module Traffic.

(** The verifier on the two tokens the registrations of [Scenario]
    returned; every other text is refused. *)
Definition verifier : Verifier := {|
  jwt_verify := fun t =>
    if str_eqb t (lit "1.1") then Some (1, lit "alice")
    else if str_eqb t (lit "2.9") then Some (2, lit "bob")
    else None
|}.

(** A request of alice with her token as a bearer header, over the
    limit of whatever limiter guards its path. *)
Definition from_alice (m : http_method) (path : list jsstring)
  : http_request :=
  {| hr_method := m; hr_path := path;
     hr_authorization := Some (lit "Bearer 1.1");
     hr_over_limit := true;
     hr_username := JUndefined; hr_password := JUndefined;
     hr_dataset_id := JNum 1; hr_question := Scenario.how_many;
     hr_context := JUndefined; hr_query_dataset_id := JUndefined;
     hr_file := None |}.

(** The same request without credentials. *)
Definition anonymous (m : http_method) (path : list jsstring)
  : http_request :=
  {| hr_method := m; hr_path := path;
     hr_authorization := None;
     hr_over_limit := false;
     hr_username := JUndefined; hr_password := JUndefined;
     hr_dataset_id := JNum 1; hr_question := Scenario.how_many;
     hr_context := JUndefined; hr_query_dataset_id := JUndefined;
     hr_file := None |}.

End Traffic.

(** The handler always ends by sending a response itself, with one of
    the given status codes: nothing is left to the application's error
    middleware. *)
Definition answers (h : handler response) (codes : list Z) : Prop :=
  forall w, exists r, fst (h w) = Sent r /\ In (status r) codes.

(** The request carries a token that verifies for user [uid]. *)
Definition token_holder `{Verifier} (rq : http_request) (uid : Z) : Prop :=
  exists h name,
    hr_authorization rq = Some h
    /\ jwt_verify (token_of h) = Some (uid, name).

(** ** Concrete uploads *)

Module Disk.

(** The world after bob, user 2, uploaded a file next to alice's. *)
Definition both_uploaded : world :=
  snd (@serve Sample.runtime (Sample.quiet 11)
              (Upload 2 (Some Scenario.evil_csv)) Scenario.two_users).

(** A file whose declared name is what the sanitiser makes of
    [Scenario.evil_csv]'s. *)
Definition evil_twin : upload_file :=
  {| originalname := lit ".._.._evil.csv"; size := 3;
     content := lit "x,y" |}.

End Disk.

(* ================================================================== *)
(** * Part II: properties *)
(* ================================================================== *)

(** ** Strings *)

Lemma str_eqb_spec (a b : jsstring) : str_eqb a b = true <-> a = b.
Proof.
  revert b; induction a as [|x a IH]; intros [|y b]; simpl;
    try (split; [discriminate | congruence]); try tauto.
  rewrite andb_true_iff, N.eqb_eq, IH. split.
  - intros [-> ->]; reflexivity.
  - intros E; injection E; auto.
Qed.

Lemma str_eqb_refl (a : jsstring) : str_eqb a a = true.
Proof. apply str_eqb_spec; reflexivity. Qed.

Lemma str_eqb_neq (a b : jsstring) : a <> b -> str_eqb a b = false.
Proof.
  intros H; destruct (str_eqb a b) eqn:E; auto.
  apply str_eqb_spec in E; contradiction.
Qed.

Lemma startsWith_app (a b : jsstring) : startsWith (a ++ b) a = true.
Proof.
  induction a as [|x a IH]; simpl.
  - destruct b; reflexivity.
  - rewrite N.eqb_refl; exact IH.
Qed.

Lemma split_on_nonempty c s : split_on c s <> [].
Proof.
  destruct s as [|x r]; simpl; [discriminate|].
  destruct (N.eqb x c); [discriminate|].
  destruct (split_on c r); discriminate.
Qed.

(** A text without the separator is a single piece. *)
Lemma split_on_single c s : ~ In c s -> split_on c s = [s].
Proof.
  induction s as [|x r IH]; simpl; intros H; [reflexivity|].
  destruct (N.eqb_spec x c) as [->|_]; [exfalso; auto|].
  rewrite IH by tauto. reflexivity.
Qed.

(** Splitting distributes over a separator in the middle. *)
Lemma split_on_app c a b :
  split_on c (a ++ c :: b) = split_on c a ++ split_on c b.
Proof.
  induction a as [|x r IH]; simpl.
  - rewrite N.eqb_refl. reflexivity.
  - destruct (N.eqb x c); [rewrite IH; reflexivity|].
    rewrite IH.
    destruct (split_on c r) eqn:E; [exfalso; eapply split_on_nonempty; eauto|].
    reflexivity.
Qed.

Lemma split_on_pieces c s : Forall (fun p => ~ In c p) (split_on c s).
Proof.
  induction s as [|x r IH]; simpl.
  - constructor; auto.
  - destruct (N.eqb_spec x c) as [->|Hn].
    + constructor; auto.
    + destruct (split_on c r) as [|p ps]; [constructor; [|constructor]|].
      * simpl; intros [E|[]]; auto.
      * inversion IH; subst. constructor; auto.
        simpl; intros [E|E]; auto.
Qed.


(** ** Header fields *)

Section HeaderFields.







(** A match on a leading quote is a test of the first code unit. *)
Lemma quote_head {B} (t : jsstring) (f : jsstring -> B) (g : B) :
  match t with 34%N :: r => f r | _ => g end
  = match t with
    | [] => g
    | x :: r => if N.eqb x 34 then f r else g
    end.
Proof.
  destruct t as [|[|p] r]; try reflexivity.
  repeat (destruct p as [p|p|]; try reflexivity).
Qed.







End HeaderFields.

Lemma uint_units_digits d :
  Forall (fun c => (48 <= c <= 57)%N) (uint_units d).
Proof. induction d; simpl; constructor; auto; lia. Qed.

(** The text of an integer holds digits and at most a leading minus. *)
Lemma number_text_units z :
  Forall (fun c => c = 45%N \/ (48 <= c <= 57)%N) (number_text z).
Proof.
  unfold number_text.
  destruct (Z.to_int z); [|constructor; [auto|]];
    (eapply Forall_impl; [|apply uint_units_digits]); simpl; auto.
Qed.

(** ** Paths *)

Module PathFacts.
Import Path.

Lemma normalize_segs_push s acc r :
  clean s ->
  normalize_segs false acc (s :: r) = normalize_segs false (s :: acc) r.
Proof.
  intros (H1 & H2 & H3 & _). simpl.
  rewrite (str_eqb_neq H1), (str_eqb_neq H2), (str_eqb_neq H3).
  reflexivity.
Qed.

Lemma normalize_segs_clean l : forall acc,
  Forall clean l -> normalize_segs false acc l = rev acc ++ l.
Proof.
  induction l as [|s r IH]; intros acc H.
  - simpl. rewrite app_nil_r. reflexivity.
  - inversion H; subst. rewrite normalize_segs_push by assumption.
    rewrite IH by assumption. simpl. rewrite <- app_assoc. reflexivity.
Qed.

Lemma normalize_segs_app f l1 : forall acc l2,
  normalize_segs f acc (l1 ++ l2)
  = normalize_segs f (rev (normalize_segs f acc l1)) l2.
Proof.
  induction l1 as [|s r IH]; intros acc l2; simpl.
  - rewrite rev_involutive. reflexivity.
  - destruct (str_eqb s [] || str_eqb s dot); [apply IH|].
    destruct (str_eqb s dotdot); [|apply IH].
    destruct acc as [|a acc']; [destruct f; apply IH|].
    destruct (str_eqb a dotdot); apply IH.
Qed.

Lemma normalize_segs_keeps_clean l : forall acc,
  Forall clean acc -> Forall (fun p => ~ In slash p) l ->
  Forall clean (normalize_segs false acc l).
Proof.
  induction l as [|s r IH]; intros acc Hacc Hl; simpl.
  - apply Forall_rev; assumption.
  - inversion Hl; subst.
    destruct (str_eqb s []) eqn:E1; simpl; [apply IH; assumption|].
    destruct (str_eqb s dot) eqn:E2; [apply IH; assumption|].
    destruct (str_eqb s dotdot) eqn:E3.
    + destruct acc as [|a acc']; [apply IH; assumption|].
      inversion Hacc as [|? ? Ha Hacc']; subst.
      destruct Ha as (_ & _ & Ha & _).
      rewrite (str_eqb_neq Ha). apply IH; assumption.
    + apply IH; [|assumption]. constructor; [|assumption].
      repeat split; try assumption; intros ->;
        rewrite str_eqb_refl in *; discriminate.
Qed.

Lemma join_with_snoc sep l x :
  l <> [] -> join_with sep (l ++ [x]) = join_with sep l ++ sep ++ x.
Proof.
  induction l as [|p r IH]; [congruence|]; intros _.
  destruct r as [|q r]; [reflexivity|].
  change (join_with sep ((p :: q :: r) ++ [x]))
    with (p ++ sep ++ join_with sep ((q :: r) ++ [x])).
  rewrite IH by discriminate.
  change (join_with sep (p :: q :: r))
    with (p ++ sep ++ join_with sep (q :: r)).
  rewrite <- !app_assoc. reflexivity.
Qed.

Lemma split_join l :
  l <> [] -> Forall (fun p => ~ In slash p) l ->
  split_on slash (join_with [slash] l) = l.
Proof.
  induction l as [|p r IH]; [congruence|]; intros _ H.
  inversion H; subst.
  destruct r as [|q r]; [apply split_on_single; assumption|].
  change (join_with [slash] (p :: q :: r))
    with (p ++ slash :: join_with [slash] (q :: r)).
  rewrite split_on_app, split_on_single by assumption.
  rewrite IH by (assumption || discriminate).
  reflexivity.
Qed.

(** Gluing relative one-piece parts behind [d] adds them as pieces. *)
Lemma split_glue parts : forall d,
  Forall (fun p => ~ In slash p) parts ->
  split_on slash (join_with [slash] (d :: parts))
  = split_on slash d ++ parts.
Proof.
  induction parts as [|p r IH]; intros d H.
  - simpl. rewrite app_nil_r. reflexivity.
  - inversion H; subst.
    change (join_with [slash] (d :: p :: r))
      with (d ++ slash :: join_with [slash] (p :: r)).
    rewrite split_on_app, IH by assumption.
    rewrite (@split_on_single slash p) by assumption.
    reflexivity.
Qed.

Lemma clean_noslash l :
  Forall clean l -> Forall (fun p => ~ In slash p) l.
Proof. apply Forall_impl. intros s (_ & _ & _ & H); exact H. Qed.

Lemma join_with_clean_nonempty l :
  l <> [] -> Forall clean l -> join_with [slash] l <> [].
Proof.
  destruct l as [|p r]; [congruence|]. intros _ H.
  inversion H as [|? ? (Hp & _) _]; subst.
  destruct r; simpl; [assumption|].
  destruct p; [congruence|discriminate].
Qed.

Lemma no_trailing_slash a b :
  b <> [] -> ~ In slash b -> hasTrailingSlash (a ++ b) = false.
Proof.
  intros Hb Hs. unfold hasTrailingSlash. rewrite rev_app_distr.
  destruct (rev b) as [|c t] eqn:E.
  - apply (f_equal (@rev N)) in E. rewrite rev_involutive in E.
    simpl in E. contradiction.
  - simpl. apply N.eqb_neq. intros ->. apply Hs.
    apply in_rev. rewrite E. left; reflexivity.
Qed.

Lemma join_with_last_part d parts x :
  join_with [slash] (d :: parts ++ [x])
  = join_with [slash] (d :: parts) ++ slash :: x.
Proof.
  change (d :: parts ++ [x]) with ((d :: parts) ++ [x]).
  rewrite join_with_snoc by discriminate. reflexivity.
Qed.

(** [normalize] on an absolute path without trailing separator whose
    pieces do not all cancel. *)
Lemma normalize_absolute p l :
  isAbsolute p = true -> hasTrailingSlash p = false ->
  normalize_segs false [] (split_on slash p) = l ->
  l <> [] -> Forall clean l ->
  normalize p = abs_path l.
Proof.
  intros Ha Ht Hl Hne Hc. unfold normalize, normalizeString.
  destruct p as [|c p']; [discriminate|].
  rewrite Ha, Ht. simpl negb. rewrite Hl.
  pose proof (join_with_clean_nonempty Hne Hc) as Hb.
  unfold abs_path.
  destruct (join_with [slash] l); [congruence|]. reflexivity.
Qed.

Lemma split_abs_path l :
  l <> [] -> Forall clean l -> split_on slash (abs_path l) = [] :: l.
Proof.
  intros Hne Hc. unfold abs_path. cbn [split_on].
  rewrite N.eqb_refl, split_join by (auto using clean_noslash). reflexivity.
Qed.

(** [path.join(dir, name)] for a normalised absolute [dir]. *)
Lemma join_child l name :
  l <> [] -> Forall clean l -> clean name ->
  join [abs_path l; name] = abs_path (l ++ [name]).
Proof.
  intros Hne Hc Hn. unfold join.
  assert (Hname : str_eqb name [] = false)
    by (apply str_eqb_neq; apply Hn).
  cbn [filter]. change (str_eqb (abs_path l) []) with false.
  rewrite Hname. cbn [negb].
  apply normalize_absolute.
  - reflexivity.
  - change (join_with [slash] [abs_path l; name])
      with (abs_path l ++ [slash] ++ name).
    rewrite app_assoc. apply no_trailing_slash; apply Hn.
  - rewrite split_glue
      by (constructor; [apply Hn | constructor]).
    rewrite split_abs_path by assumption.
    cbn [app normalize_segs str_eqb orb].
    apply normalize_segs_clean.
    apply Forall_app; split; [assumption|constructor; [assumption|constructor]].
  - destruct l; discriminate.
  - apply Forall_app; split; [assumption|constructor; [assumption|constructor]].
Qed.

(** [path.resolve(p)] leaves a normalised absolute path alone. *)
Lemma resolve_absolute cwd l :
  l <> [] -> Forall clean l ->
  resolve cwd [abs_path l] = abs_path l.
Proof.
  intros Hne Hc. unfold resolve, normalizeString. cbn [rev app resolve_scan].
  change (str_eqb (abs_path l) []) with false. cbn iota.
  change (isAbsolute (abs_path l)) with true. cbn iota.
  rewrite split_on_app, split_abs_path by assumption.
  cbn [split_on app normalize_segs str_eqb orb].
  rewrite normalize_segs_app, (@normalize_segs_clean l [] Hc).
  cbn [rev app normalize_segs str_eqb orb]. rewrite rev_involutive.
  reflexivity.
Qed.

Lemma abs_path_snoc l name :
  l <> [] -> abs_path (l ++ [name]) = abs_path l ++ slash :: name.
Proof.
  intros Hne. unfold abs_path. rewrite join_with_snoc by assumption.
  reflexivity.
Qed.

Lemma segments_abs_path l :
  l <> [] -> Forall clean l -> segments (abs_path l) = l.
Proof.
  intros Hne Hc. unfold segments. rewrite split_abs_path by assumption.
  cbn [filter str_eqb negb].
  induction Hc as [|s r (Hs & _) _ IH]; [reflexivity|].
  cbn [filter]. rewrite (str_eqb_neq Hs). cbn [negb].
  destruct r; [reflexivity|]. rewrite IH by discriminate. reflexivity.
Qed.

Lemma strict_prefix_snoc l x : strict_prefix l (l ++ [x]) = true.
Proof.
  induction l as [|a l IH]; simpl; [reflexivity|].
  rewrite str_eqb_refl. exact IH.
Qed.

(** A child of a normalised absolute directory is below it. *)
Lemma child_descendant l name :
  l <> [] -> Forall clean l -> clean name ->
  descendant (abs_path (l ++ [name])) (abs_path l) = true.
Proof.
  intros Hne Hc Hn. unfold descendant.
  rewrite !segments_abs_path;
    try assumption; try (destruct l; discriminate).
  - apply strict_prefix_snoc.
  - apply Forall_app; split; [assumption|constructor; [assumption|constructor]].
Qed.

End PathFacts.

(** ** The upload sandbox *)

Section Sandbox.

Context `{RT : Runtime}.
Hypothesis dirname_absolute : Path.isAbsolute dirname = true.

Import Path PathFacts.

Lemma units_no_slash (s : jsstring) (P : N -> Prop) :
  Forall P s -> ~ P slash -> ~ In slash s.
Proof.
  intros H Hn Hin. rewrite Forall_forall in H. apply Hn, H, Hin.
Qed.

Lemma number_text_no_slash z : ~ In slash (number_text z).
Proof.
  eapply units_no_slash; [apply number_text_units|].
  unfold slash; intros [H|H]; [discriminate|lia].
Qed.

Lemma user_part_clean uid : clean (lit "user_" ++ number_text uid).
Proof.
  repeat split; try discriminate.
  change (lit "user_" ++ number_text uid)
    with (117 :: 115 :: 101 :: 114 :: 95 :: number_text uid)%N.
  intros [H|[H|[H|[H|[H|H]]]]]; try discriminate.
  exact (number_text_no_slash _ H).
Qed.

Lemma sandbox_segs_clean uid : Forall clean (sandbox_segs uid).
Proof.
  unfold sandbox_segs. apply Forall_app; split.
  - apply normalize_segs_keeps_clean; [constructor|].
    apply Forall_app; split; [apply split_on_pieces|].
    constructor; [|constructor]. unfold dotdot, slash.
    intros [H|[H|[]]]; discriminate.
  - constructor; [|constructor; [apply user_part_clean|constructor]].
    repeat split; try discriminate.
    unfold slash; simpl; intuition discriminate.
Qed.

Lemma sandbox_segs_nonempty uid : sandbox_segs uid <> [].
Proof.
  unfold sandbox_segs. intros H. apply app_eq_nil in H.
  destruct H; discriminate.
Qed.

(** The pieces left of the four parts both [userDir] and [safeBase]
    glue together. *)
Lemma sandbox_pieces uid :
  normalize_segs false []
    (split_on slash
       (join_with [slash]
          [dirname; lit ".."; lit "uploads"; lit "user_" ++ number_text uid]))
  = sandbox_segs uid.
Proof.
  pose proof (user_part_clean uid) as Hu.
  rewrite split_glue.
  2:{ repeat constructor; try apply Hu;
      unfold slash; simpl; intuition discriminate. }
  change [lit ".."; lit "uploads"; lit "user_" ++ number_text uid]
    with ([dotdot] ++ [lit "uploads"; lit "user_" ++ number_text uid]).
  rewrite app_assoc, normalize_segs_app, normalize_segs_clean.
  - rewrite rev_involutive. reflexivity.
  - constructor; [|constructor; [exact Hu|constructor]].
    repeat split; try discriminate.
    unfold slash; simpl; intuition discriminate.
Qed.

Lemma dirname_nonempty : str_eqb dirname [] = false.
Proof. destruct dirname; [discriminate dirname_absolute|reflexivity]. Qed.

(** [userDir] is the normalised absolute path of the sandbox. *)
Lemma userDir_abs uid : userDir uid = abs_path (sandbox_segs uid).
Proof.
  unfold userDir, join. cbn [filter].
  rewrite dirname_nonempty.
  change (str_eqb (lit "..") []) with false.
  change (str_eqb (lit "uploads") []) with false.
  change (str_eqb (lit "user_" ++ number_text uid) []) with false.
  cbn [negb].
  apply normalize_absolute.
  - destruct dirname; [discriminate dirname_absolute|exact dirname_absolute].
  - change [dirname; lit ".."; lit "uploads"; lit "user_" ++ number_text uid]
      with (dirname :: [lit ".."; lit "uploads"]
              ++ [lit "user_" ++ number_text uid]).
    rewrite join_with_last_part.
    change (?a ++ slash :: ?b) with (a ++ [slash] ++ b).
    rewrite app_assoc. apply no_trailing_slash; apply user_part_clean.
  - apply sandbox_pieces.
  - apply sandbox_segs_nonempty.
  - apply sandbox_segs_clean.
Qed.

(** [safeBase] is the same directory. *)
Lemma safeBase_abs uid : safeBase uid = abs_path (sandbox_segs uid).
Proof.
  unfold safeBase, resolve, normalizeString.
  cbn [rev app resolve_scan].
  change (str_eqb (lit "user_" ++ number_text uid) []) with false.
  change (isAbsolute (lit "user_" ++ number_text uid)) with false.
  change (str_eqb (lit "uploads") []) with false.
  change (isAbsolute (lit "uploads")) with false.
  change (str_eqb (lit "..") []) with false.
  change (isAbsolute (lit "..")) with false.
  cbn iota. rewrite dirname_nonempty, dirname_absolute. cbn iota.
  replace (dirname ++ [slash] ++ lit ".." ++ [slash] ++ lit "uploads"
             ++ [slash] ++ (lit "user_" ++ number_text uid) ++ [slash] ++ [])
    with (join_with [slash]
            [dirname; lit ".."; lit "uploads"; lit "user_" ++ number_text uid]
          ++ slash :: []).
  2:{ cbn [join_with]. rewrite <- !app_assoc. reflexivity. }
  rewrite split_on_app, normalize_segs_app, sandbox_pieces.
  cbn [split_on normalize_segs str_eqb orb]. rewrite rev_involutive.
  reflexivity.
Qed.

End Sandbox.

Section Upload.

Context `{RT : Runtime}.
Hypothesis dirname_absolute : Path.isAbsolute dirname = true.

Import Path PathFacts.

Lemma safeName_allowed o : Forall (fun c => allowed_unit c = true) (safeName o).
Proof.
  unfold safeName. induction o as [|c o IH]; simpl; constructor; auto.
  destruct (allowed_unit c) eqn:E; [exact E|reflexivity].
Qed.

(** Every code unit of a stored name is on the allow-list. *)
Lemma uniqueName_allowed e o :
  Forall (fun c => allowed_unit c = true) (uniqueName e o).
Proof.
  unfold uniqueName. apply Forall_app; split.
  - eapply Forall_impl; [|apply number_text_units].
    intros c [->|H]; [reflexivity|]. unfold allowed_unit.
    destruct H as [H1 H2].
    apply N.leb_le in H1, H2. rewrite H1, H2.
    rewrite !orb_true_r. reflexivity.
  - apply Forall_app; split; [repeat constructor|apply safeName_allowed].
Qed.

Lemma uniqueName_has_underscore e o : In 95%N (uniqueName e o).
Proof.
  unfold uniqueName. apply in_or_app; right. left; reflexivity.
Qed.

Lemma uniqueName_clean e o : clean (uniqueName e o).
Proof.
  pose proof (uniqueName_has_underscore e o) as Hu.
  repeat split.
  - intros E; rewrite E in Hu; exact Hu.
  - intros E; rewrite E in Hu. unfold dot in Hu; simpl in Hu.
    intuition discriminate.
  - intros E; rewrite E in Hu. unfold dotdot in Hu; simpl in Hu.
    intuition discriminate.
  - eapply units_no_slash; [apply uniqueName_allowed|].
    unfold slash; discriminate.
Qed.

Lemma stored_path_abs e uid f :
  stored_path e uid f
  = abs_path (sandbox_segs uid ++ [uniqueName e (originalname f)]).
Proof.
  unfold stored_path. rewrite userDir_abs by assumption.
  apply join_child;
    auto using sandbox_segs_nonempty, sandbox_segs_clean, uniqueName_clean.
Qed.

Lemma stored_path_child e uid f :
  stored_path e uid f
  = safeBase uid ++ slash :: uniqueName e (originalname f).
Proof.
  rewrite stored_path_abs, safeBase_abs by assumption.
  apply abs_path_snoc, sandbox_segs_nonempty.
Qed.

Lemma stored_path_resolved e uid f :
  Path.resolve cwd [stored_path e uid f] = stored_path e uid f.
Proof.
  rewrite stored_path_abs. apply resolve_absolute.
  - destruct (sandbox_segs uid); discriminate.
  - apply Forall_app; split;
      [apply sandbox_segs_clean|constructor; [apply uniqueName_clean|constructor]].
Qed.

Lemma stored_path_descendant e uid f :
  Path.descendant (Path.resolve cwd [stored_path e uid f]) (safeBase uid)
  = true.
Proof.
  rewrite stored_path_resolved, stored_path_abs, safeBase_abs by assumption.
  apply child_descendant;
    auto using sandbox_segs_nonempty, sandbox_segs_clean, uniqueName_clean.
Qed.

(** The path guard of the upload route holds for every stored file. *)
Lemma path_guard_passes e uid f :
  startsWith (Path.resolve cwd [stored_path e uid f]) (safeBase uid) = true.
Proof.
  rewrite stored_path_resolved, stored_path_child. apply startsWith_app.
Qed.

Lemma read_file_written p c (w : world) :
  read_file p (files (write_file p c w)) = Some c.
Proof. simpl. rewrite str_eqb_refl. reflexivity. Qed.

Lemma in_remove_file p q c fs :
  In (q, c) (remove_file p fs) -> In (q, c) fs.
Proof.
  induction fs as [|[q' c'] fs IH]; simpl; [tauto|].
  destruct (str_eqb q' p); simpl; intuition.
Qed.

(** The course of an upload that multer accepts: the file is written,
    the guard passes, and the outcome is decided by the header and
    the insert. *)
Lemma upload_accepted e uid f w :
  fileFilter f = true -> size f <= fileSize_limit ->
  let path := stored_path e uid f in
  let w1 := write_file path (content f) w in
  let columns := header_columns (content f) in
  run (upload e uid (Some f)) w =
  if no_valid_headers columns
  then ({| status := 400;
           body := PError "CSV has no valid column headers" |}, w1)
  else
    match insert_dataset e uid path (originalname f)
            (Some (JSON_stringify (schema_object columns))) w1 with
    | (Done id, w2) =>
        ({| status := 201;
            body := PUploaded id (originalname f) (schema_object columns) |},
         w2)
    | (_, w2) =>
        ({| status := 500; body := PError "Failed to process upload" |}, w2)
    end.
Proof.
  intros Hf Hs path w1 columns.
  unfold run, upload, upload_single. rewrite Hf. cbn [negb].
  assert (Hlim : (fileSize_limit <? size f) = false) by (apply Z.ltb_ge; lia).
  rewrite Hlim. fold path. fold w1.
  assert (Hr : resolve cwd [path] = path) by apply stored_path_resolved.
  assert (Hg : startsWith (resolve cwd [path]) (safeBase uid) = true)
    by apply path_guard_passes.
  unfold upload_callback, try_catch. rewrite Hg. cbn [negb]. rewrite Hr.
  unfold bind at 1. unfold extractSchema, bind at 1, readFileSync.
  assert (Hread : read_file path (files w1) = Some (content f))
    by apply read_file_written.
  rewrite Hread. unfold ret. fold columns.
  destruct (no_valid_headers columns); [reflexivity|].
  unfold bind.
  destruct (insert_dataset e uid path (originalname f)
              (Some (JSON_stringify (schema_object columns))) w1)
    as [[id|r|err] w2] eqn:E; try reflexivity.
  exfalso. unfold insert_dataset in E.
  destruct (negb (store_writes e)); [discriminate|].
  destruct (negb (user_exists (db w1) uid)); discriminate.
Qed.

End Upload.

(** ** Upload: sandbox, schema extraction, failed uploads *)

Lemma insert_dataset_files `{RT : Runtime} e uid path name sj w c w' :
  insert_dataset e uid path name sj w = (c, w') -> files w' = files w.
Proof.
  unfold insert_dataset.
  destruct (negb (store_writes e)); [intros E; injection E as <- <-; reflexivity|].
  destruct (negb (user_exists (db w) uid));
    intros E; injection E as <- <-; reflexivity.
Qed.

Lemma insert_dataset_refused `{RT : Runtime} e uid path name sj w :
  store_writes e = false \/ user_exists (db w) uid = false ->
  insert_dataset e uid path name sj w = (Thrown SqliteError, w).
Proof.
  unfold insert_dataset. intros [H|H]; rewrite H; cbn [negb]; [reflexivity|].
  destruct (negb (store_writes e)); reflexivity.
Qed.

(** An accepted file is on disk at its stored path when the request
    ends, whatever the outcome. *)
Lemma upload_accepted_files `{RT : Runtime} e uid f w :
  Path.isAbsolute dirname = true ->
  fileFilter f = true -> size f <= fileSize_limit ->
  files (snd (run (upload e uid (Some f)) w))
  = (stored_path e uid f, content f)
      :: remove_file (stored_path e uid f) (files w).
Proof.
  intros Habs Hf Hs. rewrite upload_accepted by assumption.
  destruct (no_valid_headers _); [reflexivity|].
  destruct (insert_dataset _ _ _ _ _ _) as [c w2] eqn:E.
  apply insert_dataset_files in E.
  destruct c; simpl; rewrite E; reflexivity.
Qed.

(** What an upload leaves on disk: the old files, and at most the
    accepted file at its stored path. *)
Lemma upload_files `{RT : Runtime} e uid part w :
  Path.isAbsolute dirname = true ->
  files (snd (run (upload e uid part) w)) = files w
  \/ exists f, part = Some f
                /\ files (snd (run (upload e uid part) w))
                   = (stored_path e uid f, content f)
                       :: remove_file (stored_path e uid f) (files w).
Proof.
  intros Habs. destruct part as [f|]; [|left; reflexivity].
  destruct (fileFilter f) eqn:Hf.
  2:{ left. unfold run, upload, upload_single. rewrite Hf. reflexivity. }
  destruct (fileSize_limit <? size f) eqn:Hs.
  { left. unfold run, upload, upload_single. rewrite Hf, Hs. reflexivity. }
  apply Z.ltb_ge in Hs. right. exists f. split; auto.
  apply upload_accepted_files; assumption.
Qed.

(** C2: for every upload, whatever the declared original filename, a
    file the request leaves on disk that was not there before lies
    below the user's upload directory; an accepted file is stored under
    [<timestamp>_<sanitised name>], a name made of allow-listed code
    units only, directly inside that directory, so its resolved path
    is a descendant of the sandbox root and the path guard holds. *)
Theorem upload_confined_to_sandbox `{RT : Runtime} e uid part w :
  Path.isAbsolute dirname = true ->
  (forall p c,
      In (p, c) (files (snd (run (upload e uid part) w))) ->
      In (p, c) (files w)
      \/ Path.descendant (Path.resolve cwd [p]) (safeBase uid) = true)
  /\ (forall f,
        part = Some f -> fileFilter f = true -> size f <= fileSize_limit ->
        Path.resolve cwd [stored_path e uid f]
        = safeBase uid ++ Path.slash :: uniqueName e (originalname f)
        /\ Forall (fun c => allowed_unit c = true)
                  (uniqueName e (originalname f))
        /\ Path.descendant (Path.resolve cwd [stored_path e uid f])
                           (safeBase uid) = true
        /\ startsWith (Path.resolve cwd [stored_path e uid f])
                      (safeBase uid) = true
        /\ read_file (stored_path e uid f)
                     (files (snd (run (upload e uid part) w)))
           = Some (content f)).
Proof.
  intros Habs. split.
  - intros p c Hin.
    destruct (upload_files e uid part w Habs) as [E|(f & _ & E)];
      rewrite E in Hin; [left; exact Hin|].
    destruct Hin as [Hin|Hin].
    + injection Hin as <- <-. right. apply stored_path_descendant, Habs.
    + left. eapply in_remove_file; eauto.
  - intros f -> Hf Hs. repeat split.
    + rewrite stored_path_resolved by assumption.
      apply stored_path_child, Habs.
    + apply uniqueName_allowed.
    + apply stored_path_descendant, Habs.
    + apply path_guard_passes, Habs.
    + rewrite upload_accepted_files by assumption.
      simpl. rewrite str_eqb_refl. reflexivity.
Qed.

Lemma upload_confined_to_sandbox_witness :
  Path.isAbsolute (@dirname Sample.runtime) = true
  /\ Path.resolve (@cwd Sample.runtime)
       [@stored_path Sample.runtime (Sample.quiet 2) 1 Scenario.evil_csv]
     = lit "/srv/dataweb/backend/uploads/user_1/2000_.._.._evil.csv"
  /\ Path.descendant
       (Path.resolve (@cwd Sample.runtime)
          [@stored_path Sample.runtime (Sample.quiet 2) 1 Scenario.evil_csv])
       (@safeBase Sample.runtime 1) = true.
Proof.
  split; [reflexivity|].
  destruct (@upload_confined_to_sandbox Sample.runtime (Sample.quiet 2) 1
              (Some Scenario.evil_csv) Scenario.registered eq_refl)
    as [_ H].
  destruct (H Scenario.evil_csv eq_refl eq_refl ltac:(vm_compute; discriminate))
    as (H1 & _ & H3 & _).
  split; [rewrite H1; vm_compute; reflexivity|exact H3].
Defined.


(** When an accepted upload fails after the file is written -- the
    header line yields no usable first column, or the metadata insert
    is refused -- the caller gets an error (400 for the header, 500 for
    the insert) and the store is unchanged, but the file is still on
    disk at its stored path: neither path of the route removes it. *)
Lemma failed_upload_keeps_file `{RT : Runtime} e uid f w :
  Path.isAbsolute dirname = true ->
  fileFilter f = true -> size f <= fileSize_limit ->
  no_valid_headers (header_columns (content f)) = true
  \/ store_writes e = false \/ user_exists (db w) uid = false ->
  fst (run (upload e uid (Some f)) w)
  = (if no_valid_headers (header_columns (content f))
     then {| status := 400; body := PError "CSV has no valid column headers" |}
     else {| status := 500; body := PError "Failed to process upload" |})
  /\ db (snd (run (upload e uid (Some f)) w)) = db w
  /\ read_file (stored_path e uid f)
               (files (snd (run (upload e uid (Some f)) w)))
     = Some (content f).
Proof.
  intros Habs Hf Hs Hfail.
  split; [|split].
  - rewrite upload_accepted by assumption.
    destruct (no_valid_headers _) eqn:Hh; [reflexivity|].
    rewrite insert_dataset_refused; [reflexivity|].
    destruct Hfail as [H|H]; [discriminate|exact H].
  - rewrite upload_accepted by assumption.
    destruct (no_valid_headers _) eqn:Hh; [reflexivity|].
    rewrite insert_dataset_refused; [reflexivity|].
    destruct Hfail as [H|H]; [discriminate|exact H].
  - rewrite upload_accepted_files by assumption.
    simpl. rewrite str_eqb_refl. reflexivity.
Qed.

(** C3, on the code: an upload whose first line is empty is refused
    with status 400 and no Dataset row is written, yet the file the
    request wrote is still on disk when the request is over; the
    route removes a file only on its path-guard branch. *)
Theorem failed_upload_file_not_deleted :
  let r := run (@upload Sample.runtime (Sample.quiet 7) 1
                  (Some Scenario.headerless_csv)) Scenario.registered in
  status (fst r) = 400
  /\ datasets (db (snd r)) = []
  /\ files Scenario.registered = []
  /\ files (snd r)
     = [(lit "/srv/dataweb/backend/uploads/user_1/7000_empty.csv",
         content Scenario.headerless_csv)].
Proof. vm_compute. repeat split; reflexivity. Qed.


(** ** Reasoning about handlers *)

Section Post.

Context `{RT : Runtime}.

Lemma post_bind {A B} (m : handler A) (k : A -> handler B) w Q :
  post m w (fun c w' =>
              match c with
              | Done a => post (k a) w' Q
              | Sent r => Q (Sent r) w'
              | Thrown e => Q (Thrown e) w'
              end) ->
  post (bind m k) w Q.
Proof.
  unfold post, bind. destruct (m w) as [[a|r|e] w']; simpl; auto.
Qed.

Lemma post_try {A} (body : handler A) (h : js_error -> handler A) w Q :
  post body w (fun c w' =>
                 match c with
                 | Thrown e => post (h e) w' Q
                 | Done a => Q (Done a) w'
                 | Sent r => Q (Sent r) w'
                 end) ->
  post (try_catch body h) w Q.
Proof.
  unfold post, try_catch. destruct (body w) as [[a|r|e] w']; simpl; auto.
Qed.

Lemma post_send {A} st p w (Q : completion A -> world -> Prop) :
  Q (Sent {| status := st; body := p |}) w -> post (send st p) w Q.
Proof. auto. Qed.

Lemma post_ret {A} (a : A) w Q : Q (Done a) w -> post (ret a) w Q.
Proof. auto. Qed.

Lemma post_throw {A} e w (Q : completion A -> world -> Prop) :
  Q (Thrown e) w -> post (throw e) w Q.
Proof. auto. Qed.

Lemma post_of_option {A} (o : option A) e w Q :
  (forall a, o = Some a -> Q (Done a) w) ->
  (o = None -> Q (Thrown e) w) ->
  post (of_option o e) w Q.
Proof. destruct o; unfold post; simpl; auto. Qed.

Lemma post_sql_select {A} e (q : database -> A) w Q :
  (store_reads e = true -> Q (Done (q (db w))) w) ->
  (store_reads e = false -> Q (Thrown SqliteError) w) ->
  post (sql_select e q) w Q.
Proof. unfold post, sql_select. destruct (store_reads e); simpl; auto. Qed.

Lemma post_insert_user e name hash w Q :
  (store_writes e = true ->
   Q (Done (seq_users (db w) + 1))
     (with_db w (push_user (db w) name hash (now_s e)))) ->
  Q (Thrown SqliteError) w ->
  post (insert_user e name hash) w Q.
Proof.
  unfold post, insert_user. destruct (store_writes e); simpl; auto.
  destruct (existsb _ _); simpl; auto.
Qed.

Lemma post_insert_dataset e uid path name sj w Q :
  (store_writes e = true -> user_exists (db w) uid = true ->
   Q (Done (seq_datasets (db w) + 1))
     (with_db w (push_dataset (db w) uid path name sj (now_s e)))) ->
  Q (Thrown SqliteError) w ->
  post (insert_dataset e uid path name sj) w Q.
Proof.
  unfold post, insert_dataset. destruct (store_writes e); simpl; auto.
  destruct (user_exists _ _); simpl; auto.
Qed.

Lemma post_insert_chat e uid dsid q resp code w Q :
  (store_writes e = true -> user_exists (db w) uid = true ->
   dataset_exists (db w) dsid = true ->
   Q (Done (seq_chat_history (db w) + 1))
     (with_db w (push_chat (db w) uid dsid q resp code (now_s e)))) ->
  (store_writes e = false \/ user_exists (db w) uid = false
   \/ dataset_exists (db w) dsid = false ->
   Q (Thrown SqliteError) w) ->
  post (insert_chat e uid dsid q resp code) w Q.
Proof.
  unfold post, insert_chat. destruct (store_writes e); simpl; auto.
  destruct (user_exists _ _); simpl; auto.
  destruct (dataset_exists _ _); simpl; auto.
Qed.

Lemma post_axios_post e rq w Q :
  (forall data, analyze e rq = AxiosResolved data ->
                Q (Done data) (record_call w rq)) ->
  (forall code, analyze e rq = AxiosRejected code ->
                Q (Thrown (JsError code)) (record_call w rq)) ->
  post (axios_post e rq) w Q.
Proof.
  unfold post, axios_post. destruct (analyze e rq); simpl; auto.
Qed.

(** *** Parameters *)

Lemma bind_values_length n args ps :
  bind_values n args = Some ps -> List.length ps = n.
Proof.
  unfold bind_values. destruct (bind_arguments false args) as [qs|];
    [|discriminate].
  destruct (Nat.eqb_spec (List.length qs) n); [|discriminate].
  intros E; injection E as <-. assumption.
Qed.

(** An argument that gives one parameter is a single value or an
    array of one. *)
Lemma bind_value_cases v p :
  bind_value v = Some p <->
  bind_scalar v = Some p \/ exists x, v = JArr [x] /\ bind_scalar x = Some p.
Proof.
  unfold bind_value, bind_values. cbn [bind_arguments].
  destruct v as [| |b|z|t|items|props]; cbn [bind_scalar List.length Nat.eqb];
    try (split; [intros E; left; exact E
                |intros [E|(x & E & _)]; [exact E|discriminate]]).
  - destruct items as [|x [|y r]]; cbn [bind_array].
    + split; [discriminate|intros [E|(x & E & _)]; discriminate].
    + destruct (bind_scalar x) as [q|] eqn:Ex; cbn [app List.length Nat.eqb].
      * split.
        -- intros E. right. exists x. split; [reflexivity|congruence].
        -- intros [E|(x' & E & H)]; [discriminate|].
           injection E as <-. congruence.
      * split; [discriminate|].
        intros [E|(x' & E & H)]; [discriminate|].
        injection E as <-. congruence.
    + split.
      * destruct (bind_scalar x), (bind_scalar y), (bind_array r);
          cbn [app List.length Nat.eqb]; discriminate.
      * intros [E|(x' & E & _)]; discriminate.
Qed.

(** Such an argument gives its parameter wherever it stands. *)
Lemma bind_arguments_value flag v p rest :
  bind_value v = Some p ->
  bind_arguments flag (v :: rest)
  = option_map (cons p) (bind_arguments flag rest).
Proof.
  intros H. apply bind_value_cases in H as [H|(x & -> & H)].
  - destruct v; try discriminate; cbn [bind_arguments];
      rewrite H; destruct (bind_arguments flag rest); reflexivity.
  - cbn [bind_arguments bind_array]. rewrite H.
    destruct (bind_arguments flag rest); reflexivity.
Qed.

(** The parameters of the chat route's INSERT: the caller, the
    dataset and the question, then whatever the last two arguments
    give, which must be two values. *)
Lemma bind_chat_arguments uid i p q a c :
  bind_value i = Some p ->
  bind_values 5 [JNum uid; i; JStr q; a; c]
  = match bind_values 2 [a; c] with
    | Some [pa; pc] => Some [SqlInt uid; p; SqlText q; pa; pc]
    | _ => None
    end.
Proof.
  intros H. unfold bind_values.
  change (bind_arguments false [JNum uid; i; JStr q; a; c])
    with (option_map (cons (SqlInt uid))
                     (bind_arguments false [i; JStr q; a; c])).
  rewrite (@bind_arguments_value false i p [JStr q; a; c] H).
  change (bind_arguments false [JStr q; a; c])
    with (option_map (cons (SqlText q)) (bind_arguments false [a; c])).
  destruct (bind_arguments false [a; c]) as [[|pa [|pc [|x r]]]|];
    reflexivity.
Qed.

(** The parameters of the registration route's INSERT. *)
Lemma bind_user_arguments v p h :
  bind_value v = Some p ->
  bind_values 2 [v; JStr h] = Some [p; SqlText h].
Proof.
  intros H. unfold bind_values.
  rewrite (@bind_arguments_value false v p [JStr h] H). reflexivity.
Qed.

Lemma post_bcrypt_argument password w Q :
  (forall s, password = JStr s -> Q (Done s) w) ->
  ((forall s, password <> JStr s) -> Q (Thrown (JsError None)) w) ->
  post (bcrypt_argument password) w Q.
Proof.
  intros H1 H2. unfold post.
  destruct password; simpl; try (apply H2; intros s; discriminate).
  apply H1. reflexivity.
Qed.

Lemma post_run_insert_user e args w Q :
  (forall p_name p_hash name hash,
      bind_values 2 args = Some [p_name; p_hash] ->
      text_column p_name = Some name -> text_column p_hash = Some hash ->
      store_writes e = true ->
      Q (Done (seq_users (db w) + 1))
        (with_db w (push_user (db w) name hash (now_s e)))) ->
  Q (Thrown TypeError) w -> Q (Thrown SqliteError) w ->
  post (run_insert_user e args) w Q.
Proof.
  intros Hok Hty Hsql. unfold run_insert_user.
  apply post_bind, post_of_option; [intros ps Hps|intros _; apply Hty].
  pose proof (bind_values_length _ _ Hps) as Hl.
  destruct ps as [|p1 [|p2 [|x r]]]; try discriminate.
  apply post_bind, post_of_option; [intros name Hn|intros _; apply Hsql].
  apply post_bind, post_of_option; [intros hash Hh|intros _; apply Hsql].
  apply post_insert_user; [intros Hw|apply Hsql].
  eapply Hok; eassumption.
Qed.

(** The INSERT of the chat route either appends the row its
    parameters make or throws and leaves the world alone. *)
Lemma post_run_insert_chat e args w Q :
  (forall pu pd pq pr pc uid dsid query,
      bind_values 5 args = Some [pu; pd; pq; pr; pc] ->
      integer_key pu = Some uid -> integer_key pd = Some dsid ->
      text_column pq = Some query ->
      store_writes e = true -> user_exists (db w) uid = true ->
      dataset_exists (db w) dsid = true ->
      Q (Done (seq_chat_history (db w) + 1))
        (with_db w (push_chat (db w) uid dsid query (text_column pr)
                              (text_column pc) (now_s e)))) ->
  (forall err,
      err = TypeError \/ err = SqliteError ->
      (forall pu pd pq pr pc uid dsid,
          bind_values 5 args = Some [pu; pd; pq; pr; pc] ->
          integer_key pu = Some uid -> integer_key pd = Some dsid ->
          text_column pq = None \/ store_writes e = false
          \/ user_exists (db w) uid = false
          \/ dataset_exists (db w) dsid = false) ->
      Q (Thrown err) w) ->
  post (run_insert_chat e args) w Q.
Proof.
  intros Hok Hno. unfold run_insert_chat.
  apply post_bind, post_of_option;
    [intros ps Hps|intros E; apply Hno; [auto|intros; congruence]].
  pose proof (bind_values_length _ _ Hps) as Hl.
  destruct ps as [|pu [|pd [|pq [|pr [|pc [|x r]]]]]]; try discriminate.
  apply post_bind, post_of_option;
    [intros uid Hu|intros E; apply Hno; [auto|intros; congruence]].
  apply post_bind. unfold integer_column. apply post_of_option;
    [intros dsid Hd|intros E; apply Hno; [auto|intros; congruence]].
  apply post_bind, post_of_option;
    [intros query Hq
    |intros E; apply Hno; [auto|intros; left; congruence]].
  apply post_insert_chat.
  - intros Hw Hx Hy. eapply Hok; eassumption.
  - intros H. apply Hno; [auto|]. intros. right.
    assert (uid0 = uid) by congruence. assert (dsid0 = dsid) by congruence.
    subst. exact H.
Qed.

Lemma post_run (h : handler response) w (P : response -> world -> Prop) :
  post h w (fun c w' => P (settle c) w') ->
  P (fst (run h w)) (snd (run h w)).
Proof. unfold post, run. destruct (h w); auto. Qed.

End Post.

(** One syntax-directed step through a handler. *)
Ltac wp_step :=
  lazymatch goal with
  | |- post (bind _ _) _ _ => apply post_bind
  | |- post (try_catch _ _) _ _ => apply post_try
  | |- post (send _ _) _ _ => apply post_send
  | |- post (ret _) _ _ => apply post_ret
  | |- post (throw _) _ _ => apply post_throw
  | |- post (of_option _ _) _ _ =>
      apply post_of_option; [intros ? ?|intros ?]
  | |- post (integer_column _) _ _ =>
      apply post_of_option; [intros ? ?|intros ?]
  | |- post (sql_select _ _) _ _ => apply post_sql_select; intros ?
  | |- post (insert_user _ _ _) _ _ =>
      apply post_insert_user; [intros ?|]
  | |- post (bcrypt_argument _) _ _ =>
      apply post_bcrypt_argument; [intros ? ?|intros ?]
  | |- post (run_insert_user _ _) _ _ =>
      apply post_run_insert_user; [intros ? ? ? ? ? ? ? ?| |]
  | |- post (run_insert_chat _ _) _ _ =>
      apply post_run_insert_chat;
      [intros ? ? ? ? ? ? ? ? ? ? ? ? ? ? ?
      |intros ? [->| ->] ?]
  | |- post (insert_dataset _ _ _ _ _) _ _ =>
      apply post_insert_dataset; [intros ? ?|]
  | |- post (insert_chat _ _ _ _ _ _) _ _ =>
      apply post_insert_chat; [intros ? ? ?|intros ?]
  | |- post (axios_post _ _) _ _ =>
      apply post_axios_post; [intros ? ?|intros ? ?]
  | |- post (if code_is ?err ?c then _ else _) _ _ =>
      let v := eval cbv in (code_is err c) in
      lazymatch v with
      | true => change (code_is err c) with true
      | false => change (code_is err c) with false
      | _ => destruct (code_is err c) eqn:?
      end
  | |- post (if ?b then _ else _) _ _ => destruct b eqn:?
  | |- post (match ?x with _ => _ end) _ _ => destruct x eqn:?
  end; cbn beta iota.

Ltac wp := repeat wp_step.

Section ChatOutcome.

Context `{RT : Runtime}.

Lemma find_dataset_some key uid d r :
  find_dataset key uid d = Some r ->
  In r (datasets d) /\ key = Some (ds_id r) /\ ds_user_id r = uid.
Proof.
  unfold find_dataset. intros H. apply find_some in H.
  destruct H as [Hin H]. apply andb_true_iff in H. destruct H as [H1 H2].
  apply Z.eqb_eq in H2. destruct key as [k|]; [|discriminate].
  apply Z.eqb_eq in H1. subst. auto.
Qed.

Lemma dataset_exists_in d r :
  In r (datasets d) -> dataset_exists d (ds_id r) = true.
Proof.
  intros H. apply existsb_exists. exists r. split; [exact H|apply Z.eqb_refl].
Qed.

(** What the parameters of the INSERT are, once the lookup has bound
    the dataset identifier. *)
Lemma chat_insert_params uid i p q a c pu pd pq pr pc :
  bind_value i = Some p ->
  bind_values 5 [JNum uid; i; JStr q; js_or a (JStr []); js_or c (JStr [])]
  = Some [pu; pd; pq; pr; pc] ->
  pu = SqlInt uid /\ pd = p /\ pq = SqlText q
  /\ logged_texts a c = Some (text_column pr, text_column pc).
Proof.
  intros Hb. rewrite (@bind_chat_arguments uid i p q _ _ Hb). unfold logged_texts.
  destruct (bind_values 2 _) as [[|pa [|pb [|x r]]]|]; try discriminate.
  intros E. injection E as <- <- <- <- <-. auto.
Qed.

Lemma chat_insert_unbound uid i p q a c :
  bind_value i = Some p ->
  bind_values 5 [JNum uid; i; JStr q; js_or a (JStr []); js_or c (JStr [])]
  = None ->
  logged_texts a c = None.
Proof.
  intros Hb. rewrite (@bind_chat_arguments uid i p q _ _ Hb). unfold logged_texts.
  destruct (bind_values 2 _) as [[|pa [|pb [|x r]]]|];
    try discriminate; reflexivity.
Qed.

(** Why the INSERT can fail after the lookup found the dataset. *)
Lemma chat_insert_failure e uid i p q a c d (dbw : database) :
  bind_value i = Some p -> integer_key p = Some (ds_id d) ->
  In d (datasets dbw) ->
  (forall pu pd pq pr pc uid0 dsid,
      bind_values 5 [JNum uid; i; JStr q; js_or a (JStr []);
                     js_or c (JStr [])]
      = Some [pu; pd; pq; pr; pc] ->
      integer_key pu = Some uid0 -> integer_key pd = Some dsid ->
      text_column pq = None \/ store_writes e = false
      \/ user_exists dbw uid0 = false
      \/ dataset_exists dbw dsid = false) ->
  logged_texts a c = None \/ store_writes e = false
  \/ user_exists dbw uid = false.
Proof.
  intros Hb Hk Hin Hf.
  destruct (bind_values 5 [JNum uid; i; JStr q; js_or a (JStr []);
                           js_or c (JStr [])]) as [ps|] eqn:Eb;
    [|left; eapply chat_insert_unbound; eassumption].
  pose proof (bind_values_length _ _ Eb) as Hl.
  destruct ps as [|pu [|pd [|pq [|pr [|pc [|x r]]]]]]; try discriminate.
  pose proof Eb as Hp. eapply chat_insert_params in Hp; [|exact Hb].
  destruct Hp as (-> & -> & -> & _).
  destruct (Hf _ _ _ _ _ uid (ds_id d) eq_refl eq_refl Hk)
    as [E|[E|[E|E]]]; auto.
  - discriminate.
  - rewrite (@dataset_exists_in dbw d Hin) in E. discriminate.
Qed.

Lemma chat_run e uid i q c w :
  chat_outcome e uid i q c w
    (fst (run (chat e uid i q c) w)) (snd (run (chat e uid i q c) w)).
Proof.
  apply post_run. unfold chat. wp; cbn [settle].
  all: try (apply chat_rejected; simpl; tauto).
  all: try match goal with
           | H : find_dataset _ _ _ = Some _ |- _ =>
               pose proof (find_dataset_some _ _ _ H) as (Hin & Hkey & Hown)
           end.
  all: try match goal with
           | H : analyze _ _ = AxiosRejected ?code
             |- chat_outcome _ _ _ _ _ _ ?r _ =>
               replace r with (upstream_failure code)
                 by (unfold upstream_failure;
                     repeat match goal with
                            | E : code_is _ _ = _ |- _ => rewrite E
                            end; reflexivity);
               eapply chat_upstream_error; eauto
           end.
  all: try (eapply chat_late_fault; eauto; left; assumption).
  1:{ match goal with
    | Hb : bind_value i = Some _, Hp : bind_values 5 _ = Some _ |- _ =>
        pose proof Hp as Hl; eapply chat_insert_params in Hl; [|exact Hb];
        destruct Hl as (-> & -> & -> & Hl)
    end.
    match goal with
    | E : integer_key (SqlInt uid) = Some ?k |- _ =>
        injection E as E; subst k
    end.
    match goal with
    | E : text_column (SqlText s) = Some ?k |- _ =>
        injection E as E; subst k
    end.
    match goal with
    | E : integer_key _ = Some dsid |- _ =>
        assert (dsid = ds_id d) by congruence; subst dsid
    end.
    change (db (record_call w ?x)) with (db w).
    eapply chat_answered; eauto. }
  all: eapply chat_late_fault; eauto; right;
    eapply chat_insert_failure; eauto.
Qed.

End ChatOutcome.

(** ** The tables along a run of the server *)

Section Invariants.

Context `{RT : Runtime}.

Lemma chat_db_step e uid i q c w :
  db_step (db w) (db (snd (run (chat e uid i q c) w))).
Proof.
  destruct (chat_run e uid i q c w); try apply step_same.
  match goal with
  | H : find_dataset _ _ _ = Some _ |- _ =>
      destruct (find_dataset_some _ _ _ H) as (Hin & _ & <-)
  end.
  cbn [db with_db]. apply step_chat; assumption.
Qed.

Lemma register_db_step e u p w :
  db_step (db w) (db (snd (run (register e u p) w))).
Proof.
  apply (post_run _ _ (fun _ w' => db_step (db w) (db w'))).
  unfold register. wp; cbn [db with_db]; constructor.
Qed.

Lemma unchanged_db_step w w' : db w' = db w -> db_step (db w) (db w').
Proof. intros ->. constructor. Qed.

Lemma login_db e u p w : db (snd (run (login e u p) w)) = db w.
Proof.
  apply (post_run _ _ (fun _ w' => db w' = db w)).
  unfold login. wp; reflexivity.
Qed.

Lemma list_datasets_db e uid w :
  db (snd (run (list_datasets e uid) w)) = db w.
Proof.
  apply (post_run _ _ (fun _ w' => db w' = db w)).
  unfold list_datasets. wp; reflexivity.
Qed.

Lemma history_db e uid i w : db (snd (run (history e uid i) w)) = db w.
Proof.
  apply (post_run _ _ (fun _ w' => db w' = db w)).
  unfold history. wp; reflexivity.
Qed.

Lemma health_db e w : db (snd (run (health e) w)) = db w.
Proof.
  apply (post_run _ _ (fun _ w' => db w' = db w)).
  unfold health, axios_get_health. wp; reflexivity.
Qed.

Lemma post_unlinkSync p w (Q : completion unit -> world -> Prop) :
  (forall w', db w' = db w -> Q (Done tt) w') ->
  Q (Thrown (JsError (Some "ENOENT"%string))) w ->
  post (unlinkSync p) w Q.
Proof.
  unfold post, unlinkSync. destruct (read_file p (files w)); simpl; auto.
Qed.

Lemma post_extractSchema p w (Q : completion (list jsstring) -> world -> Prop) :
  (forall text, read_file p (files w) = Some text ->
                Q (Done (header_columns text)) w) ->
  (read_file p (files w) = None ->
   Q (Thrown (JsError (Some "ENOENT"%string))) w) ->
  post (extractSchema p) w Q.
Proof.
  unfold post, extractSchema, bind, readFileSync, ret.
  destruct (read_file p (files w)); simpl; auto.
Qed.

Lemma upload_callback_db_step e uid r w0 w :
  db w = db w0 ->
  db_step (db w0)
          (db (snd (run (upload_callback e uid r) w))).
Proof.
  intros Hdb.
  apply (post_run _ _ (fun _ w' => db_step (db w0) (db w'))).
  rewrite <- Hdb. clear Hdb w0.
  unfold upload_callback. destruct r; wp; try constructor.
  - apply post_unlinkSync; [intros w' Hw'|]; wp.
    + rewrite Hw'; constructor.
    + constructor.
  - apply post_extractSchema; [intros text Ht|intros Ht]; wp;
      cbn [db with_db]; try constructor; assumption.
Qed.

Lemma upload_db_step e uid part w :
  db_step (db w) (db (snd (run (upload e uid part) w))).
Proof.
  unfold run at 1, upload.
  destruct (upload_single e uid part w) as [r w1] eqn:E.
  assert (Hdb : db w1 = db w).
  { unfold upload_single in E. destruct part as [f|].
    - destruct (negb (fileFilter f)); [injection E as <- <-; reflexivity|].
      destruct (fileSize_limit <? size f); injection E as <- <-; reflexivity.
    - injection E as <- <-; reflexivity. }
  pose proof (upload_callback_db_step e uid r w w1 Hdb) as H.
  unfold run in H.
  destruct (upload_callback e uid r w1). exact H.
Qed.

(** Every request changes the tables by at most one appended row. *)
Lemma serve_db_step e rq w : db_step (db w) (db (snd (serve e rq w))).
Proof.
  unfold serve. destruct rq; cbn [route].
  - apply register_db_step.
  - apply unchanged_db_step, login_db.
  - apply upload_db_step.
  - apply unchanged_db_step, list_datasets_db.
  - apply chat_db_step.
  - apply unchanged_db_step, history_db.
  - apply unchanged_db_step, health_db.
Qed.

Lemma user_exists_push_user d name hash now uid :
  user_exists d uid = true ->
  user_exists (push_user d name hash now) uid = true.
Proof.
  unfold user_exists, push_user; cbn [users]. rewrite existsb_app.
  intros ->. reflexivity.
Qed.

Lemma db_step_wf d d' : db_wf d -> db_step d d' -> db_wf d'.
Proof.
  intros (Hnd & Hle & Hus & Hch) Hstep.
  destruct Hstep as [|name hash now|uid path name sj now Hu
                     |r q resp code now Hin].
  - repeat split; assumption.
  - repeat split; cbn [datasets chat_history seq_datasets push_user];
      try assumption.
    eapply Forall_impl; [|exact Hus].
    intros a Ha. apply user_exists_push_user, Ha.
  - unfold db_wf. cbn [datasets chat_history seq_datasets push_dataset].
    repeat split.
    + rewrite map_app. cbn [map ds_id].
      apply Permutation_NoDup
        with (l := seq_datasets d + 1 :: map ds_id (datasets d));
        [apply Permutation_cons_append|].
      constructor; [|exact Hnd].
      rewrite in_map_iff. intros (x & Hx & Hin).
      rewrite Forall_forall in Hle. specialize (Hle x Hin). lia.
    + apply Forall_app; split.
      * eapply Forall_impl; [|exact Hle]. simpl; intros; lia.
      * constructor; [simpl; lia|constructor].
    + apply Forall_app; split; [exact Hus|].
      constructor; [exact Hu|constructor].
    + eapply Forall_impl; [|exact Hch].
      intros ch (x & Hx & H1 & H2). exists x.
      repeat split; auto. apply in_or_app; left; exact Hx.
  - unfold db_wf. cbn [datasets chat_history seq_datasets push_chat].
    repeat split; try assumption.
    apply Forall_app; split; [exact Hch|].
    constructor; [|constructor]. exists r. simpl. auto.
Qed.

Lemma reachable_wf w : reachable w -> db_wf (db w).
Proof.
  induction 1 as [|w e rq _ IH].
  - repeat split; simpl; constructor.
  - eapply db_step_wf; [exact IH|apply serve_db_step].
Qed.

End Invariants.

(** ** The chat route *)

Section ChatFacts.

Context `{RT : Runtime}.


Lemma well_formed_chat_inv i q :
  well_formed_chat i q = true ->
  exists qs, q = JStr qs
             /\ negb (truthy i) || negb (truthy (JStr qs)) = false
             /\ (len (trim qs) =? 0) = false
             /\ (500 <? len qs) = false.
Proof.
  unfold well_formed_chat. destruct q as [| | | |qs| |]; try discriminate.
  intros H. exists qs.
  apply andb_true_iff in H as [H H4]. apply andb_true_iff in H as [H H3].
  apply andb_true_iff in H as [H1 H2].
  rewrite H1, H2. apply negb_true_iff in H3, H4. auto.
Qed.

(** A well-formed request for an identifier the caller owns no
    dataset under: 404, and nothing happens. *)
Lemma chat_not_found e uid i q c p w :
  well_formed_chat i q = true -> bind_value i = Some p ->
  store_reads e = true ->
  find_dataset (integer_key p) uid (db w) = None ->
  run (chat e uid i q c) w
  = ({| status := 404; body := PError "Dataset not found" |}, w).
Proof.
  intros Hwf Hb Hr Hf.
  destruct (well_formed_chat_inv _ _ Hwf) as (qs & -> & H1 & H2 & H3).
  unfold run, chat, try_catch, bind, of_option, sql_select, send, ret.
  rewrite H1, H2, H3, Hb, Hr, Hf. reflexivity.
Qed.

(** A well-formed request for a dataset of the caller whose schema
    document does not decode: the [catch] answers 500. *)
Lemma chat_schema_undecodable e uid i q c p d w :
  well_formed_chat i q = true -> bind_value i = Some p ->
  store_reads e = true ->
  find_dataset (integer_key p) uid (db w) = Some d ->
  parse_column (ds_schema_json d) = None ->
  run (chat e uid i q c) w
  = ({| status := 500; body := PError "Internal server error" |}, w).
Proof.
  intros Hwf Hb Hr Hf Hp.
  destruct (well_formed_chat_inv _ _ Hwf) as (qs & -> & H1 & H2 & H3).
  unfold run, chat, try_catch, bind, of_option, sql_select, send, ret.
  rewrite H1, H2, H3, Hb, Hr, Hf, Hp. reflexivity.
Qed.

(** A decoded schema that is missing, has no [columns] array or has
    no column: 400 with the re-upload message, before any call. *)
Lemma chat_schema_invalid e uid i q c p d schema w :
  well_formed_chat i q = true -> bind_value i = Some p ->
  store_reads e = true ->
  find_dataset (integer_key p) uid (db w) = Some d ->
  parse_column (ds_schema_json d) = Some schema ->
  invalid_schema schema = true ->
  run (chat e uid i q c) w
  = ({| status := 400;
        body := PError "Dataset has invalid schema — re-upload the CSV" |},
     w).
Proof.
  intros Hwf Hb Hr Hf Hp Hi.
  destruct (well_formed_chat_inv _ _ Hwf) as (qs & -> & H1 & H2 & H3).
  unfold run, chat, try_catch, bind, of_option, sql_select, send, ret.
  rewrite H1, H2, H3, Hb, Hr, Hf, Hp, Hi. reflexivity.
Qed.

Lemma upstream_failure_status code : status (upstream_failure code) <> 200.
Proof.
  unfold upstream_failure.
  destruct (code_is _ _); [discriminate|].
  destruct (code_is _ _); discriminate.
Qed.

(** Status 200 means the request went all the way: the call
    resolved and the row was appended. *)
Lemma chat_status_200 e uid i q c w :
  status (fst (run (chat e uid i q c) w)) = 200 ->
  exists d qs schema data answer code,
    q = JStr qs /\ In d (datasets (db w)) /\ ds_user_id d = uid
    /\ analyze e (analysis_request d schema qs c) = AxiosResolved data
    /\ nullish data = false
    /\ logged_texts (get_prop data (lit "answer"))
                    (get_prop data (lit "code")) = Some (answer, code)
    /\ db (snd (run (chat e uid i q c) w))
       = push_chat (db w) uid (ds_id d) qs answer code (now_s e)
    /\ (forall p, bind_value i = Some p ->
                  integer_key p = Some (ds_id d)).
Proof.
  destruct (chat_run e uid i q c w); cbn [status]; intros E.
  - simpl in H. intuition (subst; discriminate).
  - exfalso. exact (upstream_failure_status _ E).
  - discriminate.
  - match goal with
    | H : find_dataset _ _ _ = Some _ |- _ =>
        destruct (find_dataset_some _ _ _ H) as (Hin & _ & Hown)
    end.
    subst q. do 6 eexists. repeat split; eauto.
    intros p' Hp'.
    match goal with
    | H : find_dataset _ _ _ = Some _ |- _ =>
        destruct (find_dataset_some _ _ _ H) as (_ & Hkey & _)
    end.
    congruence.
Qed.

End ChatFacts.

Section LoggedTexts.

Context `{RT : Runtime}.






End LoggedTexts.




(** C5, on the code: for a dataset the caller owns whose stored schema
    document cannot be decoded, the chat route answers with status 500
    and the generic message, not with the 400 re-upload signal; no call
    reaches the analysis service and no row is written. *)
Theorem chat_corrupted_schema_is_internal_error :
  run (@chat Sample.runtime (Sample.answering 3 Scenario.answer_only) 1
         (JNum 1) Scenario.how_many JUndefined) Scenario.corrupted
  = ({| status := 500; body := PError "Internal server error" |},
     Scenario.corrupted).
Proof. vm_compute. reflexivity. Qed.

(** C9, on the code: [answer || ''] lets an array through, and
    better-sqlite3 spreads an array argument over the parameters, so
    the analysis answer [[null]] is answered with status 200 and
    stored as NULL in [response]. *)
Theorem history_row_holds_null_for_array_answer :
  let e := Sample.answering 3 (JObj [(lit "answer", JArr [JNull])]) in
  let r := run (@chat Sample.runtime e 1 (JNum 1) Scenario.how_many
                      JUndefined) Scenario.uploaded in
  status (fst r) = 200
  /\ chat_history (db (snd r))
     = [{| ch_id := 1; ch_user_id := 1; ch_dataset_id := 1;
           ch_query := lit "how many rows?"; ch_response := None;
           ch_code := Some []; ch_created_at := 3 |}]
  /\ ~ answers_present (db (snd r)).
Proof.
  cbv zeta. split; [vm_compute; reflexivity|].
  split; [vm_compute; reflexivity|].
  intros H.
  assert (E : chat_history
                (db (snd (run (@chat Sample.runtime
                                 (Sample.answering 3
                                    (JObj [(lit "answer", JArr [JNull])]))
                                 1 (JNum 1) Scenario.how_many JUndefined)
                              Scenario.uploaded)))
              = [{| ch_id := 1; ch_user_id := 1; ch_dataset_id := 1;
                    ch_query := lit "how many rows?"; ch_response := None;
                    ch_code := Some []; ch_created_at := 3 |}])
    by (vm_compute; reflexivity).
  unfold answers_present in H. rewrite E in H.
  inversion H as [|? ? [Hr _] _]; subst. apply Hr. reflexivity.
Qed.


(** ** Login and the health probe *)

(** C8, on the code: the presence test lets any truthy value through,
    and bcryptjs rejects a password that is not a string; with the
    password [123456] sent as a number, a login for a registered name
    ends in the [catch] with status 500 while a login for an unknown
    name is answered 401: the two responses tell whether the user
    exists. *)
Theorem login_reveals_user_to_non_string_password :
  Scenario.registered
  = {| db := {| users := [{| user_id := 1; user_username := lit "alice";
                              user_password_hash := lit "salt$secret1";
                              user_created_at := 1 |}];
                datasets := []; chat_history := [];
                seq_users := 1; seq_datasets := 0; seq_chat_history := 0 |};
       files := []; analyze_calls := [] |}
  /\ present (JStr (lit "alice")) = true
  /\ present (JStr (lit "bob")) = true
  /\ present (JNum 123456) = true
  /\ run (@login Sample.runtime (Sample.quiet 5) (JStr (lit "alice"))
              (JNum 123456)) Scenario.registered
     = ({| status := 500; body := PError "Internal server error" |},
        Scenario.registered)
  /\ run (@login Sample.runtime (Sample.quiet 5) (JStr (lit "bob"))
              (JNum 123456)) Scenario.registered
     = ({| status := 401; body := PError "Invalid credentials" |},
        Scenario.registered).
Proof. vm_compute. repeat split; reflexivity. Qed.

(** C10: the health probe never throws and always answers with status
    200 and the three statuses; the overall status is [ok] exactly
    when the store check succeeds and [degraded] otherwise, whatever
    the analysis service does; the probe changes nothing. *)
Theorem health_probe_total `{RT : Runtime} e w :
  health e w
  = (Sent {| status := 200;
             body := PHealth (if store_reads e then "ok" else "degraded")
                             (if store_reads e then "connected" else "error")
                             (if python_health e then "connected"
                              else "unavailable")
                             (now_ms e) |}, w)
  /\ status (fst (run (health e) w)) = 200.
Proof.
  unfold run, health, try_catch, bind, sql_select, axios_get_health,
    send, ret, throw.
  destruct (store_reads e), (python_health e); split; reflexivity.
Qed.

(** ** Ordering *)

Section Ordering.

Variable A : Type.
Variable key : A -> Z.


Lemma insert_desc_perm x l : Permutation (insert_desc key x l) (x :: l).
Proof.
  induction l as [|y r IH]; simpl; [reflexivity|].
  destruct (key y <=? key x); [reflexivity|].
  rewrite IH. apply perm_swap.
Qed.

Lemma order_by_desc_perm l : Permutation (order_by_desc key l) l.
Proof.
  induction l as [|x r IH]; simpl; [reflexivity|].
  rewrite insert_desc_perm. constructor. exact IH.
Qed.

Lemma order_by_desc_length l :
  List.length (order_by_desc key l) = List.length l.
Proof. apply Permutation_length, order_by_desc_perm. Qed.

Lemma order_by_desc_in x l : In x (order_by_desc key l) <-> In x l.
Proof.
  split; apply Permutation_in;
    [|symmetry]; apply order_by_desc_perm.
Qed.

Lemma insert_desc_sorted x l :
  StronglySorted (descending key) l -> StronglySorted (descending key) (insert_desc key x l).
Proof.
  induction 1 as [|y r Hs IH Hall]; simpl.
  - constructor; constructor.
  - destruct (Z.leb_spec (key y) (key x)) as [Hle|Hgt].
    + constructor; [constructor; assumption|].
      constructor; [exact Hle|].
      eapply Forall_impl; [|exact Hall]. unfold descending. intros; lia.
    + constructor; [exact IH|].
      eapply Permutation_Forall; [symmetry; apply insert_desc_perm|].
      constructor; [unfold descending; lia|exact Hall].
Qed.

Lemma order_by_desc_sorted l : StronglySorted (descending key) (order_by_desc key l).
Proof.
  induction l as [|x r IH]; simpl; [constructor|].
  apply insert_desc_sorted, IH.
Qed.

Lemma firstn_sorted n l :
  StronglySorted (descending key) l -> StronglySorted (descending key) (firstn n l).
Proof.
  intros H. revert n. induction H as [|y r Hs IH Hall]; intros [|n]; simpl;
    try constructor; auto.
  rewrite Forall_forall in *. intros z Hz. apply Hall.
  eapply (In_nth_error) in Hz. destruct Hz as [k Hk].
  clear - Hk. revert k Hk. revert n.
  induction r as [|a r IH]; intros [|n] k; simpl; intros Hk;
    try (destruct k; discriminate).
  destruct k; simpl in Hk; [injection Hk as ->; left; reflexivity|].
  right. eapply IH; eauto.
Qed.

(** In a sorted list, nothing kept by [firstn] is older than
    anything dropped. *)
Lemma firstn_newest n l :
  StronglySorted (descending key) l ->
  forall a b, In a (firstn n l) -> In b (skipn n l) -> descending key a b.
Proof.
  intros H. revert n. induction H as [|y r Hs IH Hall]; intros [|n] a b;
    simpl; try tauto.
  intros [<-|Ha] Hb.
  - rewrite Forall_forall in Hall. apply Hall.
    rewrite <- (firstn_skipn n r). apply in_or_app; right; exact Hb.
  - eapply IH; eauto.
Qed.

End Ordering.

(** ** History and isolation *)

Section History.

Context `{RT : Runtime}.

Lemma in_firstn {A} n (l : list A) x : In x (firstn n l) -> In x l.
Proof.
  intros H. rewrite <- (firstn_skipn n l). apply in_or_app; left; exact H.
Qed.

Lemma key_is_true key x : key_is key x = true <-> key = Some x.
Proof.
  destruct key as [k|]; simpl; [|split; discriminate].
  rewrite Z.eqb_eq. split; [intros ->; reflexivity|intros E; injection E; auto].
Qed.

Lemma in_history_join uid only d ch r :
  In (ch, r) (history_join uid only d) ->
  In ch (chat_history d) /\ ch_user_id ch = uid
  /\ match only with
     | None => True
     | Some key => key = Some (ch_dataset_id ch)
     end
  /\ In r (datasets d) /\ ds_id r = ch_dataset_id ch.
Proof.
  unfold history_join. rewrite in_flat_map.
  intros (ch' & Hch & Hin).
  destruct (Z.eqb_spec (ch_user_id ch') uid) as [Hu|]; [|contradiction Hin].
  cbn [andb] in Hin.
  destruct (match only with None => true | Some key => _ end) eqn:Ho;
    [|contradiction Hin].
  apply in_map_iff in Hin as (r' & E & Hr). injection E as <- <-.
  apply filter_In in Hr as [Hr Hid]. apply Z.eqb_eq in Hid.
  repeat split; auto.
  destruct only as [key|]; [apply key_is_true, Ho|exact I].
Qed.

Lemma unique_dataset d a b :
  NoDup (map ds_id (datasets d)) ->
  In a (datasets d) -> In b (datasets d) -> ds_id a = ds_id b -> a = b.
Proof.
  induction (datasets d) as [|x l IH]; simpl; [tauto|].
  intros Hnd [->|Ha] [->|Hb] E; inversion Hnd; subst; auto.
  - exfalso. apply H1. rewrite E. apply in_map, Hb.
  - exfalso. apply H1. rewrite <- E. apply in_map, Ha.
Qed.

(** Every joined history row pairs a row of the reader with a
    dataset the reader owns. *)
Lemma history_join_owner uid only d ch r :
  db_wf d -> In (ch, r) (history_join uid only d) -> ds_user_id r = uid.
Proof.
  intros (Hnd & _ & _ & Hch) Hin.
  apply in_history_join in Hin as (Hc & Hu & _ & Hr & Hid).
  rewrite Forall_forall in Hch.
  destruct (Hch ch Hc) as (r' & Hr' & Hid' & Hown).
  assert (r = r') by (eapply unique_dataset; eauto; congruence).
  subst r'. congruence.
Qed.

Lemma history_join_length uid k only d :
  db_wf d -> only = None \/ only = Some (Some k) ->
  (List.length (rows_about uid k d)
   <= List.length (history_join uid only d))%nat.
Proof.
  intros (_ & _ & _ & Hch) Ho. unfold rows_about, history_join.
  induction Hch as [|ch l (r & Hr & Hid & _) _ IH]; simpl; [lia|].
  rewrite length_app.
  destruct (Z.eqb_spec (ch_user_id ch) uid) as [Hu|]; cbn [andb];
    [|simpl; lia].
  destruct (Z.eqb_spec (ch_dataset_id ch) k) as [Hk|]; cbn [andb];
    [|lia].
  assert (Hc : match only with
               | None => true
               | Some key => key_is key (ch_dataset_id ch)
               end = true).
  { destruct Ho as [->| ->]; [reflexivity|]. simpl. apply Z.eqb_eq; auto. }
  rewrite Hc, length_map.
  assert (In r (filter (fun r0 => ch_dataset_id ch =? ds_id r0) (datasets d)))
    by (apply filter_In; split; [exact Hr|apply Z.eqb_eq; auto]).
  destruct (filter _ (datasets d)); [contradiction|]. simpl. lia.
Qed.

Lemma rows_about_step uid k d d' :
  db_step d d' ->
  (List.length (rows_about uid k d) <= List.length (rows_about uid k d'))%nat.
Proof.
  unfold rows_about.
  destruct 1; cbn [chat_history push_user push_dataset push_chat]; try lia.
  rewrite filter_app, length_app. lia.
Qed.

Lemma rows_about_push uid k d q resp code now :
  List.length (rows_about uid k (push_chat d uid k q resp code now))
  = S (List.length (rows_about uid k d)).
Proof.
  unfold rows_about. cbn [chat_history push_chat].
  rewrite filter_app, length_app. simpl. rewrite !Z.eqb_refl. simpl. lia.
Qed.

Lemma after_queries_reachable uid k n w w' :
  after_queries uid k n w w' -> reachable w -> reachable w'.
Proof. induction 1; intros Hr; auto using reach_serve. Qed.

Lemma after_queries_count uid k n w w' :
  after_queries uid k n w w' ->
  (n + List.length (rows_about uid k (db w))
   <= List.length (rows_about uid k (db w')))%nat.
Proof.
  induction 1 as [w|n w w' e rq _ IH|n w w' e i q c p _ IH Hb Hk H200].
  - lia.
  - pose proof (rows_about_step uid k (serve_db_step e rq w')). lia.
  - unfold serve in *. cbn [route] in *.
    destruct (chat_status_200 e uid i q c w' H200)
      as (d & qs & schema & data & answer & code
          & _ & _ & _ & _ & _ & _ & Hdb & Hkey).
    specialize (Hkey p Hb).
    assert (ds_id d = k) by congruence. subst k.
    rewrite Hdb, rows_about_push. lia.
Qed.

(** What the history route answers while the store can be read. *)
Lemma history_run e uid i w :
  store_reads e = true ->
  (truthy i = false ->
   run (history e uid i) w
   = ({| status := 200; body := PHistory (history_rows uid None (db w)) |},
      w))
  /\ (forall p, truthy i = true -> bind_value i = Some p ->
                run (history e uid i) w
                = ({| status := 200;
                      body := PHistory (history_rows uid
                                          (Some (integer_key p)) (db w)) |},
                   w)).
Proof.
  intros Hr. unfold run, history, try_catch, bind, of_option, sql_select,
               send, ret.
  split.
  - intros ->. rewrite Hr. reflexivity.
  - intros p -> ->. rewrite Hr. reflexivity.
Qed.

Lemma history_run_rows e uid i w l :
  body (fst (run (history e uid i) w)) = PHistory l ->
  exists only, l = history_rows uid only (db w).
Proof.
  apply (post_run _ _
           (fun r _ => body r = PHistory l ->
                       exists only, l = history_rows uid only (db w))).
  unfold history. wp; cbn [settle body]; try discriminate;
    intros E; injection E as <-; eauto.
Qed.

Lemma parse_rows_views rows : forall vs,
  parse_rows rows = Some vs ->
  forall v, In v vs ->
            exists row, In row rows /\ dv_id v = ds_id row
                        /\ dv_original_name v = ds_original_name row.
Proof.
  induction rows as [|r rest IH]; simpl; intros vs E v Hv.
  - injection E as <-. contradiction.
  - destruct (parse_column (ds_schema_json r)); [|discriminate].
    destruct (parse_rows rest) as [vs'|]; [|discriminate].
    injection E as <-. destruct Hv as [<-|Hv].
    + exists r. simpl. auto.
    + destruct (IH vs' eq_refl v Hv) as (row & Hrow & H1 & H2).
      exists row. auto.
Qed.

Lemma list_datasets_views e uid w l :
  body (fst (run (list_datasets e uid) w)) = PDatasets l ->
  forall v, In v l ->
            exists row, In row (datasets (db w)) /\ ds_user_id row = uid
                        /\ dv_id v = ds_id row
                        /\ dv_original_name v = ds_original_name row.
Proof.
  apply (post_run _ _
           (fun r _ =>
              body r = PDatasets l ->
              forall v, In v l ->
                exists row, In row (datasets (db w)) /\ ds_user_id row = uid
                            /\ dv_id v = ds_id row
                            /\ dv_original_name v = ds_original_name row)).
  unfold list_datasets. wp; cbn [settle body]; try discriminate.
  intros E v Hv. injection E as <-.
  match goal with
  | H : parse_rows _ = Some _ |- _ =>
      destruct (parse_rows_views _ H v Hv) as (row & Hrow & H1 & H2)
  end.
  unfold datasets_of in Hrow. apply order_by_desc_in in Hrow.
  apply filter_In in Hrow as [Hrow Hu]. apply Z.eqb_eq in Hu.
  exists row. auto.
Qed.

(** Another user's identifier finds nothing. *)
Lemma foreign_dataset_not_found d dA B :
  db_wf d -> In dA (datasets d) -> ds_user_id dA <> B ->
  find_dataset (Some (ds_id dA)) B d = None.
Proof.
  intros (Hnd & _) Hin Hown.
  destruct (find_dataset (Some (ds_id dA)) B d) as [r|] eqn:E; [|reflexivity].
  apply find_dataset_some in E as (Hr & Hk & Hu). injection Hk as Hk.
  assert (dA = r) by (eapply unique_dataset; eauto). subst r. contradiction.
Qed.

(** A chat request that finds no dataset stops there. *)
Lemma chat_without_dataset e uid i q c p w :
  bind_value i = Some p ->
  find_dataset (integer_key p) uid (db w) = None ->
  snd (run (chat e uid i q c) w) = w
  /\ status (fst (run (chat e uid i q c) w)) <> 200.
Proof.
  intros Hb Hf. destruct (chat_run e uid i q c w); try congruence.
  split; [reflexivity|]. cbn [status]. simpl in H.
  intuition (subst; discriminate).
Qed.

(** The only call a chat request makes is about a dataset its caller
    owns. *)
Lemma chat_calls_own_dataset e uid i q c w :
  analyze_calls (snd (run (chat e uid i q c) w)) = analyze_calls w
  \/ exists d schema qs,
      In d (datasets (db w)) /\ ds_user_id d = uid
      /\ analyze_calls (snd (run (chat e uid i q c) w))
         = analyze_calls w ++ [analysis_request d schema qs c].
Proof.
  destruct (chat_run e uid i q c w); [left; reflexivity|right..];
    match goal with
    | H : find_dataset _ _ _ = Some _ |- _ =>
        destruct (find_dataset_some _ _ _ H) as (Hin & _ & Hown)
    end;
    do 3 eexists; repeat split; eauto.
Qed.

End History.

(** C6, on the code: the read sorts by [created_at] alone, which the
    store keeps to the second.  Six questions of one user about one
    dataset, each answered 200 within the same second, leave the rows
    1 to 6; the history read that follows, with or without the dataset
    filter, is answered 200 with the rows 1, 2, 3, 4, 5 in that order:
    oldest first, and the most recent row, 6, is left out. *)
Theorem history_misses_newest_within_a_second :
  @after_queries Sample.runtime 1 1 6
    Scenario.uploaded Scenario.six_in_a_second
  /\ map (fun ch => (ch_id ch, ch_user_id ch, ch_dataset_id ch,
                     ch_created_at ch))
         (chat_history (db Scenario.six_in_a_second))
     = [(1, 1, 1, 3); (2, 1, 1, 3); (3, 1, 1, 3); (4, 1, 1, 3);
        (5, 1, 1, 3); (6, 1, 1, 3)]
  /\ run (@history Sample.runtime (Sample.quiet 4) 1 JUndefined)
         Scenario.six_in_a_second
     = ({| status := 200;
           body := PHistory [Scenario.asked_entry 1 3;
                             Scenario.asked_entry 2 3;
                             Scenario.asked_entry 3 3;
                             Scenario.asked_entry 4 3;
                             Scenario.asked_entry 5 3] |},
        Scenario.six_in_a_second)
  /\ run (@history Sample.runtime (Sample.quiet 4) 1 (JStr (lit "1")))
         Scenario.six_in_a_second
     = run (@history Sample.runtime (Sample.quiet 4) 1 JUndefined)
           Scenario.six_in_a_second.
Proof.
  split; [|vm_compute; repeat split; reflexivity].
  unfold Scenario.six_in_a_second, Scenario.ask.
  repeat (eapply (@queries_answered Sample.runtime 1 1 _ _ _ _ _ _ _
                    (SqlInt 1));
          [|reflexivity|reflexivity|vm_compute; reflexivity]).
  apply queries_none.
Qed.

(** X24: the history read returns at most five rows; each is the
    projection (id, question, answer, code, time) of a history row of
    the reader (about the one dataset when a filter is given) joined
    with the dataset it points at, whose original name it carries; the
    rows come in the order of their creation second, latest first, and
    no row left out has a later second than a returned one (rows of
    the same second are not told apart by the order); and once six
    chat requests of a user about one dataset have been answered, the
    read returns exactly five rows, with or without the dataset
    filter. *)
Theorem history_read_five_by_second `{RT : Runtime} uid only d :
  let sorted := order_by_desc (fun p => ch_created_at (fst p))
                              (history_join uid only d) in
  history_rows uid only d = map history_row (firstn 5 sorted)
  /\ (forall ch r,
        history_row (ch, r)
        = {| hv_id := ch_id ch; hv_query := ch_query ch;
             hv_response := ch_response ch; hv_code := ch_code ch;
             hv_created_at := ch_created_at ch;
             hv_dataset_name := ds_original_name r |})
  /\ (List.length (history_rows uid only d) <= 5)%nat
  /\ (forall ch r,
        In (ch, r) (firstn 5 sorted) ->
        In ch (chat_history d) /\ ch_user_id ch = uid
        /\ match only with
           | None => True
           | Some key => key = Some (ch_dataset_id ch)
           end
        /\ In r (datasets d) /\ ds_id r = ch_dataset_id ch
        /\ hv_dataset_name (history_row (ch, r)) = ds_original_name r)
  /\ StronglySorted newer_first (firstn 5 sorted)
  /\ (forall a b, In a (firstn 5 sorted) -> In b (skipn 5 sorted) ->
                  newer_first a b)
  /\ Permutation (firstn 5 sorted ++ skipn 5 sorted) (history_join uid only d)
  /\ (forall e i w,
        store_reads e = true -> db w = d ->
        (truthy i = false -> only = None ->
         run (history e uid i) w
         = ({| status := 200; body := PHistory (history_rows uid only d) |},
            w))
        /\ (forall p, truthy i = true -> bind_value i = Some p ->
                      only = Some (integer_key p) ->
                      run (history e uid i) w
                      = ({| status := 200;
                            body := PHistory (history_rows uid only d) |}, w)))
  /\ (forall k w0 w,
        reachable w0 -> after_queries uid k 6 w0 w -> db w = d ->
        only = None \/ only = Some (Some k) ->
        List.length (history_rows uid only d) = 5%nat).
Proof.
  intros sorted.
  assert (Hlen : List.length (history_rows uid only d)
                 = Nat.min 5 (List.length (history_join uid only d))).
  { unfold history_rows, history_top. fold sorted.
    rewrite length_map, length_firstn. unfold sorted.
    rewrite order_by_desc_length. reflexivity. }
  split; [reflexivity|]. split; [reflexivity|]. split; [lia|].
  split.
  { intros ch r Hin. apply in_firstn in Hin.
    apply order_by_desc_in in Hin.
    apply in_history_join in Hin as (H1 & H2 & H3 & H4 & H5).
    repeat split; auto. }
  split; [apply firstn_sorted, order_by_desc_sorted|].
  split.
  { intros a b.
    apply firstn_newest, order_by_desc_sorted. }
  split; [rewrite firstn_skipn; apply order_by_desc_perm|].
  split.
  { intros e i w Hr <-. destruct (history_run e uid i w Hr) as [H1 H2].
    split.
    - intros Hi ->. exact (H1 Hi).
    - intros p Hi Hb ->. exact (H2 p Hi Hb). }
  intros k w0 w Hreach Hq <- Ho.
  pose proof (after_queries_count Hq) as Hc.
  pose proof (reachable_wf (after_queries_reachable Hq Hreach)) as Hwf.
  pose proof (@history_join_length uid k only (db w) Hwf Ho) as Hj.
  lia.
Qed.

Lemma history_read_five_by_second_witness :
  @reachable Sample.runtime Scenario.uploaded
  /\ @after_queries Sample.runtime 1 1 6 Scenario.uploaded Scenario.six_asked
  /\ List.length
       (@history_rows 1 (Some (Some 1)) (db Scenario.six_asked)) = 5%nat
  /\ map hv_created_at
       (@history_rows 1 (Some (Some 1)) (db Scenario.six_asked))
     = [8; 7; 6; 5; 4].
Proof.
  assert (Hr : @reachable Sample.runtime Scenario.uploaded)
    by (repeat apply reach_serve; apply reach_init).
  assert (Hq : @after_queries Sample.runtime 1 1 6
                 Scenario.uploaded Scenario.six_asked).
  { unfold Scenario.six_asked, Scenario.ask.
    repeat (eapply (@queries_answered Sample.runtime 1 1 _ _ _ _ _ _ _
                      (SqlInt 1));
            [|reflexivity|reflexivity|vm_compute; reflexivity]).
    apply queries_none. }
  split; [exact Hr|]. split; [exact Hq|]. split.
  - destruct (@history_read_five_by_second Sample.runtime 1 (Some (Some 1))
                (db Scenario.six_asked))
      as (_ & _ & _ & _ & _ & _ & _ & _ & H).
    exact (H 1 Scenario.uploaded Scenario.six_asked Hr Hq eq_refl
             (or_intror eq_refl)).
  - vm_compute. reflexivity.
Defined.

(** C1: in every world the server can reach, a dataset owned by A is
    out of every other user B's reach: B's listing carries no view of
    it; a chat request of B under A's identifier finds no dataset,
    leaves the world as it was (no call, no row), never ends with
    status 200, and, when the request is well formed and the store
    readable, is answered 404 [Dataset not found] -- the answer also
    given for an identifier no dataset has; whatever B asks, the one
    call a chat request makes is about a dataset B owns; and every row
    of B's history read is joined with a dataset B owns. *)
Theorem datasets_isolated_between_users `{RT : Runtime} w dA B :
  reachable w -> In dA (datasets (db w)) -> ds_user_id dA <> B ->
  ~ In dA (datasets_of B (db w))
  /\ (forall e l,
        body (fst (run (list_datasets e B) w)) = PDatasets l ->
        forall v, In v l -> dv_id v <> ds_id dA)
  /\ (forall e i q c p,
        bind_value i = Some p -> integer_key p = Some (ds_id dA) ->
        find_dataset (integer_key p) B (db w) = None
        /\ snd (run (chat e B i q c) w) = w
        /\ status (fst (run (chat e B i q c) w)) <> 200
        /\ (well_formed_chat i q = true -> store_reads e = true ->
            fst (run (chat e B i q c) w)
            = {| status := 404; body := PError "Dataset not found" |}))
  /\ (forall e i q c p,
        bind_value i = Some p ->
        (forall d, In d (datasets (db w)) -> integer_key p <> Some (ds_id d)) ->
        well_formed_chat i q = true -> store_reads e = true ->
        fst (run (chat e B i q c) w)
        = {| status := 404; body := PError "Dataset not found" |})
  /\ (forall e i q c,
        analyze_calls (snd (run (chat e B i q c) w)) = analyze_calls w
        \/ exists d schema qs,
            In d (datasets (db w)) /\ ds_user_id d = B /\ d <> dA
            /\ analyze_calls (snd (run (chat e B i q c) w))
               = analyze_calls w ++ [analysis_request d schema qs c])
  /\ (forall only ch r,
        In (ch, r) (history_join B only (db w)) ->
        ds_user_id r = B /\ r <> dA)
  /\ (forall e i l,
        body (fst (run (history e B i) w)) = PHistory l ->
        exists only,
          l = map history_row (history_top B only (db w))
          /\ forall ch r, In (ch, r) (history_top B only (db w)) ->
                          ds_user_id r = B /\ r <> dA).
Proof.
  intros Hreach HdA Hown.
  pose proof (reachable_wf Hreach) as Hwf.
  assert (Hjoin : forall only ch r,
             In (ch, r) (history_join B only (db w)) ->
             ds_user_id r = B /\ r <> dA).
  { intros only ch r Hin.
    assert (Hu : ds_user_id r = B)
      by (eapply history_join_owner; eassumption).
    split; [exact Hu|]. intros ->. contradiction. }
  split.
  { unfold datasets_of. rewrite order_by_desc_in, filter_In, Z.eqb_eq. tauto. }
  split.
  { intros e l Hl v Hv E.
    destruct (@list_datasets_views RT e B w l Hl v Hv)
      as (row & Hrow & Hu & Hid & _).
    destruct Hwf as (Hnd & _).
    assert (row = dA) by (eapply unique_dataset; eauto; congruence).
    subst row. contradiction. }
  split.
  { intros e i q c p Hb Hk.
    assert (Hf : find_dataset (integer_key p) B (db w) = None)
      by (rewrite Hk; apply foreign_dataset_not_found; assumption).
    destruct (@chat_without_dataset RT e B i q c p w Hb Hf) as [H1 H2].
    repeat split; auto.
    intros Hwfc Hr. rewrite (@chat_not_found RT e B i q c p w); auto. }
  split.
  { intros e i q c p Hb Habs Hwfc Hr.
    rewrite (@chat_not_found RT e B i q c p w); auto.
    destruct (find_dataset (integer_key p) B (db w)) as [d|] eqn:E;
      [|reflexivity].
    apply find_dataset_some in E as (Hin & Hk & _).
    exfalso. exact (Habs d Hin Hk). }
  split.
  { intros e i q c.
    destruct (@chat_calls_own_dataset RT e B i q c w)
      as [H|(d & schema & qs & Hin & Hu & H)]; [left; exact H|right].
    exists d, schema, qs. repeat split; auto. intros ->. contradiction. }
  split; [exact Hjoin|].
  intros e i l Hl. destruct (@history_run_rows RT e B i w l Hl) as [only ->].
  exists only. split; [reflexivity|].
  intros ch r Hin. apply (Hjoin only ch r).
  unfold history_top in Hin. apply in_firstn in Hin.
  apply order_by_desc_in in Hin. exact Hin.
Qed.

Lemma datasets_isolated_between_users_witness :
  @reachable Sample.runtime Scenario.two_users
  /\ fst (run (@chat Sample.runtime (Sample.answering 10 Scenario.answer_only)
                 2 (JNum 1) Scenario.how_many JUndefined) Scenario.two_users)
     = {| status := 404; body := PError "Dataset not found" |}
  /\ fst (run (@list_datasets Sample.runtime (Sample.quiet 10) 2)
              Scenario.two_users)
     = {| status := 200; body := PDatasets [] |}.
Proof.
  assert (Hr : @reachable Sample.runtime Scenario.two_users)
    by (repeat apply reach_serve; apply reach_init).
  split; [exact Hr|]. split; [|vm_compute; reflexivity].
  destruct (@datasets_isolated_between_users Sample.runtime
              Scenario.two_users
              {| ds_id := 1; ds_user_id := 1;
                 ds_file_path :=
                   lit "/srv/dataweb/backend/uploads/user_1/2000_.._.._evil.csv";
                 ds_original_name := lit "../../evil.csv";
                 ds_schema_json :=
                   Some (Sample.stringify
                           (schema_object
                              [lit "name"; lit "age"; lit "city"]));
                 ds_uploaded_at := 2 |}
              2 Hr)
    as (_ & _ & H & _).
  - vm_compute. left. reflexivity.
  - vm_compute. discriminate.
  - destruct (H (Sample.answering 10 Scenario.answer_only) (JNum 1)
                Scenario.how_many JUndefined (SqlInt 1) eq_refl eq_refl)
      as (_ & _ & _ & H404).
    apply H404; reflexivity.
Defined.


(* ================================================================== *)
(** * Part III: further properties of the routes *)
(* ================================================================== *)

(** ** Registration and login *)

Section Registration.

Context `{RT : Runtime}.

Lemma bind_value_string s : bind_value (JStr s) = Some (SqlText s).
Proof. reflexivity. Qed.

Lemma bind_value_number z : bind_value (JNum z) = Some (SqlInt z).
Proof. reflexivity. Qed.

(** The registration route on two strings. *)
Lemma register_strings e us ps w :
  register e (JStr us) (JStr ps) w
  = try_catch
      (if negb (present (JStr us)) || negb (present (JStr ps))
       then send 400 (PError "Username and password are required")
       else if (len us <? 3) || (30 <? len us)
       then send 400 (PError "Username must be 3-30 characters")
       else if len ps <? 6
       then send 400 (PError "Password must be at least 6 characters")
       else
         existing <- sql_select e (find_user us) ;;
         match existing with
         | Some _ => send 409 (PError "Username already taken")
         | None =>
             id <- insert_user e us (bcrypt_hash ps (salt e)) ;;
             send 201 (PAuth "User registered successfully"
                             (jwt_sign id (JStr us) (now_s e)) id (JStr us))
         end)
      (fun _ => send 500 (PError "Internal server error")) w.
Proof.
  unfold register, try_catch, bind.
  destruct (negb (present (JStr us)) || negb (present (JStr ps)));
    [reflexivity|].
  cbn [js_length less_than greater_than of_option ret].
  destruct (len us <? 3); cbn [orb ret]; [reflexivity|].
  destruct (30 <? len us); [reflexivity|].
  destruct (len ps <? 6); [reflexivity|].
  rewrite bind_value_string. cbn [of_option ret].
  unfold sql_select. destruct (store_reads e); [|reflexivity].
  change (find_user_by (SqlText us) (db w)) with (find_user us (db w)).
  destruct (find_user us (db w)); [reflexivity|].
  cbn [bcrypt_argument ret].
  unfold run_insert_user, bind.
  rewrite (@bind_user_arguments (JStr us) (SqlText us) _ eq_refl).
  cbn [of_option ret text_column].
  destruct (insert_user e us (bcrypt_hash ps (salt e)) w) as [[id|r|err] w'];
    reflexivity.
Qed.

(** The login route on two strings. *)
Lemma login_strings e us ps w :
  login e (JStr us) (JStr ps) w
  = try_catch
      (if negb (present (JStr us)) || negb (present (JStr ps))
       then send 400 (PError "Username and password are required")
       else
         user <- sql_select e (find_user us) ;;
         match user with
         | None => send 401 (PError "Invalid credentials")
         | Some u =>
             if negb (bcrypt_compare ps (user_password_hash u))
             then send 401 (PError "Invalid credentials")
             else
               send 200 (PAuth "Login successful"
                               (jwt_sign (user_id u)
                                         (JStr (user_username u)) (now_s e))
                               (user_id u) (JStr (user_username u)))
         end)
      (fun _ => send 500 (PError "Internal server error")) w.
Proof.
  unfold login, try_catch, bind.
  destruct (negb (present (JStr us)) || negb (present (JStr ps)));
    [reflexivity|].
  rewrite bind_value_string. cbn [of_option ret].
  unfold sql_select. destruct (store_reads e); [|reflexivity].
  change (find_user_by (SqlText us) (db w)) with (find_user us (db w)).
  destruct (find_user us (db w)); reflexivity.
Qed.

(** The ways a registration of string fields can end. *)
Lemma register_run e u p w :
  (snd (run (register e (body_field u) (body_field p)) w) = w
   /\ In (status (fst (run (register e (body_field u) (body_field p)) w)))
         [400; 409; 500]
   /\ (acceptable_credentials u p -> store_reads e = true ->
       store_writes e = true -> find_user (field u) (db w) <> None))
  \/ (acceptable_credentials u p
      /\ find_user (field u) (db w) = None
      /\ store_reads e = true /\ store_writes e = true
      /\ fst (run (register e (body_field u) (body_field p)) w)
         = {| status := 201;
              body := PAuth "User registered successfully"
                            (jwt_sign (seq_users (db w) + 1)
                                      (JStr (field u)) (now_s e))
                            (seq_users (db w) + 1) (JStr (field u)) |}
      /\ snd (run (register e (body_field u) (body_field p)) w)
         = with_db w (push_user (db w) (field u)
                                (bcrypt_hash (field p) (salt e))
                                (now_s e))).
Proof.
  unfold acceptable_credentials.
  destruct u as [us|].
  2:{ left. split; [reflexivity|]. split; [simpl; auto|].
      intros (H & _); discriminate. }
  destruct p as [ps|].
  2:{ left. split; [destruct us; reflexivity|].
      split; [destruct us; simpl; auto|].
      intros (_ & H & _); discriminate. }
  cbn [body_field field]. unfold run. rewrite register_strings.
  unfold try_catch, bind, sql_select, send, insert_user, len.
  destruct (present (JStr us)) eqn:Hu; cbn [negb orb];
    [|left; simpl; intuition congruence].
  destruct (present (JStr ps)) eqn:Hp; cbn [negb orb];
    [|left; simpl; intuition congruence].
  destruct (Z.ltb_spec (Z.of_nat (List.length us)) 3); cbn [orb];
    [left; simpl; intuition lia|].
  destruct (Z.ltb_spec 30 (Z.of_nat (List.length us)));
    [left; simpl; intuition lia|].
  destruct (Z.ltb_spec (Z.of_nat (List.length ps)) 6);
    [left; simpl; intuition lia|].
  destruct (store_reads e) eqn:Hr; [|left; simpl; intuition congruence].
  destruct (find_user us (db w)) as [usr|] eqn:Hf;
    [left; simpl; intuition congruence|].
  destruct (store_writes e) eqn:Hw; cbn [negb];
    [|left; simpl; intuition congruence].
  assert (Hex : existsb (fun x => str_eqb (user_username x) us)
                        (users (db w)) = false).
  { unfold find_user in Hf. destruct (existsb _ _) eqn:E; [|reflexivity].
    apply existsb_exists in E as (x & Hx & Hm).
    pose proof (find_none _ _ Hf x Hx) as Hn. simpl in Hn. congruence. }
  rewrite Hex. right. repeat split; auto; lia.
Qed.

Lemma find_user_push_other d name hash now n :
  find_user n d <> None ->
  find_user n (push_user d name hash now) = find_user n d.
Proof.
  unfold find_user, push_user; cbn [users].
  induction (users d) as [|x l IH]; simpl; [congruence|].
  destruct (str_eqb (user_username x) n); auto.
Qed.

Lemma find_user_push_new d name hash now :
  find_user name d = None ->
  find_user name (push_user d name hash now)
  = Some {| user_id := seq_users d + 1; user_username := name;
            user_password_hash := hash; user_created_at := now |}.
Proof.
  unfold find_user, push_user; cbn [users].
  induction (users d) as [|x l IH]; simpl.
  - rewrite str_eqb_refl. reflexivity.
  - destruct (str_eqb (user_username x) name); [discriminate|]. exact IH.
Qed.

(** No request removes or rewrites a user row. *)
Lemma db_step_find_user d d' n u :
  db_step d d' -> find_user n d = Some u -> find_user n d' = Some u.
Proof.
  intros Hs Hf. destruct Hs; auto.
  rewrite find_user_push_other; congruence.
Qed.

Lemma later_find_user w w' n u :
  later w w' -> find_user n (db w) = Some u -> find_user n (db w') = Some u.
Proof.
  induction 1 as [|w' e rq _ IH]; intros Hf; auto.
  eapply db_step_find_user; [apply serve_db_step|auto].
Qed.

Lemma later_reachable w w' : later w w' -> reachable w -> reachable w'.
Proof. induction 1; intros Hr; auto using reach_serve. Qed.

End Registration.

(** X1: a registration writes exactly when it answers 201: then one
    user row is appended, holding the username, the bcrypt digest of
    the password (never the password itself) and the next id, and the
    response carries a token signed for that id; every other outcome
    (400, 409 or 500) leaves the whole world as it was. *)
Theorem register_writes_iff_created `{RT : Runtime} e u p w :
  (status (fst (run (register e (body_field u) (body_field p)) w)) = 201 ->
   acceptable_credentials u p
   /\ find_user (field u) (db w) = None
   /\ users (db (snd (run (register e (body_field u) (body_field p)) w)))
      = users (db w)
          ++ [{| user_id := seq_users (db w) + 1;
                 user_username := field u;
                 user_password_hash := bcrypt_hash (field p) (salt e);
                 user_created_at := now_s e |}]
   /\ body (fst (run (register e (body_field u) (body_field p)) w))
      = PAuth "User registered successfully"
              (jwt_sign (seq_users (db w) + 1) (JStr (field u)) (now_s e))
              (seq_users (db w) + 1) (JStr (field u))
   /\ datasets (db (snd (run (register e (body_field u) (body_field p)) w)))
      = datasets (db w)
   /\ chat_history (db (snd (run (register e (body_field u) (body_field p)) w)))
      = chat_history (db w)
   /\ files (snd (run (register e (body_field u) (body_field p)) w)) = files w)
  /\ (status (fst (run (register e (body_field u) (body_field p)) w)) <> 201 ->
      snd (run (register e (body_field u) (body_field p)) w) = w
      /\ In (status (fst (run (register e (body_field u) (body_field p)) w)))
            [400; 409; 500])
  /\ (acceptable_credentials u p -> find_user (field u) (db w) = None ->
      store_reads e = true -> store_writes e = true ->
      status (fst (run (register e (body_field u) (body_field p)) w)) = 201).
Proof.
  destruct (register_run e u p w)
    as [(Hw & Hst & Hno)|(Hacc & Hf & Hr & Hwr & Hresp & Hw)].
  - split; [|split].
    + intros E. rewrite E in Hst. simpl in Hst. intuition discriminate.
    + auto.
    + intros Hacc Hf Hr Hwr. exfalso. exact (Hno Hacc Hr Hwr Hf).
  - rewrite Hresp, Hw. split; [|split].
    + intros _. repeat split; auto; apply Hacc.
    + intros E. contradiction E. reflexivity.
    + reflexivity.
Qed.

Lemma register_writes_iff_created_witness :
  status (fst (run (@register Sample.runtime (Sample.quiet 1)
                      (body_field Scenario.alice)
                      (body_field Scenario.secret)) initial_world)) = 201
  /\ map user_password_hash (users (db Scenario.registered))
     = [lit "salt$secret1"].
Proof.
  assert (H : status (fst (run (@register Sample.runtime (Sample.quiet 1)
                      (body_field Scenario.alice)
                      (body_field Scenario.secret)) initial_world)) = 201)
    by (vm_compute; reflexivity).
  split; [exact H|].
  destruct (proj1 (@register_writes_iff_created Sample.runtime
                     (Sample.quiet 1) Scenario.alice Scenario.secret
                     initial_world) H) as (_ & _ & Hu & _).
  unfold Scenario.registered, serve. cbn [route]. rewrite Hu.
  vm_compute. reflexivity.
Defined.

(** X2: once a registration of a username was answered 201, every later
    registration of that username with acceptable fields is answered
    409 [Username already taken] and changes nothing, whatever was
    served in between. *)
Theorem registered_username_stays_taken `{RT : Runtime} e0 u p0 w0 w e p :
  status (fst (run (register e0 (body_field u) (body_field p0)) w0)) = 201 ->
  later (snd (run (register e0 (body_field u) (body_field p0)) w0)) w ->
  acceptable_credentials u p -> store_reads e = true ->
  run (register e (body_field u) (body_field p)) w
  = ({| status := 409; body := PError "Username already taken" |}, w).
Proof.
  intros H201 Hlater (Hu & Hp & Hlu & Hlp) Hr.
  destruct (register_run e0 u p0 w0)
    as [(_ & Hst & _)|(_ & Hf & _ & _ & _ & Hw)].
  { rewrite H201 in Hst. simpl in Hst. intuition discriminate. }
  rewrite Hw in Hlater.
  pose proof (find_user_push_new (db w0) (field u)
                (bcrypt_hash (field p0) (salt e0)) (now_s e0) Hf) as Hnew.
  pose proof (@later_find_user RT _ _ _ _ Hlater Hnew) as Hfound.
  destruct u as [us|]; [|discriminate Hu].
  destruct p as [ps|]; [|discriminate Hp].
  cbn [body_field field] in *. unfold run. rewrite register_strings.
  unfold try_catch, bind, sql_select, send, len.
  rewrite Hu, Hp. cbn [negb orb].
  destruct (Z.ltb_spec (Z.of_nat (List.length us)) 3); [lia|].
  destruct (Z.ltb_spec 30 (Z.of_nat (List.length us))); [lia|].
  destruct (Z.ltb_spec (Z.of_nat (List.length ps)) 6); [lia|].
  cbn [orb]. rewrite Hr, Hfound. reflexivity.
Qed.

Lemma registered_username_stays_taken_witness :
  run (@register Sample.runtime (Sample.quiet 11)
         (body_field Scenario.alice)
         (body_field (Some (lit "another-secret")))) Scenario.two_users
  = ({| status := 409; body := PError "Username already taken" |},
     Scenario.two_users).
Proof.
  apply (@registered_username_stays_taken Sample.runtime (Sample.quiet 1)
           Scenario.alice Scenario.secret initial_world Scenario.two_users
           (Sample.quiet 11) (Some (lit "another-secret"))).
  - vm_compute; reflexivity.
  - unfold Scenario.two_users, Scenario.asked, Scenario.uploaded.
    do 3 apply later_serve. apply later_now.
  - repeat split; vm_compute; congruence.
  - reflexivity.
Defined.

(** X3: a login right after, or any time after, a successful
    registration, with the same username and password, is answered 200
    with the id and username the registration returned and a token
    signed for them, provided bcrypt accepts the password against the
    digest it made of it; the login changes nothing. *)
Theorem register_then_login `{RT : Runtime} e0 u p w0 w e :
  bcrypt_compare (field p) (bcrypt_hash (field p) (salt e0)) = true ->
  status (fst (run (register e0 (body_field u) (body_field p)) w0)) = 201 ->
  later (snd (run (register e0 (body_field u) (body_field p)) w0)) w ->
  store_reads e = true ->
  run (login e (body_field u) (body_field p)) w
  = ({| status := 200;
        body := PAuth "Login successful"
                      (jwt_sign (seq_users (db w0) + 1) (JStr (field u))
                                (now_s e))
                      (seq_users (db w0) + 1) (JStr (field u)) |}, w)
  /\ body (fst (run (register e0 (body_field u) (body_field p)) w0))
     = PAuth "User registered successfully"
             (jwt_sign (seq_users (db w0) + 1) (JStr (field u)) (now_s e0))
             (seq_users (db w0) + 1) (JStr (field u)).
Proof.
  intros Hb H201 Hlater Hr.
  destruct (register_run e0 u p w0)
    as [(_ & Hst & _)|((Hu & Hp & _) & Hf & _ & _ & Hresp & Hw)].
  { rewrite H201 in Hst. simpl in Hst. intuition discriminate. }
  rewrite Hw in Hlater. rewrite Hresp. split; [|reflexivity].
  pose proof (find_user_push_new (db w0) (field u)
                (bcrypt_hash (field p) (salt e0)) (now_s e0) Hf) as Hnew.
  pose proof (@later_find_user RT _ _ _ _ Hlater Hnew) as Hfound.
  destruct u as [us|]; [|discriminate Hu].
  destruct p as [ps|]; [|discriminate Hp].
  cbn [body_field field] in *. unfold run. rewrite login_strings.
  unfold try_catch, bind, sql_select, send.
  rewrite Hu, Hp. cbn [negb orb]. rewrite Hr, Hfound.
  cbn [user_password_hash user_id user_username]. rewrite Hb. reflexivity.
Qed.

Lemma register_then_login_witness :
  status (fst (run (@login Sample.runtime (Sample.quiet 12)
                      (body_field Scenario.alice)
                      (body_field Scenario.secret)) Scenario.two_users))
  = 200.
Proof.
  destruct (@register_then_login Sample.runtime (Sample.quiet 1)
              Scenario.alice Scenario.secret initial_world
              Scenario.two_users (Sample.quiet 12)) as [H _].
  - vm_compute; reflexivity.
  - vm_compute; reflexivity.
  - unfold Scenario.two_users, Scenario.asked, Scenario.uploaded.
    do 3 apply later_serve. apply later_now.
  - reflexivity.
  - rewrite H. reflexivity.
Defined.

(** X25: what a failed login tells.  With the password sent as a
    string, a login for a name the user table does not hold and a login
    for a name it holds whose digest comparison fails get the same
    response, 401 [Invalid credentials], and change nothing; this holds
    for every JSON value of the username the lookup can take as its
    parameter.  With a password that is present but not a string the
    two part: the unknown name still gets the 401, the known name gets
    500 [Internal server error]. *)
Theorem login_failures_alike_for_string_passwords `{RT : Runtime}
        e1 e2 u1 p1 u2 p2 n1 n2 w1 w2 usr :
  present u1 = true -> present (JStr p1) = true ->
  present u2 = true -> present (JStr p2) = true ->
  store_reads e1 = true -> store_reads e2 = true ->
  stored_username u1 = Some n1 -> find_user n1 (db w1) = None ->
  stored_username u2 = Some n2 -> find_user n2 (db w2) = Some usr ->
  bcrypt_compare p2 (user_password_hash usr) = false ->
  run (login e1 u1 (JStr p1)) w1
  = ({| status := 401; body := PError "Invalid credentials" |}, w1)
  /\ run (login e2 u2 (JStr p2)) w2
     = ({| status := 401; body := PError "Invalid credentials" |}, w2)
  /\ (forall v,
        present v = true ->
        run (login e1 u1 v) w1
        = ({| status := 401; body := PError "Invalid credentials" |}, w1))
  /\ (forall v,
        present v = true -> (forall s, v <> JStr s) ->
        run (login e2 u2 v) w2
        = ({| status := 500; body := PError "Internal server error" |},
           w2)).
Proof.
  intros Hu1 Hp1 Hu2 Hp2 Hr1 Hr2 Hs1 Hf1 Hs2 Hf2 Hc.
  unfold stored_username in Hs1, Hs2.
  destruct (bind_value u1) as [q1|] eqn:Hb1; [|discriminate].
  destruct (bind_value u2) as [q2|] eqn:Hb2; [|discriminate].
  assert (F1 : find_user_by q1 (db w1) = None)
    by (unfold find_user_by; rewrite Hs1; exact Hf1).
  assert (F2 : find_user_by q2 (db w2) = Some usr)
    by (unfold find_user_by; rewrite Hs2; exact Hf2).
  assert (H1 : forall v,
             present v = true ->
             run (login e1 u1 v) w1
             = ({| status := 401; body := PError "Invalid credentials" |},
                w1)).
  { intros v Hv.
    unfold run, login, try_catch, bind, sql_select, send, of_option, ret.
    rewrite Hu1, Hv, Hb1. cbn [negb orb]. rewrite Hr1, F1. reflexivity. }
  split; [apply H1, Hp1|]. split; [|split; [exact H1|]].
  - unfold run, login, try_catch, bind, sql_select, send, of_option, ret,
      bcrypt_argument.
    rewrite Hu2, Hp2, Hb2. cbn [negb orb]. rewrite Hr2, F2.
    cbv beta iota delta [ret]. rewrite Hc. reflexivity.
  - intros v Hv Hn.
    unfold run, login, try_catch, bind, sql_select, send, of_option, ret,
      bcrypt_argument, throw.
    rewrite Hu2, Hv, Hb2. cbn [negb orb]. rewrite Hr2, F2.
    destruct v; try reflexivity. contradiction (Hn s). reflexivity.
Qed.

Lemma login_failures_alike_for_string_passwords_witness :
  run (@login Sample.runtime (Sample.quiet 5)
         (JStr (lit "bob")) (JStr (lit "whatever"))) Scenario.registered
  = ({| status := 401; body := PError "Invalid credentials" |},
     Scenario.registered)
  /\ run (@login Sample.runtime (Sample.quiet 6)
            (JStr (lit "alice")) (JStr (lit "wrong-secret")))
         Scenario.registered
     = ({| status := 401; body := PError "Invalid credentials" |},
        Scenario.registered).
Proof.
  destruct (@login_failures_alike_for_string_passwords Sample.runtime
              (Sample.quiet 5) (Sample.quiet 6)
              (JStr (lit "bob")) (lit "whatever")
              (JStr (lit "alice")) (lit "wrong-secret")
              (lit "bob") (lit "alice")
              Scenario.registered Scenario.registered
              {| user_id := 1; user_username := lit "alice";
                 user_password_hash := lit "salt$secret1";
                 user_created_at := 1 |}
              eq_refl eq_refl eq_refl eq_refl eq_refl eq_refl
              eq_refl eq_refl eq_refl eq_refl eq_refl)
    as (H1 & H2 & _).
  split; assumption.
Defined.

(** ** The user table along a run *)

Section Users.

Context `{RT : Runtime}.

(** An upload changes the tables by at most one dataset row of the
    uploader. *)
Lemma upload_db_cases e uid part w :
  db (snd (run (upload e uid part) w)) = db w
  \/ exists path name sj,
      user_exists (db w) uid = true
      /\ db (snd (run (upload e uid part) w))
         = push_dataset (db w) uid path name sj (now_s e).
Proof.
  unfold run, upload.
  destruct (upload_single e uid part w) as [r w1] eqn:E.
  assert (Hdb : db w1 = db w).
  { unfold upload_single in E. destruct part as [f|].
    - destruct (negb (fileFilter f)); [injection E as <- <-; reflexivity|].
      destruct (fileSize_limit <? size f); injection E as <- <-; reflexivity.
    - injection E as <- <-; reflexivity. }
  rewrite <- Hdb. clear E Hdb.
  unfold upload_callback.
  destruct r as [code message|message| |path name].
  - destruct (String.eqb code "LIMIT_FILE_SIZE"); left; reflexivity.
  - left; reflexivity.
  - left; reflexivity.
  - unfold try_catch, bind, unlinkSync, extractSchema, readFileSync, bind,
      ret, send, insert_dataset.
    destruct (negb (startsWith _ _)).
    + destruct (read_file _ _); left; reflexivity.
    + destruct (read_file _ _); [|left; reflexivity].
      destruct (no_valid_headers _); [left; reflexivity|].
      destruct (negb (store_writes e)); [left; reflexivity|].
      destruct (user_exists (db w1) uid) eqn:Hu; cbn [negb];
        [|left; reflexivity].
      right. do 3 eexists. split; reflexivity.
Qed.

(** A registration, whatever JSON values its body holds, leaves the
    world alone or appends one user row under a username that was
    free. *)
Lemma register_world e u p w :
  snd (run (register e u p) w) = w
  \/ exists name hash,
      stored_username u = Some name
      /\ find_user name (db w) = None
      /\ snd (run (register e u p) w)
         = with_db w (push_user (db w) name hash (now_s e)).
Proof.
  apply (post_run _ _
           (fun _ w' =>
              w' = w
              \/ exists name hash,
                  stored_username u = Some name
                  /\ find_user name (db w) = None
                  /\ w' = with_db w (push_user (db w) name hash (now_s e)))).
  unfold register. wp; try (left; reflexivity).
  right.
  match goal with
  | Hb : bind_value u = Some ?n,
    Hf : find_user_by ?n _ = None,
    Hv : bind_values 2 [_; JStr ?h] = Some [?pn; _],
    Ht : text_column ?pn = Some ?nm |- _ =>
      rewrite (@bind_user_arguments u n h Hb) in Hv;
      injection Hv as <- <-;
      unfold find_user_by in Hf; rewrite Ht in Hf;
      exists nm; eexists; unfold stored_username; rewrite Hb
  end.
  eauto.
Qed.

Lemma register_users e u p w :
  db (snd (run (register e u p) w)) = db w
  \/ exists name hash,
      find_user name (db w) = None
      /\ db (snd (run (register e u p) w))
         = push_user (db w) name hash (now_s e).
Proof.
  destruct (register_world e u p w) as [->|(name & hash & _ & Hf & ->)];
    [left; reflexivity|right; exists name, hash; auto].
Qed.

(** What a request does to the user table: nothing, or one appended
    row under a username that was free. *)
Lemma serve_users e rq w :
  (users (db (snd (serve e rq w))) = users (db w)
   /\ seq_users (db (snd (serve e rq w))) = seq_users (db w))
  \/ exists name hash,
      find_user name (db w) = None
      /\ db (snd (serve e rq w)) = push_user (db w) name hash (now_s e).
Proof.
  unfold serve. destruct rq; cbn [route].
  - destruct (register_users e username password w) as [->|H]; auto.
  - left. rewrite login_db. auto.
  - left. destruct (upload_db_cases e uid part w)
      as [->|(path & name & sj & _ & ->)]; auto.
  - left. rewrite list_datasets_db. auto.
  - left. destruct (chat_run e uid dataset_id question context w); auto.
  - left. rewrite history_db. auto.
  - left. rewrite health_db. auto.
Qed.

Lemma find_user_none_names name d :
  find_user name d = None -> ~ In name (map user_username (users d)).
Proof.
  unfold find_user. intros Hf Hin. apply in_map_iff in Hin as (x & E & Hx).
  pose proof (find_none _ _ Hf x Hx) as Hn. simpl in Hn.
  rewrite E, str_eqb_refl in Hn. discriminate.
Qed.

Lemma users_wf_push d name hash now :
  users_wf d -> find_user name d = None ->
  users_wf (push_user d name hash now).
Proof.
  intros (Hn & Hi & Hb & Hs) Hf. unfold users_wf, push_user.
  cbn [users seq_users]. rewrite !map_app. cbn [map].
  repeat split.
  - eapply Permutation_NoDup; [apply Permutation_cons_append|].
    constructor; [apply find_user_none_names, Hf|exact Hn].
  - eapply Permutation_NoDup; [apply Permutation_cons_append|].
    constructor; [|exact Hi].
    rewrite in_map_iff. intros (x & E & Hx).
    rewrite Forall_forall in Hb. specialize (Hb x Hx). simpl in E. lia.
  - apply Forall_app; split.
    + eapply Forall_impl; [|exact Hb]. simpl; intros; lia.
    + constructor; [simpl; lia|constructor].
  - lia.
Qed.

Lemma reachable_users_wf w : reachable w -> users_wf (db w).
Proof.
  induction 1 as [|w e rq _ IH].
  - repeat split; simpl; try constructor; lia.
  - destruct (serve_users e rq w) as [[Hu Hs]|(name & hash & Hf & Hd)].
    + destruct IH as (H1 & H2 & H3 & H4).
      unfold users_wf. rewrite Hu, Hs. auto.
    + rewrite Hd. apply users_wf_push; assumption.
Qed.

Lemma find_user_unique d name u :
  NoDup (map user_username (users d)) ->
  In u (users d) -> user_username u = name -> find_user name d = Some u.
Proof.
  unfold find_user. induction (users d) as [|x l IH]; simpl; [tauto|].
  intros Hnd [->|Hin] E.
  - rewrite E, str_eqb_refl. reflexivity.
  - inversion Hnd; subst.
    destruct (str_eqb (user_username x) (user_username u)) eqn:Ex.
    + apply str_eqb_spec in Ex. exfalso. apply H1. rewrite Ex.
      apply in_map, Hin.
    + auto.
Qed.

End Users.

(** X4: in every world the server can reach, usernames are unique, user
    ids are unique, positive and bounded by the table's counter; so the
    lookup by username the login route makes finds a row exactly when
    it is the one row with that username. *)
Theorem usernames_and_ids_unique `{RT : Runtime} w :
  reachable w ->
  users_wf (db w)
  /\ (forall name u,
        find_user name (db w) = Some u
        <-> In u (users (db w)) /\ user_username u = name).
Proof.
  intros Hr. pose proof (reachable_users_wf Hr) as Hwf.
  split; [exact Hwf|]. intros name u. split.
  - unfold find_user. intros Hf. apply find_some in Hf as [Hin Hm].
    split; [exact Hin|]. apply str_eqb_spec, Hm.
  - intros [Hin E]. apply find_user_unique; auto. apply Hwf.
Qed.

Lemma usernames_and_ids_unique_witness :
  @reachable Sample.runtime Scenario.two_users
  /\ map user_id (users (db Scenario.two_users)) = [1; 2]
  /\ NoDup (map user_username (users (db Scenario.two_users))).
Proof.
  assert (H : @reachable Sample.runtime Scenario.two_users)
    by (repeat apply reach_serve; apply reach_init).
  split; [exact H|]. split; [vm_compute; reflexivity|].
  exact (proj1 (proj1 (@usernames_and_ids_unique Sample.runtime _ H))).
Defined.

(** ** The session verifier *)

(** X5: the session verifier answers 401 [No token provided] to a
    missing or empty header and 401 to every header it refuses; it
    lets a request through exactly when the token -- the header
    without a leading [Bearer ] -- verifies, with the decoded id and
    username attached; a token sent bare and the same token sent after
    [Bearer ] are treated alike. *)
Theorem session_verifier_bearer_or_bare `{VF : Verifier} :
  authMiddleware None
  = inl {| status := 401;
           body := PError "Unauthorized — No token provided" |}
  /\ authMiddleware (Some [])
     = inl {| status := 401;
              body := PError "Unauthorized — No token provided" |}
  /\ (forall h r, authMiddleware h = inl r -> status r = 401)
  /\ (forall h u,
        authMiddleware (Some h) = inr u
        <-> h <> []
            /\ jwt_verify (token_of h) = Some (id_user u, id_username u))
  /\ (forall t,
        t <> [] -> startsWith t (lit "Bearer ") = false ->
        authMiddleware (Some (lit "Bearer " ++ t)) = authMiddleware (Some t)).
Proof.
  split; [reflexivity|]. split; [reflexivity|]. split; [|split].
  - intros [[|c h]|] r; simpl; try (intros E; injection E as <-; reflexivity).
    destruct (jwt_verify _) as [[id name]|]; intros E; [discriminate|].
    injection E as <-; reflexivity.
  - intros h [id name]. destruct h as [|c h]; simpl.
    + split; [discriminate|intros [H _]; contradiction H; reflexivity].
    + destruct (jwt_verify _) as [[id' name']|]; split.
      * intros E; injection E as <- <-. split; [discriminate|reflexivity].
      * intros [_ E]; injection E as <- <-. reflexivity.
      * discriminate.
      * intros [_ E]; discriminate.
    - intros t Ht Hs. destruct t as [|c t]; [contradiction Ht; reflexivity|].
      unfold authMiddleware.
      change (lit "Bearer " ++ c :: t)
        with (66 :: 101 :: 97 :: 114 :: 101 :: 114 :: 32 :: c :: t)%N.
      cbv beta iota.
      assert (E1 : token_of (66 :: 101 :: 97 :: 114 :: 101 :: 114 :: 32
                               :: c :: t)%N = c :: t).
      { unfold token_of.
        change (66 :: 101 :: 97 :: 114 :: 101 :: 114 :: 32 :: c :: t)%N
          with (lit "Bearer " ++ c :: t).
        rewrite startsWith_app. reflexivity. }
      assert (E2 : token_of (c :: t) = c :: t)
        by (unfold token_of; rewrite Hs; reflexivity).
      rewrite E1, E2. reflexivity.
Qed.

(** ** Routing *)

Section Routing.

Context `{RT : Runtime} `{VF : Verifier}.

Lemma seg_is_lower s name : seg_is s name = true -> toLowerCase s = lit name.
Proof. apply str_eqb_spec. Qed.

Lemma under_two a b path rest :
  under [a; b] path = Some rest ->
  exists x y, path = x :: y :: rest
              /\ seg_is x a = true /\ seg_is y b = true.
Proof.
  destruct path as [|x [|y r]]; simpl; try discriminate.
  - destruct (seg_is x a); discriminate.
  - destruct (seg_is x a) eqn:Ea; [|discriminate].
    destruct (seg_is y b) eqn:Eb; [|discriminate].
    intros E; injection E as <-. eauto.
Qed.

(** Rewrites a path below [/api/<name>] and decides every test the
    dispatcher makes on its first two pieces. *)
Ltac route_to H :=
  apply under_two in H as (x & y & Hpath & Hx & Hy);
  unfold express_app, routes, is_health, mounts;
  rewrite Hpath; cbn [under];
  apply seg_is_lower in Hy; unfold seg_is in *; rewrite Hx, Hy;
  cbn [str_eqb lit map list_ascii_of_string N_of_ascii N.eqb Pos.eqb
       andb N_of_digits N.add N.mul Pos.add Pos.mul Pos.succ];
  repeat rewrite andb_false_r.

Lemma mount_auth e rq rest :
  under ["api"; "auth"]%string (hr_path rq) = Some rest ->
  express_app e (Parsed rq)
  = if hr_over_limit rq
    then limited "Too many auth attempts — try again in a minute"
    else authRoutes e rq rest.
Proof.
  intros H. route_to H. destruct rest; reflexivity.
Qed.

Lemma mount_upload e rq rest :
  under ["api"; "upload"]%string (hr_path rq) = Some rest ->
  express_app e (Parsed rq) = protected rq (fun u => datasetRoutes e u rq rest).
Proof.
  intros H. route_to H. destruct rest; reflexivity.
Qed.

Lemma mount_chat e rq rest :
  under ["api"; "chat"]%string (hr_path rq) = Some rest ->
  express_app e (Parsed rq)
  = protected rq (fun u => if hr_over_limit rq
                           then limited "Too many requests — slow down"
                           else chatRoutes e u rq rest).
Proof.
  intros H. route_to H. destruct rest; reflexivity.
Qed.

Lemma mount_history e rq rest :
  under ["api"; "history"]%string (hr_path rq) = Some rest ->
  express_app e (Parsed rq) = protected rq (fun u => chatRoutes e u rq rest).
Proof.
  intros H. route_to H. destruct rest; reflexivity.
Qed.

End Routing.

(** X6: a request to the application first meets the global
    middleware: [cors()] answers every OPTIONS request with 204, and a
    body the parsers reject goes to the error middleware, which answers
    500; both happen before any limiter, the session verifier or a
    route, whatever the path and whatever token is sent, and change
    nothing.  A request that got through, on every path below
    [/api/upload], [/api/chat] and [/api/history], whatever the method
    and the rest of the path, and that the session verifier refuses, is
    answered with the verifier's 401 and nothing else happens: no
    handler runs, the limiter of the chat mount is not reached, the
    world is unchanged. *)
Theorem protected_mounts_require_token `{RT : Runtime} `{VF : Verifier}
        e rq w rest r :
  under ["api"; "upload"]%string (hr_path rq) = Some rest
  \/ under ["api"; "chat"]%string (hr_path rq) = Some rest
  \/ under ["api"; "history"]%string (hr_path rq) = Some rest ->
  authMiddleware (hr_authorization rq) = inl r ->
  run (express_app e (Parsed rq)) w = (r, w) /\ status r = 401
  /\ run (express_app e Preflight) w
     = ({| status := 204; body := PNoContent |}, w)
  /\ run (express_app e BadBody) w
     = ({| status := 500; body := PError "Internal server error" |}, w).
Proof.
  intros Hm Ha.
  assert (Hst : status r = 401).
  { revert Ha. unfold authMiddleware.
    destruct (hr_authorization rq) as [[|c h]|];
      try (intros E; injection E as <-; reflexivity).
    destruct (jwt_verify _) as [[id name]|]; intros E; [discriminate|].
    injection E as <-; reflexivity. }
  split; [|split; [exact Hst|split; reflexivity]].
  destruct Hm as [H|[H|H]];
    [rewrite (mount_upload e rq H)|rewrite (mount_chat e rq H)
     |rewrite (mount_history e rq H)];
    unfold protected; rewrite Ha; destruct r; reflexivity.
Qed.

Lemma protected_mounts_require_token_witness :
  run (@express_app Sample.runtime Traffic.verifier (Sample.quiet 20)
         (Parsed (Traffic.anonymous POST [lit "api"; lit "chat"])))
      Scenario.two_users
  = ({| status := 401; body := PError "Unauthorized — No token provided" |},
     Scenario.two_users).
Proof.
  apply (proj1 (@protected_mounts_require_token Sample.runtime
                  Traffic.verifier (Sample.quiet 20)
                  (Traffic.anonymous POST [lit "api"; lit "chat"])
                  Scenario.two_users [] _
                  (or_intror (or_introl eq_refl)) eq_refl)).
Defined.

(** X7: the history route is served at [/api/history/history] and at
    [/api/chat/history], where the chat router is mounted; a GET or
    HEAD of [/api/history] itself matches no route of that router
    and, for an authenticated caller, ends in the 404 handler. *)
Theorem history_is_served_below_the_mounts `{RT : Runtime} `{VF : Verifier}
        e rq w u x y :
  authMiddleware (hr_authorization rq) = inr u ->
  reads (hr_method rq) = true ->
  seg_is x "api" = true ->
  (hr_path rq = [x; y] -> seg_is y "history" = true ->
   run (express_app e (Parsed rq)) w
   = ({| status := 404; body := PError "Route not found" |}, w))
  /\ (forall z,
        hr_path rq = [x; y; z] -> seg_is y "history" = true ->
        seg_is z "history" = true ->
        run (express_app e (Parsed rq)) w
        = run (history e (id_user u) (hr_query_dataset_id rq)) w)
  /\ (forall z,
        hr_path rq = [x; y; z] -> seg_is y "chat" = true ->
        seg_is z "history" = true -> hr_over_limit rq = false ->
        run (express_app e (Parsed rq)) w
        = run (history e (id_user u) (hr_query_dataset_id rq)) w).
Proof.
  intros Ha Hm Hx.
  assert (Hp : posts (hr_method rq) = false)
    by (destruct (hr_method rq); try discriminate; reflexivity).
  split; [|split].
  - intros Hpath Hy.
    assert (H : under ["api"; "history"]%string (hr_path rq) = Some [])
      by (rewrite Hpath; simpl; rewrite Hx, Hy; reflexivity).
    rewrite (mount_history e rq H). unfold protected. rewrite Ha.
    unfold chatRoutes. rewrite Hp. reflexivity.
  - intros z Hpath Hy Hz.
    assert (H : under ["api"; "history"]%string (hr_path rq) = Some [z])
      by (rewrite Hpath; simpl; rewrite Hx, Hy; reflexivity).
    rewrite (mount_history e rq H). unfold protected. rewrite Ha.
    unfold chatRoutes. rewrite Hm, Hz. reflexivity.
  - intros z Hpath Hy Hz Hl.
    assert (H : under ["api"; "chat"]%string (hr_path rq) = Some [z])
      by (rewrite Hpath; simpl; rewrite Hx, Hy; reflexivity).
    rewrite (mount_chat e rq H). unfold protected. rewrite Ha, Hl.
    unfold chatRoutes. rewrite Hm, Hz. reflexivity.
Qed.

Lemma history_is_served_below_the_mounts_witness :
  run (@express_app Sample.runtime Traffic.verifier (Sample.quiet 20)
         (Parsed (Traffic.from_alice GET [lit "api"; lit "history"])))
      Scenario.two_users
  = ({| status := 404; body := PError "Route not found" |},
     Scenario.two_users)
  /\ status
       (fst (run (@express_app Sample.runtime Traffic.verifier
                    (Sample.quiet 20)
                    (Parsed (Traffic.from_alice GET
                       [lit "api"; lit "history"; lit "history"])))
                 Scenario.two_users)) = 200.
Proof.
  split.
  - apply (proj1 (@history_is_served_below_the_mounts
                    Sample.runtime Traffic.verifier (Sample.quiet 20)
                    (Traffic.from_alice GET [lit "api"; lit "history"])
                    Scenario.two_users
                    {| id_user := 1; id_username := lit "alice" |}
                    (lit "api") (lit "history")
                    eq_refl eq_refl eq_refl));
      reflexivity.
  - rewrite (proj1 (proj2 (@history_is_served_below_the_mounts
                    Sample.runtime Traffic.verifier (Sample.quiet 20)
                    (Traffic.from_alice GET
                       [lit "api"; lit "history"; lit "history"])
                    Scenario.two_users
                    {| id_user := 1; id_username := lit "alice" |}
                    (lit "api") (lit "history")
                    eq_refl eq_refl eq_refl))
               (lit "history") eq_refl eq_refl eq_refl).
    vm_compute. reflexivity.
Defined.

(** X8: the chat route is reachable through two mounts, and only one
    of them is behind the chat limiter: an authenticated POST to
    [/api/chat] from a client over the limit is answered 429 and
    changes nothing, while the same POST to [/api/history] is handed
    to the chat route as if there were no limit. *)
Theorem chat_limiter_guards_one_mount `{RT : Runtime} `{VF : Verifier}
        e rq w u x y :
  authMiddleware (hr_authorization rq) = inr u ->
  hr_method rq = POST -> hr_path rq = [x; y] -> seg_is x "api" = true ->
  (seg_is y "chat" = true -> hr_over_limit rq = true ->
   run (express_app e (Parsed rq)) w
   = ({| status := 429; body := PError "Too many requests — slow down" |},
      w))
  /\ (seg_is y "chat" = true -> hr_over_limit rq = false ->
      run (express_app e (Parsed rq)) w
      = run (chat e (id_user u) (hr_dataset_id rq) (hr_question rq)
                  (hr_context rq)) w)
  /\ (seg_is y "history" = true ->
      run (express_app e (Parsed rq)) w
      = run (chat e (id_user u) (hr_dataset_id rq) (hr_question rq)
                  (hr_context rq)) w).
Proof.
  intros Ha Hm Hpath Hx. split; [|split].
  - intros Hy Hl.
    assert (H : under ["api"; "chat"]%string (hr_path rq) = Some [])
      by (rewrite Hpath; simpl; rewrite Hx, Hy; reflexivity).
    rewrite (mount_chat e rq H). unfold protected. rewrite Ha, Hl.
    reflexivity.
  - intros Hy Hl.
    assert (H : under ["api"; "chat"]%string (hr_path rq) = Some [])
      by (rewrite Hpath; simpl; rewrite Hx, Hy; reflexivity).
    rewrite (mount_chat e rq H). unfold protected. rewrite Ha, Hl.
    unfold chatRoutes. rewrite Hm. reflexivity.
  - intros Hy.
    assert (H : under ["api"; "history"]%string (hr_path rq) = Some [])
      by (rewrite Hpath; simpl; rewrite Hx, Hy; reflexivity).
    rewrite (mount_history e rq H). unfold protected. rewrite Ha.
    unfold chatRoutes. rewrite Hm. reflexivity.
Qed.

Lemma chat_limiter_guards_one_mount_witness :
  status (fst (run (@express_app Sample.runtime Traffic.verifier
                      (Sample.answering 20 Scenario.answer_only)
                      (Parsed (Traffic.from_alice POST [lit "api"; lit "chat"])))
                   Scenario.two_users)) = 429
  /\ status (fst (run (@express_app Sample.runtime Traffic.verifier
                         (Sample.answering 20 Scenario.answer_only)
                         (Parsed (Traffic.from_alice POST [lit "api"; lit "history"])))
                      Scenario.two_users)) = 200.
Proof.
  destruct (@chat_limiter_guards_one_mount Sample.runtime Traffic.verifier
              (Sample.answering 20 Scenario.answer_only)
              (Traffic.from_alice POST [lit "api"; lit "chat"])
              Scenario.two_users
              {| id_user := 1; id_username := lit "alice" |}
              (lit "api") (lit "chat") eq_refl eq_refl eq_refl eq_refl)
    as (H1 & _).
  destruct (@chat_limiter_guards_one_mount Sample.runtime Traffic.verifier
              (Sample.answering 20 Scenario.answer_only)
              (Traffic.from_alice POST [lit "api"; lit "history"])
              Scenario.two_users
              {| id_user := 1; id_username := lit "alice" |}
              (lit "api") (lit "history") eq_refl eq_refl eq_refl eq_refl)
    as (_ & _ & H3).
  split.
  - rewrite (H1 eq_refl eq_refl). reflexivity.
  - rewrite (H3 eq_refl). vm_compute. reflexivity.
Defined.

Section AppRuns.

Context `{RT : Runtime} `{VF : Verifier}.

Lemma run_send st p w :
  run (send st p) w = ({| status := st; body := p |}, w).
Proof. reflexivity. Qed.



End AppRuns.



(** ** Routes that only read *)

Section ReadOnly.

Context `{RT : Runtime}.

Lemma login_world e u p w : snd (run (login e u p) w) = w.
Proof.
  apply (post_run _ _ (fun _ w' => w' = w)). unfold login. wp; reflexivity.
Qed.

Lemma list_datasets_world e uid w : snd (run (list_datasets e uid) w) = w.
Proof.
  apply (post_run _ _ (fun _ w' => w' = w)).
  unfold list_datasets. wp; reflexivity.
Qed.

Lemma history_world e uid i w : snd (run (history e uid i) w) = w.
Proof.
  apply (post_run _ _ (fun _ w' => w' = w)). unfold history. wp; reflexivity.
Qed.

Lemma health_world e w : snd (run (health e) w) = w.
Proof.
  apply (post_run _ _ (fun _ w' => w' = w)).
  unfold health, axios_get_health. wp; reflexivity.
Qed.

End ReadOnly.

(** X10: a GET or HEAD request never changes anything, whatever its
    path, headers and parameters: the routes it can reach (health,
    dataset listing, history) only read, and everything else ends in
    a 401, 429 or 404 answer; a login, although a POST, changes
    nothing either. *)
Theorem reading_requests_change_nothing `{RT : Runtime} `{VF : Verifier}
        e rq w :
  (reads (hr_method rq) = true -> snd (run (express_app e (Parsed rq)) w) = w)
  /\ (forall u p, snd (run (login e u p) w) = w).
Proof.
  split; [|intros u p; apply login_world].
  intros Hm.
  assert (Hp : posts (hr_method rq) = false)
    by (destruct (hr_method rq); try discriminate; reflexivity).
  unfold express_app, routes.
  destruct (is_health rq); [apply health_world|].
  unfold mounts, protected, limited, route_not_found.
  destruct (under _ _) as [rest|].
  { destruct (hr_over_limit rq); [reflexivity|].
    unfold authRoutes, route_not_found. rewrite Hp.
    destruct rest as [|s [|]]; reflexivity. }
  destruct (under _ _) as [rest|].
  { destruct (authMiddleware _) as [r|u]; [reflexivity|].
    unfold datasetRoutes, route_not_found. rewrite Hp.
    destruct rest as [|s [|]]; try reflexivity.
    destruct (reads _ && seg_is s "datasets");
      [apply list_datasets_world|reflexivity]. }
  destruct (under _ _) as [rest|].
  { destruct (authMiddleware _) as [r|u]; [reflexivity|].
    destruct (hr_over_limit rq); [reflexivity|].
    unfold chatRoutes, route_not_found. rewrite Hp.
    destruct rest as [|s [|]]; try reflexivity.
    destruct (reads _ && seg_is s "history");
      [apply history_world|reflexivity]. }
  destruct (under _ _) as [rest|]; [|reflexivity].
  destruct (authMiddleware _) as [r|u]; [reflexivity|].
  unfold chatRoutes, route_not_found. rewrite Hp.
  destruct rest as [|s [|]]; try reflexivity.
  destruct (reads _ && seg_is s "history");
    [apply history_world|reflexivity].
Qed.

Lemma reading_requests_change_nothing_witness :
  snd (run (@express_app Sample.runtime Traffic.verifier (Sample.quiet 20)
              (Parsed (Traffic.from_alice GET
                 [lit "api"; lit "upload"; lit "datasets"])))
           Scenario.two_users)
  = Scenario.two_users.
Proof.
  apply (proj1 (@reading_requests_change_nothing Sample.runtime
                  Traffic.verifier (Sample.quiet 20)
                  (Traffic.from_alice GET
                     [lit "api"; lit "upload"; lit "datasets"])
                  Scenario.two_users)).
  reflexivity.
Defined.

(** ** Uploads: what is refused and what is recorded *)

Lemma startsWith_spec (s p : jsstring) :
  startsWith s p = true <-> exists t, s = p ++ t.
Proof.
  split.
  - revert s. induction p as [|y p IH]; intros s H; [exists s; reflexivity|].
    destruct s as [|x s]; [discriminate|]. simpl in H.
    apply andb_true_iff in H as [Hx Hs]. apply N.eqb_eq in Hx. subst y.
    destruct (IH s Hs) as [t ->]. exists t. reflexivity.
  - intros [t ->]. apply startsWith_app.
Qed.

Lemma endsWith_spec (s p : jsstring) :
  endsWith s p = true <-> exists stem, s = stem ++ p.
Proof.
  unfold endsWith. rewrite startsWith_spec. split.
  - intros [t E]. exists (rev t).
    apply (f_equal (@rev N)) in E.
    rewrite rev_involutive, rev_app_distr, rev_involutive in E. exact E.
  - intros [stem ->]. exists (rev stem). apply rev_app_distr.
Qed.

(** X11: the file filter accepts exactly the names whose last four
    code units read [.csv] in any letter case; an upload without a
    file part, with a name the filter refuses, or longer than
    10 MiB is answered 400, 400 and 413 and leaves disk and tables
    untouched; a file of exactly 10 MiB is not refused for its size. *)
Theorem upload_refusals_write_nothing `{RT : Runtime} e uid w :
  (forall f,
      fileFilter f = true
      <-> exists stem ext,
          originalname f = stem ++ ext /\ toLowerCase ext = lit ".csv")
  /\ run (upload e uid None) w
     = ({| status := 400; body := PError "No file uploaded" |}, w)
  /\ (forall f,
        fileFilter f = false ->
        run (upload e uid (Some f)) w
        = ({| status := 400; body := PError "Only CSV files are allowed" |},
           w))
  /\ (forall f,
        fileFilter f = true -> fileSize_limit < size f ->
        run (upload e uid (Some f)) w
        = ({| status := 413; body := PError "File too large — 10 MB max" |},
           w))
  /\ (forall f,
        fileFilter f = true -> size f = fileSize_limit ->
        upload_single e uid (Some f) w
        = (Stored (stored_path e uid f) (originalname f),
           write_file (stored_path e uid f) (content f) w)).
Proof.
  split; [|split; [|split; [|split]]].
  - intros f. unfold fileFilter. rewrite endsWith_spec. split.
    + intros [stem E]. unfold toLowerCase in E.
      apply map_eq_app in E as (l1 & l2 & E0 & E1 & E2).
      exists l1, l2. auto.
    + intros (stem & ext & -> & E). exists (toLowerCase stem).
      unfold toLowerCase in *. rewrite map_app, E. reflexivity.
  - reflexivity.
  - intros f Hf. unfold run, upload, upload_single. rewrite Hf. reflexivity.
  - intros f Hf Hs. unfold run, upload, upload_single. rewrite Hf.
    cbn [negb]. apply Z.ltb_lt in Hs. rewrite Hs. reflexivity.
  - intros f Hf Hs. unfold upload_single. rewrite Hf, Hs. reflexivity.
Qed.

Lemma upload_refusals_write_nothing_witness :
  run (@upload Sample.runtime (Sample.quiet 20) 1
         (Some {| originalname := lit "report.csv.exe"; size := 10;
                  content := lit "a,b" |}))
      Scenario.two_users
  = ({| status := 400; body := PError "Only CSV files are allowed" |},
     Scenario.two_users).
Proof.
  apply (proj1 (proj2 (proj2 (@upload_refusals_write_nothing
                                Sample.runtime (Sample.quiet 20) 1
                                Scenario.two_users)))).
  reflexivity.
Defined.

Section UploadEffect.

Context `{RT : Runtime}.
Hypothesis dirname_absolute : Path.isAbsolute dirname = true.

Lemma read_file_remove_other p q fs :
  str_eqb q p = false -> read_file p (remove_file q fs) = read_file p fs.
Proof.
  intros Hne. induction fs as [|[x c] fs IH]; simpl; [reflexivity|].
  destruct (str_eqb x q) eqn:Exq.
  - apply str_eqb_spec in Exq. subst x. rewrite Hne. exact IH.
  - simpl. destruct (str_eqb x p); [reflexivity|exact IH].
Qed.

Lemma read_file_kept p q c (w : world) :
  read_file p (files w) <> None ->
  read_file p (files (write_file q c w)) <> None.
Proof.
  intros H. simpl. destruct (str_eqb q p) eqn:E; [discriminate|].
  rewrite read_file_remove_other by exact E. exact H.
Qed.

(** The two ways an upload can end: without a row, and then no file
    has gone from the disk; or with status 201, the file written and
    its row appended. *)
Lemma upload_world e uid part w :
  (db (snd (run (upload e uid part) w)) = db w
   /\ status (fst (run (upload e uid part) w)) <> 201
   /\ (forall p, read_file p (files w) <> None ->
                 read_file p (files (snd (run (upload e uid part) w)))
                 <> None))
  \/ exists f,
      part = Some f /\ fileFilter f = true /\ size f <= fileSize_limit
      /\ no_valid_headers (header_columns (content f)) = false
      /\ store_writes e = true /\ user_exists (db w) uid = true
      /\ fst (run (upload e uid part) w)
         = {| status := 201;
              body := PUploaded (seq_datasets (db w) + 1) (originalname f)
                                (schema_object (header_columns (content f))) |}
      /\ snd (run (upload e uid part) w)
         = with_db (write_file (stored_path e uid f) (content f) w)
                   (push_dataset (db w) uid (stored_path e uid f)
                      (originalname f)
                      (Some (JSON_stringify
                               (schema_object (header_columns (content f)))))
                      (now_s e)).
Proof.
  destruct part as [f|]; [|left; repeat split; auto; discriminate].
  destruct (fileFilter f) eqn:Hf.
  2:{ left. unfold run, upload, upload_single. rewrite Hf.
      repeat split; auto; discriminate. }
  destruct (fileSize_limit <? size f) eqn:Hs.
  { left. unfold run, upload, upload_single. rewrite Hf, Hs.
    repeat split; auto; discriminate. }
  apply Z.ltb_ge in Hs. rewrite upload_accepted by assumption.
  destruct (no_valid_headers _) eqn:Hh.
  { left. repeat split; [discriminate|]. intros p. apply read_file_kept. }
  unfold insert_dataset.
  destruct (store_writes e) eqn:Hw; cbn [negb].
  2:{ left. repeat split; [discriminate|]. intros p. apply read_file_kept. }
  change (db (write_file (stored_path e uid f) (content f) w)) with (db w).
  destruct (user_exists (db w) uid) eqn:Hu; cbn [negb].
  2:{ left. repeat split; [discriminate|]. intros p. apply read_file_kept. }
  right. exists f. repeat split; auto.
Qed.

Lemma register_files e u p w : files (snd (run (register e u p) w)) = files w.
Proof.
  destruct (register_world e u p w) as [->|(name & hash & _ & _ & ->)];
    reflexivity.
Qed.

Lemma chat_files e uid i q c w :
  files (snd (run (chat e uid i q c) w)) = files w.
Proof. destruct (chat_run e uid i q c w); reflexivity. Qed.

Lemma chat_datasets e uid i q c w :
  datasets (db (snd (run (chat e uid i q c) w))) = datasets (db w).
Proof. destruct (chat_run e uid i q c w); reflexivity. Qed.

(** What a request does to datasets and disk together. *)
Lemma serve_datasets e rq w :
  (datasets (db (snd (serve e rq w))) = datasets (db w)
   /\ seq_datasets (db (snd (serve e rq w))) = seq_datasets (db w)
   /\ (forall p, read_file p (files w) <> None ->
                 read_file p (files (snd (serve e rq w))) <> None))
  \/ exists uid f,
      fileFilter f = true
      /\ no_valid_headers (header_columns (content f)) = false
      /\ datasets (db (snd (serve e rq w)))
         = datasets (db w) ++ [upload_row e uid f (db w)]
      /\ files (snd (serve e rq w))
         = (stored_path e uid f, content f)
             :: remove_file (stored_path e uid f) (files w).
Proof.
  unfold serve. destruct rq; cbn [route].
  - left. rewrite register_files.
    destruct (register_world e username password w)
      as [->|(name & hash & _ & _ & ->)]; auto.
  - left. rewrite login_world. auto.
  - destruct (upload_world e uid part w)
      as [(Hdb & _ & Hfiles)|(f & _ & Hf & _ & Hh & _ & _ & _ & Hw)].
    + left. rewrite Hdb. auto.
    + right. exists uid, f. rewrite Hw. auto.
  - left. rewrite list_datasets_world. auto.
  - left. rewrite chat_files, chat_datasets.
    destruct (chat_run e uid dataset_id question context w); auto.
  - left. rewrite history_world. auto.
  - left. rewrite health_world. auto.
Qed.

Lemma upload_row_is_uploaded e uid f d :
  fileFilter f = true ->
  no_valid_headers (header_columns (content f)) = false ->
  uploaded_row (upload_row e uid f d).
Proof. intros Hf Hh. exists e, f. simpl. auto 10. Qed.

Lemma reachable_uploaded_rows w :
  reachable w -> Forall uploaded_row (datasets (db w)).
Proof.
  induction 1 as [|w e rq _ IH]; [constructor|].
  destruct (serve_datasets e rq w)
    as [(-> & _)|(uid & f & Hf & Hh & -> & _)]; [exact IH|].
  apply Forall_app; split; [exact IH|].
  constructor; [apply upload_row_is_uploaded; assumption|constructor].
Qed.

Lemma reachable_files_present w :
  reachable w ->
  Forall (fun r => read_file (ds_file_path r) (files w) <> None)
         (datasets (db w)).
Proof.
  induction 1 as [|w e rq _ IH]; [constructor|].
  destruct (serve_datasets e rq w)
    as [(-> & _ & Hkeep)|(uid & f & Hf & Hh & -> & ->)].
  - eapply Forall_impl; [|exact IH]. intros r. apply Hkeep.
  - apply Forall_app; split.
    + eapply Forall_impl; [|exact IH]. intros r Hr.
      simpl. destruct (str_eqb _ _) eqn:E; [discriminate|].
      rewrite read_file_remove_other by exact E. exact Hr.
    + constructor; [|constructor]. simpl. rewrite str_eqb_refl. discriminate.
Qed.

Lemma uploaded_row_in_sandbox r :
  uploaded_row r ->
  Path.descendant (ds_file_path r) (safeBase (ds_user_id r)) = true
  /\ exists name,
      ds_file_path r = safeBase (ds_user_id r) ++ Path.slash :: name
      /\ Forall (fun c => allowed_unit c = true) name.
Proof.
  intros (e & f & _ & _ & Hp & _). rewrite Hp. split.
  - rewrite <- (stored_path_resolved dirname_absolute e (ds_user_id r) f)
      at 1.
    apply stored_path_descendant, dirname_absolute.
  - exists (uniqueName e (originalname f)).
    split; [apply stored_path_child, dirname_absolute
           |apply uniqueName_allowed].
Qed.

End UploadEffect.

(** X12: an upload is answered 201 exactly when the file passes the
    filter and the size limit, its header line has a usable first
    column, the uploader is a user and the store takes the insert;
    then the response carries the new id, the declared name and the
    columns, one dataset row is appended with the stored path, the
    declared name and the schema document of those columns, and the
    file is on disk under that path; any other answer leaves the
    tables as they were. *)
Theorem upload_records_what_it_stored `{RT : Runtime} e uid part w :
  Path.isAbsolute dirname = true ->
  (status (fst (run (upload e uid part) w)) = 201 <->
   exists f,
     part = Some f /\ fileFilter f = true /\ size f <= fileSize_limit
     /\ no_valid_headers (header_columns (content f)) = false
     /\ store_writes e = true /\ user_exists (db w) uid = true)
  /\ (forall f,
        part = Some f ->
        status (fst (run (upload e uid part) w)) = 201 ->
        body (fst (run (upload e uid part) w))
        = PUploaded (seq_datasets (db w) + 1) (originalname f)
                    (schema_object (header_columns (content f)))
        /\ datasets (db (snd (run (upload e uid part) w)))
           = datasets (db w) ++ [upload_row e uid f (db w)]
        /\ users (db (snd (run (upload e uid part) w))) = users (db w)
        /\ chat_history (db (snd (run (upload e uid part) w)))
           = chat_history (db w)
        /\ read_file (stored_path e uid f)
                     (files (snd (run (upload e uid part) w)))
           = Some (content f))
  /\ (status (fst (run (upload e uid part) w)) <> 201 ->
      db (snd (run (upload e uid part) w)) = db w).
Proof.
  intros Habs.
  destruct (upload_world Habs e uid part w)
    as [(Hdb & Hst & _)
       |(f & Hp & Hf & Hs & Hh & Hw & Hu & Hr & Hw')].
  - split; [|split].
    + split; [intros E; contradiction|].
      intros (f & -> & Hf & Hs & Hh & Hw & Hu). exfalso. apply Hst.
      rewrite upload_accepted by assumption. rewrite Hh.
      unfold insert_dataset. rewrite Hw. cbn [negb].
      change (db (write_file (stored_path e uid f) (content f) w))
        with (db w).
      rewrite Hu. reflexivity.
    + intros f _ E. contradiction.
    + auto.
  - rewrite Hr, Hw'. split; [|split].
    + split; [intros _; exists f; auto 10|reflexivity].
    + intros f' E _. rewrite Hp in E. injection E as <-.
      repeat split. simpl. rewrite str_eqb_refl. reflexivity.
    + intros E. contradiction E. reflexivity.
Qed.

Lemma upload_records_what_it_stored_witness :
  Path.isAbsolute (@dirname Sample.runtime) = true
  /\ status (fst (run (@upload Sample.runtime (Sample.quiet 2) 1
                         (Some Scenario.evil_csv)) Scenario.registered))
     = 201
  /\ map ds_original_name (datasets (db Scenario.uploaded))
     = [lit "../../evil.csv"].
Proof.
  split; [reflexivity|].
  destruct (@upload_records_what_it_stored Sample.runtime (Sample.quiet 2) 1
              (Some Scenario.evil_csv) Scenario.registered eq_refl)
    as (H1 & H2 & _).
  assert (H : status (fst (run (@upload Sample.runtime (Sample.quiet 2) 1
                         (Some Scenario.evil_csv)) Scenario.registered))
              = 201).
  { apply H1. exists Scenario.evil_csv.
    repeat split; try reflexivity. vm_compute; discriminate. }
  split; [exact H|].
  destruct (H2 Scenario.evil_csv eq_refl H) as (_ & Hd & _).
  unfold Scenario.uploaded, serve. cbn [route]. rewrite Hd.
  vm_compute. reflexivity.
Defined.

(** X13: in every world the server can reach, each dataset row is one
    an accepted upload wrote: its file path is the owner's upload
    directory followed by one name of allow-listed code units (a
    descendant of that directory), its declared name passed the
    [.csv] filter, and its schema document is the serialisation of the
    columns of a header line with a usable first column. *)
Theorem dataset_rows_lie_in_their_owners_directory `{RT : Runtime} w r :
  Path.isAbsolute dirname = true ->
  reachable w -> In r (datasets (db w)) ->
  Path.descendant (ds_file_path r) (safeBase (ds_user_id r)) = true
  /\ (exists name,
        ds_file_path r = safeBase (ds_user_id r) ++ Path.slash :: name
        /\ Forall (fun c => allowed_unit c = true) name)
  /\ endsWith (toLowerCase (ds_original_name r)) (lit ".csv") = true
  /\ (exists columns,
        no_valid_headers columns = false
        /\ ds_schema_json r
           = Some (JSON_stringify (schema_object columns)))
  /\ user_exists (db w) (ds_user_id r) = true.
Proof.
  intros Habs Hr Hin.
  pose proof (reachable_uploaded_rows Habs Hr) as Hrows.
  rewrite Forall_forall in Hrows. specialize (Hrows r Hin).
  destruct (uploaded_row_in_sandbox Habs Hrows) as [Hd Hn].
  destruct Hrows as (e & f & Hf & Hh & _ & Hname & Hs & _).
  repeat split; auto.
  - rewrite Hname. exact Hf.
  - eauto.
  - destruct (reachable_wf Hr) as (_ & _ & Hus & _).
    rewrite Forall_forall in Hus. auto.
Qed.

Lemma dataset_rows_lie_in_their_owners_directory_witness :
  Path.isAbsolute (@dirname Sample.runtime) = true
  /\ @reachable Sample.runtime Scenario.two_users
  /\ Forall (fun r => Path.descendant (ds_file_path r)
                        (@safeBase Sample.runtime (ds_user_id r)) = true)
            (datasets (db Scenario.two_users)).
Proof.
  assert (H : @reachable Sample.runtime Scenario.two_users)
    by (repeat apply reach_serve; apply reach_init).
  split; [reflexivity|]. split; [exact H|].
  apply Forall_forall. intros r Hin.
  exact (proj1 (@dataset_rows_lie_in_their_owners_directory
                  Sample.runtime Scenario.two_users r eq_refl H Hin)).
Defined.

Section FilesStay.

Context `{RT : Runtime}.
Hypothesis dirname_absolute : Path.isAbsolute dirname = true.

Lemma serve_keeps_files e rq w p :
  read_file p (files w) <> None ->
  read_file p (files (snd (serve e rq w))) <> None.
Proof.
  intros H.
  destruct (serve_datasets dirname_absolute e rq w)
    as [(_ & _ & Hkeep)|(uid & f & _ & _ & _ & ->)]; [auto|].
  simpl. destruct (str_eqb _ _) eqn:E; [discriminate|].
  rewrite read_file_remove_other by exact E. exact H.
Qed.

Lemma later_keeps_files w w' p :
  later w w' -> read_file p (files w) <> None ->
  read_file p (files w') <> None.
Proof.
  induction 1 as [|w' e rq _ IH]; intros H; auto using serve_keeps_files.
Qed.

End FilesStay.

(** X14: no request removes a file: a path that holds a file keeps
    holding one in every later world (an upload to the same path
    replaces the content); and in every reachable world each dataset
    row's file is on disk. *)
Theorem files_are_never_removed `{RT : Runtime} w w' :
  Path.isAbsolute dirname = true ->
  later w w' ->
  (forall p, read_file p (files w) <> None -> read_file p (files w') <> None)
  /\ (reachable w ->
      Forall (fun r => read_file (ds_file_path r) (files w') <> None)
             (datasets (db w'))).
Proof.
  intros Habs Hl. split.
  - intros p. apply later_keeps_files; assumption.
  - intros Hr. apply reachable_files_present; [exact Habs|].
    eapply later_reachable; eassumption.
Qed.

Lemma files_are_never_removed_witness :
  Path.isAbsolute (@dirname Sample.runtime) = true
  /\ @later Sample.runtime Scenario.uploaded Scenario.two_users
  /\ read_file (lit "/srv/dataweb/backend/uploads/user_1/2000_.._.._evil.csv")
               (files Scenario.two_users) <> None.
Proof.
  assert (Hl : @later Sample.runtime Scenario.uploaded Scenario.two_users).
  { unfold Scenario.two_users, Scenario.asked.
    do 2 apply later_serve. apply later_now. }
  split; [reflexivity|]. split; [exact Hl|].
  apply (proj1 (@files_are_never_removed Sample.runtime Scenario.uploaded
                  Scenario.two_users eq_refl Hl)).
  vm_compute. discriminate.
Defined.

(** ** Schema documents *)

Lemma in_drop_while f (s : jsstring) c : In c (drop_while f s) -> In c s.
Proof.
  induction s as [|x s IH]; simpl; [tauto|].
  destruct (f x); simpl; tauto.
Qed.

Lemma in_trim s c : In c (trim s) -> In c s.
Proof.
  unfold trim. rewrite <- in_rev. intros H.
  apply in_drop_while in H. rewrite <- in_rev in H.
  apply in_drop_while in H. exact H.
Qed.

Lemma in_strip_quotes s c : In c (strip_quotes s) -> In c s.
Proof.
  unfold strip_quotes.
  assert (H1 : forall x, In x (match s with 34%N :: r => r | _ => s end)
                         -> In x s).
  { intros x. destruct s as [|[|p] r]; simpl; auto.
    repeat (destruct p as [p|p|]; simpl; auto). }
  set (s1 := match s with 34%N :: r => r | _ => s end) in *.
  destruct (rev s1) as [|[|p] r] eqn:E; auto.
  assert (H2 : forall x, In x (rev r) -> In x s1).
  { intros x Hx. apply in_rev. rewrite E. right. apply in_rev. exact Hx. }
  repeat (destruct p as [p|p|]; auto).
Qed.

(** No column name of a header line holds a comma, and there is always
    at least one column. *)
Lemma header_columns_shape text :
  header_columns text <> []
  /\ Forall (fun c => ~ In 44%N c) (header_columns text).
Proof.
  unfold header_columns. split.
  - intros E. apply map_eq_nil in E. exact (split_on_nonempty _ _ E).
  - apply Forall_map. eapply Forall_impl; [|apply split_on_pieces].
    intros piece Hp Hin. apply Hp.
    apply in_trim, in_strip_quotes. exact Hin.
Qed.

Lemma invalid_schema_object columns :
  columns <> [] -> invalid_schema (schema_object columns) = false.
Proof.
  intros H. destruct columns as [|c l]; [contradiction H; reflexivity|].
  unfold invalid_schema, schema_object, get_prop. cbn [truthy negb orb assoc].
  change (str_eqb (lit "columns") (lit "columns")) with true. cbv iota.
  cbn [isArray negb orb array_length map List.length].
  apply Z.eqb_neq. lia.
Qed.

Lemma split_on_join c l :
  l <> [] -> Forall (fun p => ~ In c p) l ->
  split_on c (join_with [c] l) = l.
Proof.
  induction l as [|p r IH]; [congruence|]; intros _ H.
  inversion H; subst.
  destruct r as [|q r]; [apply split_on_single; assumption|].
  change (join_with [c] (p :: q :: r))
    with (p ++ c :: join_with [c] (q :: r)).
  rewrite split_on_app, (@split_on_single c p) by assumption.
  rewrite IH by (assumption || discriminate). reflexivity.
Qed.

Lemma skipn_app_exact {A} (a b : list A) : skipn (List.length a) (a ++ b) = b.
Proof. induction a; simpl; auto. Qed.

Lemma firstn_app_exact {A} (a b : list A) : firstn (List.length a) (a ++ b) = a.
Proof. induction a; simpl; f_equal; auto. Qed.

(** The concrete decoder undoes the concrete serialiser on schema
    objects. *)
Lemma sample_schema_round_trip : @schema_round_trip Sample.runtime.
Proof.
  intros columns Hc. cbn [JSON_parse JSON_stringify Sample.runtime].
  unfold schema_object, Sample.stringify, Sample.parse.
  set (inner := join_with [44%N] (map Sample.quoted (map JStr columns))).
  change (str_eqb (Sample.document_prefix ++ inner ++ Sample.document_suffix)
                  (lit "null")) with false.
  cbv iota. rewrite startsWith_app.
  assert (He : endsWith (Sample.document_prefix ++ inner
                           ++ Sample.document_suffix)
                        Sample.document_suffix = true).
  { apply endsWith_spec. exists (Sample.document_prefix ++ inner).
    rewrite <- app_assoc. reflexivity. }
  rewrite He. cbn [andb]. rewrite skipn_app_exact.
  replace (List.length (Sample.document_prefix ++ inner
                          ++ Sample.document_suffix)
           - List.length Sample.document_prefix
           - List.length Sample.document_suffix)%nat
    with (List.length inner)
    by (rewrite !length_app; lia).
  rewrite firstn_app_exact.
  destruct columns as [|c l]; [reflexivity|].
  assert (Hq : Forall (fun p => ~ In 44%N p)
                      (map Sample.quoted (map JStr (c :: l)))).
  { rewrite map_map. apply Forall_map. eapply Forall_impl; [|exact Hc].
    intros s Hs. simpl. intros [E|Hin]; [discriminate|].
    apply in_app_or in Hin as [Hin|[E|[]]]; [auto|discriminate]. }
  assert (Hne : inner <> []).
  { unfold inner. simpl. destruct (map Sample.quoted (map JStr l));
      discriminate. }
  destruct inner as [|x inner'] eqn:Ei; [contradiction Hne; reflexivity|].
  rewrite <- Ei. unfold inner. rewrite split_on_join by (discriminate || exact Hq).
  rewrite !map_map. do 5 f_equal. apply map_ext. intros s. simpl.
  rewrite removelast_last. reflexivity.
Qed.

Section OwnDataset.

Context `{RT : Runtime}.

(** Under its id and its owner a dataset is found, and it is the one
    found. *)
Lemma find_own_dataset d r :
  db_wf d -> In r (datasets d) ->
  find_dataset (Some (ds_id r)) (ds_user_id r) d = Some r.
Proof.
  intros (Hnd & _) Hin.
  destruct (find_dataset (Some (ds_id r)) (ds_user_id r) d) as [r'|] eqn:E.
  - apply find_dataset_some in E as (Hin' & Hk & _). injection Hk as Hk.
    f_equal. symmetry. eapply unique_dataset; eauto.
  - unfold find_dataset in E.
    pose proof (find_none _ _ E r Hin) as Hn. simpl in Hn.
    rewrite !Z.eqb_refl in Hn. discriminate.
Qed.

(** The INSERT of the chat route calls nobody and sends nothing. *)
Lemma run_insert_chat_quiet e args w :
  analyze_calls (snd (run_insert_chat e args w)) = analyze_calls w
  /\ forall r, fst (run_insert_chat e args w) <> Sent r.
Proof.
  assert (H : post (run_insert_chat e args) w
                (fun c w' => analyze_calls w' = analyze_calls w
                             /\ forall r, c <> Sent r))
    by (wp; split; try reflexivity; discriminate).
  unfold post in H. destruct (run_insert_chat e args w). exact H.
Qed.

(** Past the lookup and the schema check, a chat request makes its one
    call, for the dataset it found. *)
Lemma chat_reaches_analysis e uid i qs c p d schema w :
  well_formed_chat i (JStr qs) = true -> bind_value i = Some p ->
  store_reads e = true ->
  find_dataset (integer_key p) uid (db w) = Some d ->
  parse_column (ds_schema_json d) = Some schema ->
  invalid_schema schema = false ->
  analyze_calls (snd (run (chat e uid i (JStr qs) c) w))
  = analyze_calls w ++ [analysis_request d schema qs c]
  /\ In (status (fst (run (chat e uid i (JStr qs) c) w)))
        [200; 500; 503; 504].
Proof.
  intros Hwf Hb Hr Hf Hp Hi.
  destruct (well_formed_chat_inv _ _ Hwf) as (qs' & E & H1 & H2 & H3).
  injection E as <-.
  unfold run, chat, try_catch, bind, of_option, sql_select, send, ret,
    axios_post, throw.
  rewrite H1, H2, H3, Hb, Hr, Hf, Hp, Hi.
  fold (analysis_request d schema qs c).
  destruct (analyze e (analysis_request d schema qs c)) as [data|code].
  - cbv beta iota zeta.
    destruct (nullish data); cbv beta iota zeta;
      [split; [reflexivity|simpl; auto]|].
    match goal with
    | |- context [run_insert_chat e ?a ?w'] =>
        destruct (run_insert_chat_quiet e a w') as [Hc Hs];
        destruct (run_insert_chat e a w') as [[x|r|err] w'']
    end; cbn [fst snd analyze_calls] in *.
    + split; [exact Hc|simpl; auto].
    + contradiction (Hs r). reflexivity.
    + destruct (code_is err "ECONNABORTED");
        [split; [exact Hc|simpl; auto]|].
      destruct (code_is err "ECONNREFUSED");
        split; try exact Hc; simpl; auto.
  - unfold code_is; cbn [error_code].
    destruct code as [s|]; [|split; [reflexivity|simpl; auto]].
    destruct (String.eqb s "ECONNABORTED");
      [split; [reflexivity|simpl; auto]|].
    destruct (String.eqb s "ECONNREFUSED"); split; try reflexivity;
      simpl; auto.
Qed.

End OwnDataset.

(** X15: the schema documents the upload route writes always pass the
    chat route: in every world the server can reach, when [JSON.parse]
    undoes [JSON.stringify] on schema objects, a well-formed question
    of the owner about one of their datasets (store readable) is never
    answered 404 or 400; it makes exactly one call to the analysis
    service, carrying the row's file path, the non-empty column list
    the upload stored, the question and the context, and is answered
    200, 500, 503 or 504. *)
Theorem chat_on_own_dataset_reaches_the_analysis `{RT : Runtime}
        e w r i p qs c :
  Path.isAbsolute dirname = true -> schema_round_trip ->
  reachable w -> In r (datasets (db w)) ->
  bind_value i = Some p -> integer_key p = Some (ds_id r) ->
  well_formed_chat i (JStr qs) = true ->
  store_reads e = true ->
  exists columns,
    columns <> []
    /\ ds_schema_json r = Some (JSON_stringify (schema_object columns))
    /\ analyze_calls (snd (run (chat e (ds_user_id r) i (JStr qs) c) w))
       = analyze_calls w
         ++ [{| ar_file_path := ds_file_path r;
                ar_schema := schema_object columns;
                ar_question := qs;
                ar_context := js_or c (JArr []) |}]
    /\ In (status (fst (run (chat e (ds_user_id r) i (JStr qs) c) w)))
          [200; 500; 503; 504].
Proof.
  intros Habs Hrt Hreach Hin Hb Hk Hwf Hr.
  pose proof (reachable_uploaded_rows Habs Hreach) as Hrows.
  rewrite Forall_forall in Hrows.
  destruct (Hrows r Hin) as (e0 & f & _ & _ & _ & _ & Hs & _).
  destruct (header_columns_shape (content f)) as [Hne Hc].
  exists (header_columns (content f)).
  split; [exact Hne|]. split; [exact Hs|].
  eapply chat_reaches_analysis; try eassumption.
  - rewrite Hk. apply find_own_dataset; [apply reachable_wf|]; assumption.
  - rewrite Hs. simpl. apply Hrt, Hc.
  - apply invalid_schema_object, Hne.
Qed.

Lemma chat_on_own_dataset_reaches_the_analysis_witness :
  Path.isAbsolute (@dirname Sample.runtime) = true
  /\ @reachable Sample.runtime Scenario.uploaded
  /\ map ar_file_path
         (analyze_calls
            (snd (run (@chat Sample.runtime (Sample.quiet 3) 1 (JNum 1)
                         Scenario.how_many JUndefined) Scenario.uploaded)))
     = map ds_file_path (datasets (db Scenario.uploaded)).
Proof.
  assert (H : @reachable Sample.runtime Scenario.uploaded)
    by (repeat apply reach_serve; apply reach_init).
  split; [reflexivity|]. split; [exact H|].
  assert (Hin : In (@upload_row Sample.runtime (Sample.quiet 2) 1
                      Scenario.evil_csv (db Scenario.registered))
                   (datasets (db Scenario.uploaded)))
    by (vm_compute; left; reflexivity).
  destruct (@chat_on_own_dataset_reaches_the_analysis Sample.runtime
              (Sample.quiet 3) Scenario.uploaded
              (upload_row (Sample.quiet 2) 1 Scenario.evil_csv
                          (db Scenario.registered))
              (JNum 1) (SqlInt 1) (lit "how many rows?") JUndefined
              eq_refl sample_schema_round_trip H
              Hin eq_refl eq_refl eq_refl eq_refl)
    as (columns & _ & _ & Hcalls & _).
  unfold Scenario.how_many.
  change 1 with (ds_user_id (@upload_row Sample.runtime (Sample.quiet 2) 1
                               Scenario.evil_csv (db Scenario.registered)))
    at 1.
  rewrite Hcalls. reflexivity.
Defined.

Section Listing.

Context `{RT : Runtime}.
Hypothesis dirname_absolute : Path.isAbsolute dirname = true.
Hypothesis round_trip : schema_round_trip.

Lemma parse_rows_uploaded rows :
  Forall uploaded_row rows ->
  exists views, parse_rows rows = Some views /\ Forall2 shows views rows.
Proof.
  induction 1 as [|r rest (e & f & _ & _ & _ & _ & Hs & _) _ IH].
  - exists []. split; [reflexivity|constructor].
  - destruct IH as (views & Hv & Hall).
    destruct (header_columns_shape (content f)) as [Hne Hc].
    exists (view_of r (schema_object (header_columns (content f))) :: views).
    split.
    + cbn [parse_rows]. unfold view_of. rewrite Hs. cbn [parse_column].
      rewrite (round_trip Hc), Hv. reflexivity.
    + constructor; [|exact Hall].
      exists (header_columns (content f)). auto.
Qed.

Lemma shows_sorted views rows :
  Forall2 shows views rows ->
  StronglySorted (descending ds_uploaded_at) rows ->
  StronglySorted (descending dv_uploaded_at) views.
Proof.
  induction 1 as [|v r views rows (columns & _ & _ & _ & ->) Hall IH];
    intros Hs; [constructor|].
  inversion Hs as [|? ? Hs' Hr]; subst.
  constructor; [exact (IH Hs')|].
  clear IH Hs Hs'. induction Hall as [|v' r' ? ? (c' & _ & _ & _ & ->) _ IH'];
    [constructor|].
  inversion Hr; subst. constructor; [assumption|exact (IH' H2)].
Qed.

(** In a reachable world the listing of a readable store succeeds. *)
Lemma list_datasets_total e uid w :
  reachable w -> store_reads e = true ->
  exists views,
    run (list_datasets e uid) w
    = ({| status := 200; body := PDatasets views |}, w)
    /\ Forall2 shows views (datasets_of uid (db w)).
Proof.
  intros Hreach Hr.
  assert (Hrows : Forall uploaded_row (datasets_of uid (db w))).
  { pose proof (reachable_uploaded_rows dirname_absolute Hreach) as H.
    rewrite Forall_forall in *. intros r Hin. apply H.
    unfold datasets_of in Hin. apply order_by_desc_in in Hin.
    apply filter_In in Hin. tauto. }
  destruct (parse_rows_uploaded Hrows) as (views & Hp & Hall).
  exists views. split; [|exact Hall].
  unfold run, list_datasets, try_catch, bind, sql_select, of_option, send.
  rewrite Hr, Hp. reflexivity.
Qed.

(** Rows are only ever appended. *)
Lemma later_datasets w w' :
  later w w' -> exists l, datasets (db w') = datasets (db w) ++ l.
Proof.
  induction 1 as [|w' e rq _ (l & IH)]; [exists []; symmetry; apply app_nil_r|].
  destruct (serve_datasets dirname_absolute e rq w')
    as [(-> & _)|(uid & f & _ & _ & -> & _)].
  - exists l. exact IH.
  - rewrite IH, <- app_assoc. eauto.
Qed.

Lemma shows_in views rows r :
  Forall2 shows views rows -> In r rows ->
  exists v, In v views /\ shows v r.
Proof.
  induction 1 as [|v r' views rows Hv _ IH]; intros Hin; [contradiction|].
  destruct Hin as [<-|Hin].
  - exists v. split; [left; reflexivity|exact Hv].
  - destruct (IH Hin) as (v' & Hin' & Hs). exists v'. split;
      [right; exact Hin'|exact Hs].
Qed.

End Listing.

(** X16: in every world the server can reach, when [JSON.parse] undoes
    [JSON.stringify] on schema objects, the dataset listing of a
    readable store never fails: it is answered 200 and changes
    nothing, its entries are the caller's rows and no others, one
    entry per row in the order of the rows sorted by upload time,
    newest first, and each entry carries the row's id, declared name,
    schema document and upload time together with the decoded,
    non-empty column list. *)
Theorem listing_shows_the_callers_rows `{RT : Runtime} e uid w :
  Path.isAbsolute dirname = true -> schema_round_trip ->
  reachable w -> store_reads e = true ->
  exists views,
    run (list_datasets e uid) w
    = ({| status := 200; body := PDatasets views |}, w)
    /\ Forall2 shows views (datasets_of uid (db w))
    /\ (forall r, In r (datasets_of uid (db w))
                  <-> In r (datasets (db w)) /\ ds_user_id r = uid)
    /\ StronglySorted (descending dv_uploaded_at) views.
Proof.
  intros Habs Hrt Hreach Hr.
  destruct (@list_datasets_total RT Habs Hrt e uid w Hreach Hr)
    as (views & Hrun & Hall).
  exists views. split; [exact Hrun|]. split; [exact Hall|]. split.
  - intros r. unfold datasets_of.
    rewrite order_by_desc_in, filter_In, Z.eqb_eq. tauto.
  - eapply shows_sorted; [exact Hall|]. apply order_by_desc_sorted.
Qed.

Lemma listing_shows_the_callers_rows_witness :
  Path.isAbsolute (@dirname Sample.runtime) = true
  /\ @reachable Sample.runtime Scenario.two_users
  /\ status (fst (run (@list_datasets Sample.runtime (Sample.quiet 10) 1)
                      Scenario.two_users)) = 200.
Proof.
  assert (H : @reachable Sample.runtime Scenario.two_users)
    by (repeat apply reach_serve; apply reach_init).
  split; [reflexivity|]. split; [exact H|].
  destruct (@listing_shows_the_callers_rows Sample.runtime (Sample.quiet 10)
              1 Scenario.two_users eq_refl sample_schema_round_trip H eq_refl)
    as (views & -> & _).
  reflexivity.
Defined.

(** X17: dataset rows are only ever appended, and what an upload
    acknowledged shows up in the listing from then on: after an upload
    answered 201, in every later world the uploader's listing
    (store readable) is answered 200 and holds an entry with the id
    the upload returned, the declared name, and the columns the upload
    returned. *)
Theorem uploaded_dataset_is_listed `{RT : Runtime} e e' uid f w w' :
  Path.isAbsolute dirname = true -> schema_round_trip ->
  reachable w ->
  status (fst (run (upload e uid (Some f)) w)) = 201 ->
  later (snd (run (upload e uid (Some f)) w)) w' ->
  store_reads e' = true ->
  (exists l, datasets (db w')
             = datasets (db w) ++ upload_row e uid f (db w) :: l)
  /\ exists views,
      fst (run (list_datasets e' uid) w')
      = {| status := 200; body := PDatasets views |}
      /\ In (view_of (upload_row e uid f (db w))
                     (schema_object (header_columns (content f))))
            views.
Proof.
  intros Habs Hrt Hreach Hst Hlater Hr.
  destruct (upload_world Habs e uid (Some f) w)
    as [(_ & Hno & _)|(f' & E & Hf & _ & Hh & _ & _ & _ & Hw)];
    [contradiction|].
  injection E as <-.
  destruct (later_datasets Habs Hlater) as (l & Hd).
  rewrite Hw in Hd. cbn [db with_db datasets push_dataset] in Hd.
  change (db (write_file ?p ?c w)) with (db w) in Hd.
  assert (Hrows : datasets (db w')
                  = datasets (db w) ++ upload_row e uid f (db w) :: l).
  { rewrite Hd, <- app_assoc. reflexivity. }
  split; [exists l; exact Hrows|].
  assert (Hreach' : reachable w').
  { eapply later_reachable; [exact Hlater|].
    exact (reach_serve e (Upload uid (Some f)) Hreach). }
  destruct (@list_datasets_total RT Habs Hrt e' uid w' Hreach' Hr)
    as (views & Hrun & Hall).
  exists views. rewrite Hrun. split; [reflexivity|].
  assert (Hin : In (upload_row e uid f (db w)) (datasets_of uid (db w'))).
  { unfold datasets_of. rewrite order_by_desc_in, filter_In, Hrows.
    split; [apply in_or_app; right; left; reflexivity|].
    simpl. apply Z.eqb_refl. }
  destruct (@shows_in RT _ _ _ Hall Hin)
    as (v & Hv & columns & _ & Hc' & Hs & ->).
  cbn [ds_schema_json upload_row] in Hs. injection Hs as Hs.
  destruct (header_columns_shape (content f)) as [_ Hc].
  pose proof (Hrt _ Hc) as H1. pose proof (Hrt _ Hc') as H2.
  assert (E : schema_object columns
              = schema_object (header_columns (content f))) by congruence.
  rewrite <- E. exact Hv.
Qed.

Lemma uploaded_dataset_is_listed_witness :
  Path.isAbsolute (@dirname Sample.runtime) = true
  /\ status (fst (run (@upload Sample.runtime (Sample.quiet 2) 1
                         (Some Scenario.evil_csv)) Scenario.registered))
     = 201
  /\ exists views,
      fst (run (@list_datasets Sample.runtime (Sample.quiet 10) 1)
               Scenario.two_users)
      = {| status := 200; body := PDatasets views |}
      /\ In (view_of (@upload_row Sample.runtime (Sample.quiet 2) 1
                        Scenario.evil_csv (db Scenario.registered))
                     (schema_object
                        (header_columns (content Scenario.evil_csv))))
            views.
Proof.
  assert (Hreach : @reachable Sample.runtime Scenario.registered)
    by (repeat apply reach_serve; apply reach_init).
  assert (Hst : status (fst (run (@upload Sample.runtime (Sample.quiet 2) 1
                                    (Some Scenario.evil_csv))
                                 Scenario.registered)) = 201)
    by (vm_compute; reflexivity).
  assert (Hlater : @later Sample.runtime
                     (snd (run (@upload Sample.runtime (Sample.quiet 2) 1
                                  (Some Scenario.evil_csv))
                               Scenario.registered))
                     Scenario.two_users).
  { change (@later Sample.runtime Scenario.uploaded Scenario.two_users).
    unfold Scenario.two_users, Scenario.asked.
    do 2 apply later_serve. apply later_now. }
  split; [reflexivity|]. split; [exact Hst|].
  exact (proj2 (@uploaded_dataset_is_listed Sample.runtime (Sample.quiet 2)
                  (Sample.quiet 10) 1 Scenario.evil_csv Scenario.registered
                  Scenario.two_users eq_refl sample_schema_round_trip
                  Hreach Hst Hlater eq_refl)).
Defined.

Section Apart.

Context `{RT : Runtime}.
Hypothesis dirname_absolute : Path.isAbsolute dirname = true.

Import Path PathFacts.

Lemma uint_units_inj d : forall d', uint_units d = uint_units d' -> d = d'.
Proof.
  induction d; intros [] H; simpl in H; try discriminate;
    try reflexivity; injection H as H; f_equal; auto.
Qed.

(** Different integers read differently. *)
Lemma number_text_inj a b : number_text a = number_text b -> a = b.
Proof.
  unfold number_text. intros H.
  rewrite <- (DecimalZ.of_to a), <- (DecimalZ.of_to b).
  destruct (Z.to_int a) as [d|d], (Z.to_int b) as [d'|d'].
  - apply uint_units_inj in H. congruence.
  - pose proof (uint_units_digits d) as Hd. rewrite H in Hd.
    inversion Hd; subst. lia.
  - pose proof (uint_units_digits d') as Hd. rewrite <- H in Hd.
    inversion Hd; subst. lia.
  - injection H as H. apply uint_units_inj in H. congruence.
Qed.

Lemma sandbox_segs_inj u1 u2 : sandbox_segs u1 = sandbox_segs u2 -> u1 = u2.
Proof.
  unfold sandbox_segs. intros H. apply app_inv_head in H.
  injection H as H. exact (number_text_inj _ _ H).
Qed.

Lemma strict_prefix_app p a b :
  strict_prefix (p ++ a) (p ++ b) = strict_prefix a b.
Proof.
  induction p as [|x p IH]; simpl; [reflexivity|].
  rewrite str_eqb_refl. exact IH.
Qed.

(** Nothing in one user's directory is below another user's. *)
Lemma other_sandbox u1 u2 name :
  u1 <> u2 ->
  strict_prefix (sandbox_segs u2) (sandbox_segs u1 ++ [name]) = false.
Proof.
  intros Hne. unfold sandbox_segs. rewrite <- app_assoc, strict_prefix_app.
  cbn [app strict_prefix]. rewrite str_eqb_refl. cbn [andb].
  destruct (str_eqb _ _) eqn:E; [|reflexivity].
  apply str_eqb_spec in E.
  change (lit "user_" ++ ?x) with (117 :: 115 :: 101 :: 114 :: 95 :: x)%N in E.
  injection E as E. apply number_text_inj in E.
  contradiction Hne. congruence.
Qed.

Lemma stored_path_segments e uid f :
  segments (stored_path e uid f)
  = sandbox_segs uid ++ [uniqueName e (originalname f)].
Proof.
  rewrite stored_path_abs by assumption.
  apply segments_abs_path.
  - destruct (sandbox_segs uid); discriminate.
  - apply Forall_app; split; [apply sandbox_segs_clean|].
    constructor; [apply uniqueName_clean|constructor].
Qed.

Lemma safeBase_segments uid : segments (safeBase uid) = sandbox_segs uid.
Proof.
  rewrite safeBase_abs by assumption.
  apply segments_abs_path;
    [apply sandbox_segs_nonempty|apply sandbox_segs_clean].
Qed.

(** Up to its first occurrence of a unit a text is read in one way. *)
Lemma first_unit_split (c : N) a : forall b x y,
  ~ In c a -> ~ In c b -> a ++ c :: x = b ++ c :: y -> a = b /\ x = y.
Proof.
  induction a as [|h a IH]; intros [|k b] x y Ha Hb H; simpl in *.
  - injection H as H. auto.
  - injection H as H _. contradiction Hb. auto.
  - injection H as H _. contradiction Ha. auto.
  - injection H as Hh H. subst k.
    destruct (IH b x y) as [-> ->]; auto.
Qed.

Lemma number_text_no_underscore z : ~ In 95%N (number_text z).
Proof.
  intros Hin. pose proof (number_text_units z) as H.
  rewrite Forall_forall in H. destruct (H _ Hin) as [E|E];
    [discriminate|lia].
Qed.

(** When two stored paths are one. *)
Lemma stored_path_inj e1 e2 u1 u2 f1 f2 :
  stored_path e1 u1 f1 = stored_path e2 u2 f2 ->
  u1 = u2 /\ now_ms e1 = now_ms e2
  /\ safeName (originalname f1) = safeName (originalname f2).
Proof.
  intros H. apply (f_equal segments) in H.
  rewrite !stored_path_segments in H.
  apply app_inj_tail in H as [Hs Hn].
  split; [exact (sandbox_segs_inj _ _ Hs)|].
  unfold uniqueName in Hn.
  apply first_unit_split in Hn as [Hms Hname];
    try apply number_text_no_underscore.
  split; [exact (number_text_inj _ _ Hms)|exact Hname].
Qed.

End Apart.

(** X18: the upload directories keep users apart on disk: in every
    world the server can reach, two dataset rows of different owners
    never name the same file, the owners' directories differ, and the
    file of one lies nowhere below the directory of the other. *)
Theorem users_files_are_apart `{RT : Runtime} w r1 r2 :
  Path.isAbsolute dirname = true ->
  reachable w -> In r1 (datasets (db w)) -> In r2 (datasets (db w)) ->
  ds_user_id r1 <> ds_user_id r2 ->
  ds_file_path r1 <> ds_file_path r2
  /\ safeBase (ds_user_id r1) <> safeBase (ds_user_id r2)
  /\ Path.descendant (ds_file_path r1) (safeBase (ds_user_id r2)) = false
  /\ Path.descendant (ds_file_path r1) (safeBase (ds_user_id r1)) = true.
Proof.
  intros Habs Hreach H1 H2 Hne.
  pose proof (reachable_uploaded_rows Habs Hreach) as Hrows.
  rewrite Forall_forall in Hrows.
  pose proof (proj1 (uploaded_row_in_sandbox Habs (Hrows r1 H1))) as Hown.
  destruct (Hrows r1 H1) as (e1 & f1 & _ & _ & Hp1 & _).
  destruct (Hrows r2 H2) as (e2 & f2 & _ & _ & Hp2 & _).
  split; [|split; [|split]].
  - rewrite Hp1, Hp2. intros E.
    apply (stored_path_inj Habs) in E as [E _]. contradiction.
  - intros E. apply (f_equal Path.segments) in E.
    rewrite !(safeBase_segments Habs) in E.
    apply sandbox_segs_inj in E. contradiction.
  - unfold Path.descendant.
    rewrite Hp1, (stored_path_segments Habs), (safeBase_segments Habs).
    apply other_sandbox. exact Hne.
  - exact Hown.
Qed.

Lemma users_files_are_apart_witness :
  Path.isAbsolute (@dirname Sample.runtime) = true
  /\ @reachable Sample.runtime Disk.both_uploaded
  /\ forall r1 r2,
      In r1 (datasets (db Disk.both_uploaded)) ->
      In r2 (datasets (db Disk.both_uploaded)) ->
      ds_user_id r1 <> ds_user_id r2 ->
      ds_file_path r1 <> ds_file_path r2.
Proof.
  assert (H : @reachable Sample.runtime Disk.both_uploaded)
    by (repeat apply reach_serve; apply reach_init).
  split; [reflexivity|]. split; [exact H|].
  intros r1 r2 H1 H2 Hne.
  exact (proj1 (@users_files_are_apart Sample.runtime Disk.both_uploaded
                  r1 r2 eq_refl H H1 H2 Hne)).
Defined.

(** X19: the stored name is unique only up to the millisecond and the
    sanitiser: two uploads get the same path exactly when they come
    from the same user, in the same millisecond, under names the
    sanitiser maps to one; and when two such uploads are both answered
    201, both rows are appended and name one file, which holds the
    content of the second. *)
Theorem stored_paths_collide_iff `{RT : Runtime} e1 e2 u1 u2 f1 f2 :
  Path.isAbsolute dirname = true ->
  (stored_path e1 u1 f1 = stored_path e2 u2 f2
   <-> u1 = u2 /\ now_ms e1 = now_ms e2
       /\ safeName (originalname f1) = safeName (originalname f2))
  /\ forall w,
      status (fst (run (upload e1 u1 (Some f1)) w)) = 201 ->
      status (fst (run (upload e2 u2 (Some f2))
                       (snd (run (upload e1 u1 (Some f1)) w)))) = 201 ->
      stored_path e1 u1 f1 = stored_path e2 u2 f2 ->
      datasets (db (snd (run (upload e2 u2 (Some f2))
                             (snd (run (upload e1 u1 (Some f1)) w)))))
      = datasets (db w)
        ++ [upload_row e1 u1 f1 (db w);
            upload_row e2 u2 f2 (db (snd (run (upload e1 u1 (Some f1)) w)))]
      /\ read_file (stored_path e1 u1 f1)
                   (files (snd (run (upload e2 u2 (Some f2))
                                    (snd (run (upload e1 u1 (Some f1)) w)))))
         = Some (content f2).
Proof.
  intros Habs. split.
  - split; [apply stored_path_inj, Habs|].
    intros (-> & Hms & Hn). unfold stored_path, uniqueName.
    rewrite Hms, Hn. reflexivity.
  - intros w H1 H2 Hp.
    destruct (upload_world Habs e1 u1 (Some f1) w)
      as [(_ & Hno & _)|(f & E & _ & _ & _ & _ & _ & _ & Hw1)];
      [contradiction|].
    injection E as <-.
    destruct (upload_world Habs e2 u2 (Some f2)
                           (snd (run (upload e1 u1 (Some f1)) w)))
      as [(_ & Hno & _)|(f & E & _ & _ & _ & _ & _ & _ & Hw2)];
      [contradiction|].
    injection E as <-.
    rewrite Hw2. split.
    + cbn [db with_db datasets push_dataset].
      change (db (write_file ?p ?c ?x)) with (db x).
      rewrite Hw1 at 1. cbn [db with_db datasets push_dataset].
      change (db (write_file ?p ?c ?x)) with (db x).
      rewrite <- app_assoc. reflexivity.
    + rewrite Hp. cbn [files with_db write_file read_file].
      rewrite str_eqb_refl. reflexivity.
Qed.

Lemma stored_paths_collide_iff_witness :
  Path.isAbsolute (@dirname Sample.runtime) = true
  /\ @stored_path Sample.runtime (Sample.quiet 2) 1 Scenario.evil_csv
     = @stored_path Sample.runtime (Sample.quiet 2) 1 Disk.evil_twin.
Proof.
  split; [reflexivity|].
  apply (proj1 (@stored_paths_collide_iff Sample.runtime
                  (Sample.quiet 2) (Sample.quiet 2) 1 1
                  Scenario.evil_csv Disk.evil_twin eq_refl)).
  repeat split.
Defined.

Section Attribution.

Context `{RT : Runtime} `{VF : Verifier}.
Hypothesis dirname_absolute : Path.isAbsolute dirname = true.

Lemma authMiddleware_holder rq u :
  authMiddleware (hr_authorization rq) = inr u ->
  token_holder rq (id_user u).
Proof.
  unfold authMiddleware, token_holder.
  destruct (hr_authorization rq) as [[|c h]|]; try discriminate.
  destruct (jwt_verify _) as [[id name]|] eqn:E; [|discriminate].
  intros H. injection H as <-. exists (c :: h), name. auto.
Qed.

(** The three ways a request gets to write: a registration, or an
    upload or a question run for the holder of the token. *)
Lemma express_app_acts e rq w :
  snd (run (express_app e (Parsed rq)) w) = w
  \/ run (express_app e (Parsed rq)) w
     = run (register e (hr_username rq) (hr_password rq)) w
  \/ exists uid,
      token_holder rq uid
      /\ (run (express_app e (Parsed rq)) w = run (upload e uid (hr_file rq)) w
          \/ run (express_app e (Parsed rq)) w
             = run (chat e uid (hr_dataset_id rq) (hr_question rq)
                         (hr_context rq)) w).
Proof.
  unfold express_app, routes.
  destruct (is_health rq); [left; apply health_world|].
  unfold mounts, protected, limited, route_not_found.
  destruct (under _ _) as [rest|].
  { destruct (hr_over_limit rq); [left; reflexivity|].
    unfold authRoutes, route_not_found.
    destruct rest as [|s [|]]; try (left; reflexivity).
    destruct (posts _ && seg_is s "register"); [right; left; reflexivity|].
    destruct (posts _ && seg_is s "login");
      [left; apply login_world|left; reflexivity]. }
  destruct (under _ _) as [rest|].
  { destruct (authMiddleware _) as [r|u] eqn:Ea; [left; reflexivity|].
    apply authMiddleware_holder in Ea.
    unfold datasetRoutes, route_not_found.
    destruct rest as [|s [|]]; try (left; reflexivity).
    - destruct (posts _); [right; right; eauto|left; reflexivity].
    - destruct (reads _ && seg_is s "datasets");
        [left; apply list_datasets_world|left; reflexivity]. }
  destruct (under _ _) as [rest|].
  { destruct (authMiddleware _) as [r|u] eqn:Ea; [left; reflexivity|].
    apply authMiddleware_holder in Ea.
    destruct (hr_over_limit rq); [left; reflexivity|].
    unfold chatRoutes, route_not_found.
    destruct rest as [|s [|]]; try (left; reflexivity).
    - destruct (posts _); [right; right; eauto|left; reflexivity].
    - destruct (reads _ && seg_is s "history");
        [left; apply history_world|left; reflexivity]. }
  destruct (under _ _) as [rest|]; [|left; reflexivity].
  destruct (authMiddleware _) as [r|u] eqn:Ea; [left; reflexivity|].
  apply authMiddleware_holder in Ea.
  unfold chatRoutes, route_not_found.
  destruct rest as [|s [|]]; try (left; reflexivity).
  - destruct (posts _); [right; right; eauto|left; reflexivity].
  - destruct (reads _ && seg_is s "history");
      [left; apply history_world|left; reflexivity].
Qed.

(** What an upload leaves in the tables. *)
Lemma upload_tables e uid part w :
  users (db (snd (run (upload e uid part) w))) = users (db w)
  /\ chat_history (db (snd (run (upload e uid part) w)))
     = chat_history (db w)
  /\ analyze_calls (snd (run (upload e uid part) w)) = analyze_calls w
  /\ (datasets (db (snd (run (upload e uid part) w))) = datasets (db w)
      \/ exists r, ds_user_id r = uid
                   /\ datasets (db (snd (run (upload e uid part) w)))
                      = datasets (db w) ++ [r]).
Proof.
  destruct part as [f|]; [|repeat split; auto].
  destruct (fileFilter f) eqn:Hf.
  2:{ unfold run, upload, upload_single. rewrite Hf.
      repeat split; auto. }
  destruct (fileSize_limit <? size f) eqn:Hs.
  { unfold run, upload, upload_single. rewrite Hf, Hs.
    repeat split; auto. }
  apply Z.ltb_ge in Hs. rewrite upload_accepted by assumption.
  destruct (no_valid_headers _); [repeat split; auto|].
  unfold insert_dataset.
  destruct (negb (store_writes e)); [repeat split; auto|].
  destruct (negb (user_exists _ uid)); [repeat split; auto|].
  repeat split; auto. right. eexists. split; [|reflexivity]. reflexivity.
Qed.

(** What a question leaves in the tables. *)
Lemma chat_tables e uid i q c w :
  users (db (snd (run (chat e uid i q c) w))) = users (db w)
  /\ datasets (db (snd (run (chat e uid i q c) w))) = datasets (db w)
  /\ files (snd (run (chat e uid i q c) w)) = files w
  /\ (chat_history (db (snd (run (chat e uid i q c) w)))
      = chat_history (db w)
      \/ exists ch, ch_user_id ch = uid
                    /\ chat_history (db (snd (run (chat e uid i q c) w)))
                       = chat_history (db w) ++ [ch]).
Proof.
  destruct (chat_run e uid i q c w); repeat split; auto.
  right. eexists. split; [|reflexivity]. reflexivity.
Qed.

(** What a registration leaves in the tables. *)
Lemma register_tables e u p w :
  datasets (db (snd (run (register e u p) w))) = datasets (db w)
  /\ chat_history (db (snd (run (register e u p) w))) = chat_history (db w)
  /\ analyze_calls (snd (run (register e u p) w)) = analyze_calls w
  /\ files (snd (run (register e u p) w)) = files w
  /\ (users (db (snd (run (register e u p) w))) = users (db w)
      \/ exists row, stored_username u = Some (user_username row)
                     /\ users (db (snd (run (register e u p) w)))
                        = users (db w) ++ [row]).
Proof.
  destruct (register_world e u p w) as [->|(name & hash & Hn & _ & ->)];
    repeat split; auto.
  right. eexists. split; [|reflexivity]. exact Hn.
Qed.

End Attribution.

(** X20: through the application, every write is made for the holder
    of the token the request carries: a dataset row is appended only
    with that user as owner, a file is written only at the stored path
    under that user's directory, a history row is appended only under
    that user's id, and the one call to the analysis service is about
    a dataset that user owns; the only write open to a request without
    a token is one user row, under the text the username of the
    request's body is stored as. *)
Theorem writes_belong_to_the_token_holder `{RT : Runtime} `{VF : Verifier}
        e rq w :
  Path.isAbsolute dirname = true ->
  (datasets (db (snd (run (express_app e (Parsed rq)) w))) = datasets (db w)
   \/ exists uid r,
       token_holder rq uid /\ ds_user_id r = uid
       /\ datasets (db (snd (run (express_app e (Parsed rq)) w)))
          = datasets (db w) ++ [r])
  /\ (files (snd (run (express_app e (Parsed rq)) w)) = files w
      \/ exists uid f,
          token_holder rq uid /\ hr_file rq = Some f
          /\ files (snd (run (express_app e (Parsed rq)) w))
             = (stored_path e uid f, content f)
                 :: remove_file (stored_path e uid f) (files w))
  /\ (chat_history (db (snd (run (express_app e (Parsed rq)) w)))
      = chat_history (db w)
      \/ exists uid ch,
          token_holder rq uid /\ ch_user_id ch = uid
          /\ chat_history (db (snd (run (express_app e (Parsed rq)) w)))
             = chat_history (db w) ++ [ch])
  /\ (analyze_calls (snd (run (express_app e (Parsed rq)) w)) = analyze_calls w
      \/ exists uid d schema qs,
          token_holder rq uid /\ In d (datasets (db w))
          /\ ds_user_id d = uid
          /\ analyze_calls (snd (run (express_app e (Parsed rq)) w))
             = analyze_calls w
               ++ [analysis_request d schema qs (hr_context rq)])
  /\ (users (db (snd (run (express_app e (Parsed rq)) w))) = users (db w)
      \/ exists row,
          stored_username (hr_username rq) = Some (user_username row)
          /\ users (db (snd (run (express_app e (Parsed rq)) w)))
             = users (db w) ++ [row]).
Proof.
  intros Habs.
  destruct (express_app_acts e rq w) as [->|[->|(uid & Hu & [->| ->])]].
  - repeat split; auto.
  - destruct (register_tables e (hr_username rq) (hr_password rq) w)
      as (-> & -> & -> & -> & H). repeat split; auto.
  - destruct (upload_tables Habs e uid (hr_file rq) w)
      as (-> & -> & -> & Hd).
    split; [|split; [|repeat split; auto]].
    + destruct Hd as [->|(r & Hr & ->)]; [auto|right; eauto].
    + destruct (upload_files e uid (hr_file rq) w Habs)
        as [->|(f & Hf & ->)]; [auto|right; eauto].
  - destruct (chat_tables e uid (hr_dataset_id rq) (hr_question rq)
                          (hr_context rq) w) as (-> & -> & -> & Hc).
    split; [auto|]. split; [auto|]. split; [|split; [|auto]].
    + destruct Hc as [->|(ch & Hch & ->)]; [auto|right; eauto].
    + destruct (chat_calls_own_dataset e uid (hr_dataset_id rq)
                  (hr_question rq) (hr_context rq) w)
        as [->|(d & schema & qs & Hin & Hown & ->)]; [auto|].
      right. exists uid, d, schema, qs. auto.
Qed.

Lemma writes_belong_to_the_token_holder_witness :
  Path.isAbsolute (@dirname Sample.runtime) = true
  /\ (datasets (db (snd (run (@express_app Sample.runtime Traffic.verifier
                               (Sample.quiet 12)
                               (Parsed (Traffic.anonymous POST
                                  [lit "api"; lit "upload"])))
                             Scenario.two_users)))
      = datasets (db Scenario.two_users)
      \/ exists uid r,
          @token_holder Traffic.verifier
            (Traffic.anonymous POST [lit "api"; lit "upload"]) uid
          /\ ds_user_id r = uid
          /\ datasets (db (snd (run (@express_app Sample.runtime
                                       Traffic.verifier (Sample.quiet 12)
                                       (Parsed (Traffic.anonymous POST
                                          [lit "api"; lit "upload"])))
                                    Scenario.two_users)))
             = datasets (db Scenario.two_users) ++ [r]).
Proof.
  split; [reflexivity|].
  exact (proj1 (@writes_belong_to_the_token_holder Sample.runtime
                  Traffic.verifier (Sample.quiet 12)
                  (Traffic.anonymous POST [lit "api"; lit "upload"])
                  Scenario.two_users eq_refl)).
Defined.

Section AskThenRead.

Context `{RT : Runtime}.

(** A row newer than all the others sorts first. *)
Lemma order_by_desc_newest {A} (key : A -> Z) x l :
  (forall y, In y l -> key y < key x) ->
  order_by_desc key (l ++ [x]) = x :: order_by_desc key l.
Proof.
  induction l as [|a l IH]; intros H; [reflexivity|].
  change (order_by_desc key ((a :: l) ++ [x]))
    with (insert_desc key a (order_by_desc key (l ++ [x]))).
  rewrite IH by (intros y Hy; apply H; right; exact Hy).
  cbn [insert_desc].
  assert (Ha : key a < key x) by (apply H; left; reflexivity).
  destruct (Z.leb_spec (key x) (key a)); [lia|reflexivity].
Qed.

Lemma filter_none {A} (f : A -> bool) l :
  (forall x, In x l -> f x = false) -> filter f l = [].
Proof.
  induction l as [|a l IH]; intros H; [reflexivity|]. cbn [filter].
  rewrite (H a) by (left; reflexivity).
  apply IH. intros x Hx. apply H. right. exact Hx.
Qed.

(** The join finds the one dataset a history row points at. *)
Lemma filter_by_id l d :
  NoDup (map ds_id l) -> In d l ->
  filter (fun r => Z.eqb (ds_id d) (ds_id r)) l = [d].
Proof.
  induction l as [|x l IH]; intros Hnd Hin; [contradiction|].
  inversion Hnd as [|? ? Hx Hnd']; subst. cbn [filter].
  destruct Hin as [->|Hin].
  - rewrite Z.eqb_refl. f_equal.
    apply filter_none. intros r Hr. apply Z.eqb_neq.
    intros E. apply Hx. rewrite E. apply in_map, Hr.
  - destruct (Z.eqb_spec (ds_id d) (ds_id x)) as [E|_]; [|auto].
    exfalso. apply Hx. rewrite <- E. apply in_map, Hin.
Qed.

(** The history read after one more row, newer than the rest. *)
Lemma history_rows_push d r uid qs answer code now only :
  db_wf d -> In r (datasets d) ->
  (forall ch, In ch (chat_history d) -> ch_created_at ch < now) ->
  only = None \/ only = Some (Some (ds_id r)) ->
  history_rows uid only (push_chat d uid (ds_id r) qs answer code now)
  = history_row ({| ch_id := seq_chat_history d + 1; ch_user_id := uid;
                    ch_dataset_id := ds_id r; ch_query := qs;
                    ch_response := answer; ch_code := code;
                    ch_created_at := now |}, r)
      :: firstn 4 (history_rows uid only d).
Proof.
  intros (Hnd & _) Hin Hnew Ho.
  unfold history_rows, history_top.
  assert (Hj : history_join uid only
                 (push_chat d uid (ds_id r) qs answer code now)
               = history_join uid only d
                 ++ [({| ch_id := seq_chat_history d + 1; ch_user_id := uid;
                         ch_dataset_id := ds_id r; ch_query := qs;
                         ch_response := answer; ch_code := code;
                         ch_created_at := now |}, r)]).
  { unfold history_join. cbn [chat_history datasets push_chat].
    rewrite flat_map_app. f_equal. cbn [flat_map ch_user_id ch_dataset_id].
    rewrite Z.eqb_refl, app_nil_r.
    assert (Hk : match only with
                 | None => true
                 | Some key => key_is key (ds_id r)
                 end = true).
    { destruct Ho as [->| ->]; [reflexivity|]. simpl. apply Z.eqb_refl. }
    rewrite Hk. cbn [andb]. rewrite filter_by_id by assumption.
    reflexivity. }
  rewrite Hj, order_by_desc_newest.
  - set (sorted := order_by_desc _ (history_join uid only d)).
    change (firstn 5 (?x :: sorted)) with (x :: firstn 4 sorted).
    cbn [map]. f_equal.
    rewrite firstn_map, firstn_firstn. reflexivity.
  - intros [ch r'] Hy. cbn [fst ch_created_at].
    apply in_history_join in Hy as (Hc & _). auto.
Qed.

End AskThenRead.

(** X21: ask, then read: in every world the server can reach, after a
    question answered 200 at a time later than every stored history
    row, the asker's history read (store readable), without a filter
    or filtered by that dataset, is answered 200 and begins with the
    new row -- the question, the time, the name of the dataset asked
    about -- followed by the first four rows of what the read returned
    before. *)
Theorem answered_question_heads_the_history `{RT : Runtime}
        e e' uid i q c w :
  reachable w ->
  status (fst (run (chat e uid i q c) w)) = 200 ->
  (forall ch, In ch (chat_history (db w)) -> ch_created_at ch < now_s e) ->
  store_reads e' = true ->
  exists ch d,
    chat_history (db (snd (run (chat e uid i q c) w)))
    = chat_history (db w) ++ [ch]
    /\ q = JStr (ch_query ch) /\ ch_created_at ch = now_s e
    /\ ch_id ch = seq_chat_history (db w) + 1
    /\ In d (datasets (db w)) /\ ds_user_id d = uid
    /\ (forall p, bind_value i = Some p -> integer_key p = Some (ds_id d))
    /\ run (history e' uid JUndefined) (snd (run (chat e uid i q c) w))
       = ({| status := 200;
             body := PHistory (history_row (ch, d)
                               :: firstn 4 (history_rows uid None (db w))) |},
          snd (run (chat e uid i q c) w))
    /\ (forall i' p,
          truthy i' = true -> bind_value i' = Some p ->
          integer_key p = Some (ds_id d) ->
          run (history e' uid i') (snd (run (chat e uid i q c) w))
          = ({| status := 200;
                body := PHistory
                          (history_row (ch, d)
                           :: firstn 4 (history_rows uid
                                          (Some (Some (ds_id d))) (db w))) |},
             snd (run (chat e uid i q c) w))).
Proof.
  intros Hreach Hst Hnew Hr.
  destruct (chat_status_200 e uid i q c w Hst)
    as (d & qs & schema & data & answer & code
        & -> & Hin & Hown & _ & _ & _ & Hdb & Hkey).
  pose proof (reachable_wf Hreach) as Hwf.
  exists {| ch_id := seq_chat_history (db w) + 1; ch_user_id := uid;
            ch_dataset_id := ds_id d; ch_query := qs;
            ch_response := answer; ch_code := code;
            ch_created_at := now_s e |}, d.
  repeat split; auto.
  - rewrite Hdb. reflexivity.
  - destruct (@history_run RT e' uid JUndefined
                (snd (run (chat e uid i (JStr qs) c) w)) Hr) as [H0 _].
    rewrite (H0 eq_refl), Hdb.
    rewrite (@history_rows_push (db w) d uid qs answer code (now_s e)
               None Hwf Hin Hnew (or_introl eq_refl)).
    reflexivity.
  - intros i' p Ht Hb Hk.
    destruct (@history_run RT e' uid i'
                (snd (run (chat e uid i (JStr qs) c) w)) Hr) as [_ H1].
    rewrite (H1 p Ht Hb), Hk, Hdb.
    rewrite (@history_rows_push (db w) d uid qs answer code (now_s e)
               (Some (Some (ds_id d))) Hwf Hin Hnew (or_intror eq_refl)).
    reflexivity.
Qed.

Lemma answered_question_heads_the_history_witness :
  @reachable Sample.runtime Scenario.asked
  /\ status (fst (run (@chat Sample.runtime
                         (Sample.answering 4 Scenario.answer_only) 1
                         (JNum 1) Scenario.how_many JUndefined)
                      Scenario.asked)) = 200
  /\ exists ch d,
      run (@history Sample.runtime (Sample.quiet 5) 1 JUndefined)
          (Scenario.ask 4 Scenario.asked)
      = ({| status := 200;
            body := PHistory
                      (history_row (ch, d)
                       :: firstn 4 (history_rows 1 None
                                      (db Scenario.asked))) |},
         Scenario.ask 4 Scenario.asked).
Proof.
  assert (Hreach : @reachable Sample.runtime Scenario.asked)
    by (repeat apply reach_serve; apply reach_init).
  assert (Hst : status (fst (run (@chat Sample.runtime
                                    (Sample.answering 4 Scenario.answer_only)
                                    1 (JNum 1) Scenario.how_many JUndefined)
                                 Scenario.asked)) = 200)
    by (vm_compute; reflexivity).
  assert (Hnew : forall ch, In ch (chat_history (db Scenario.asked)) ->
                            ch_created_at ch
                            < now_s (Sample.answering 4 Scenario.answer_only)).
  { intros ch [<-|[]]. vm_compute. reflexivity. }
  split; [exact Hreach|]. split; [exact Hst|].
  destruct (@answered_question_heads_the_history Sample.runtime
              (Sample.answering 4 Scenario.answer_only) (Sample.quiet 5)
              1 (JNum 1) Scenario.how_many JUndefined Scenario.asked
              Hreach Hst Hnew eq_refl)
    as (ch & d & _ & _ & _ & _ & _ & _ & _ & H & _).
  exists ch, d. exact H.
Defined.

Section HeaderLine.

(** The fields the quote stripping empties. *)
Lemma strip_quotes_empty s :
  strip_quotes s = [] <-> s = [] \/ s = [34%N] \/ s = [34%N; 34%N].
Proof.
  split; [|intros [->|[->| ->]]; reflexivity].
  unfold strip_quotes. cbv zeta. rewrite (quote_head s (fun r => r) s).
  set (s1 := match s with [] => s | x :: r => if N.eqb x 34 then r else s end).
  rewrite (@quote_head jsstring (rev s1) (@rev N) s1).
  destruct (rev s1) as [|y r'] eqn:Er.
  - intros E. rewrite E in *. subst s1.
    destruct s as [|x r]; [auto|].
    destruct (N.eqb_spec x 34) as [->|_]; [|discriminate].
    rewrite E. auto.
  - destruct (N.eqb_spec y 34) as [->|_].
    + intros E. apply (f_equal (@rev N)) in E.
      rewrite rev_involutive in E. cbn [rev] in E. subst r'.
      apply (f_equal (@rev N)) in Er. rewrite rev_involutive in Er.
      cbn [rev app] in Er. subst s1.
      destruct s as [|x r]; [discriminate|].
      destruct (N.eqb_spec x 34) as [->|Hx]; [rewrite Er; auto|].
      injection Er as -> _. contradiction Hx. reflexivity.
    + intros E. rewrite E in Er. discriminate.
Qed.

Lemma split_on_length c s :
  List.length (split_on c s) = S (count_occ N.eq_dec s c).
Proof.
  induction s as [|x r IH]; [reflexivity|]. cbn [split_on].
  destruct (N.eqb_spec x c) as [->|Hn].
  - rewrite count_occ_cons_eq by reflexivity. cbn [List.length].
    rewrite IH. reflexivity.
  - rewrite count_occ_cons_neq by exact Hn.
    pose proof (split_on_nonempty c r) as Hne.
    destruct (split_on c r) as [|q qs]; [contradiction Hne; reflexivity|].
    exact IH.
Qed.

(** The pieces of a text hold code units of the text only. *)
Lemma split_on_units c s : forall p x,
  In p (split_on c s) -> In x p -> In x s.
Proof.
  induction s as [|h r IH]; intros p x Hp Hx.
  - destruct Hp as [<-|[]]. contradiction.
  - cbn [split_on] in Hp. destruct (N.eqb h c).
    + destruct Hp as [<-|Hp]; [contradiction|]. right. eapply IH; eauto.
    + destruct (split_on c r) as [|q qs] eqn:E.
      * destruct Hp as [<-|[]]. destruct Hx as [<-|[]]. left; reflexivity.
      * destruct Hp as [<-|Hp].
        -- destruct Hx as [<-|Hx]; [left; reflexivity|right].
           apply (IH q x); [left; reflexivity|exact Hx].
        -- right. apply (IH p x); [right; exact Hp|exact Hx].
Qed.

Lemma first_line_no_feed text : ~ In 10%N (hd [] (split_on 10%N text)).
Proof.
  pose proof (split_on_pieces 10%N text) as H.
  destruct (split_on 10%N text); [intros []|].
  inversion H; assumption.
Qed.

End HeaderLine.

(** X22: the shape of an extracted schema: the header line is cut at
    every comma, inside quotes or not, so there is one column more
    than the first line has commas; no column holds a comma or a line
    feed; and the upload's header check refuses a file exactly when
    the first field of its first line, white space trimmed, is empty,
    one quote, or two quotes. *)
Theorem header_is_cut_at_every_comma text :
  List.length (header_columns text)
  = S (count_occ N.eq_dec (hd [] (split_on 10%N text)) 44%N)
  /\ Forall (fun c => ~ In 44%N c /\ ~ In 10%N c) (header_columns text)
  /\ (no_valid_headers (header_columns text) = true
      <-> trim (hd [] (split_on 44%N (hd [] (split_on 10%N text)))) = []
          \/ trim (hd [] (split_on 44%N (hd [] (split_on 10%N text))))
             = [34%N]
          \/ trim (hd [] (split_on 44%N (hd [] (split_on 10%N text))))
             = [34%N; 34%N]).
Proof.
  unfold header_columns.
  set (line := hd [] (split_on 10%N text)).
  split; [|split].
  - rewrite length_map. apply split_on_length.
  - apply Forall_map, Forall_forall. intros p Hp. split.
    + intros Hin. apply in_strip_quotes, in_trim in Hin.
      pose proof (split_on_pieces 44%N line) as H.
      rewrite Forall_forall in H. exact (H p Hp Hin).
    + intros Hin. apply in_strip_quotes, in_trim in Hin.
      apply (first_line_no_feed text).
      exact (split_on_units _ _ _ _ Hp Hin).
  - rewrite <- strip_quotes_empty.
    pose proof (split_on_nonempty 44%N line) as Hne.
    destruct (split_on 44%N line) as [|p ps]; [contradiction Hne; reflexivity|].
    cbn [map hd no_valid_headers]. apply str_eqb_spec.
Qed.

Section Answered.

Context `{RT : Runtime} `{VF : Verifier}.

Lemma answers_post h codes :
  (forall w, post h w (fun c _ => exists r, c = Sent r
                                            /\ In (status r) codes)) ->
  answers h codes.
Proof. intros H w. exact (H w). Qed.

Lemma answers_incl h l l' : answers h l -> incl l l' -> answers h l'.
Proof.
  intros H Hi w. destruct (H w) as (r & Hr & Hin). exists r. auto.
Qed.

Lemma answers_send st p codes : In st codes -> answers (send st p) codes.
Proof. intros H w. eexists. split; [reflexivity|exact H]. Qed.

(** Closes a leaf of a handler that has just sent. *)
Ltac answered := eexists; split; [reflexivity|simpl; tauto].

Lemma register_answers e u p : answers (register e u p) [201; 400; 409; 500].
Proof.
  apply answers_post. intros w. unfold register. wp; answered.
Qed.

Lemma login_answers e u p : answers (login e u p) [200; 400; 401; 500].
Proof.
  apply answers_post. intros w. unfold login. wp; answered.
Qed.

Lemma upload_callback_answers e uid r :
  answers (upload_callback e uid r) [201; 400; 413; 500].
Proof.
  apply answers_post. intros w.
  unfold upload_callback. destruct r; wp; try answered.
  - apply post_unlinkSync; [intros w' Hw'|]; wp; answered.
  - apply post_extractSchema; [intros text Ht|intros Ht]; wp; answered.
Qed.

Lemma upload_answers e uid part :
  answers (upload e uid part) [201; 400; 413; 500].
Proof.
  intros w. unfold upload.
  destruct (upload_single e uid part w) as [r w1].
  apply upload_callback_answers.
Qed.

Lemma list_datasets_answers e uid : answers (list_datasets e uid) [200; 500].
Proof.
  apply answers_post. intros w. unfold list_datasets. wp; answered.
Qed.

Lemma chat_answers e uid i q c :
  answers (chat e uid i q c) [200; 400; 404; 500; 503; 504].
Proof.
  apply answers_post. intros w. unfold chat. wp; answered.
Qed.

Lemma history_answers e uid i : answers (history e uid i) [200; 500].
Proof.
  apply answers_post. intros w. unfold history. wp; answered.
Qed.

Lemma health_answers e : answers (health e) [200].
Proof.
  apply answers_post. intros w. unfold health, axios_get_health.
  wp; answered.
Qed.

End Answered.

(** X23: every request is answered.  [cors()] answers an OPTIONS
    request with 204 and a body the parsers reject goes to the error
    middleware, which answers 500.  Every other request is answered
    where it is handled: each route ends by sending a response itself,
    whatever the store and the analysis service do and whatever result
    multer hands to the upload callback (an error of the disk it
    reports is answered 400 like its other errors); the status is one
    of 201, 400, 409, 500 for a registration, 200, 400, 401, 500 for a
    login, 201, 400, 413, 500 for an upload, 200, 500 for the listing
    and the history read, 200, 400, 404, 500, 503, 504 for a question
    and 200 for the health probe; through the application 204, 401, 404
    and 429 come on top. *)
Theorem every_request_is_answered_by_its_route `{RT : Runtime}
        `{VF : Verifier} e :
  (forall u p, answers (register e u p) [201; 400; 409; 500])
  /\ (forall u p, answers (login e u p) [200; 400; 401; 500])
  /\ (forall uid part, answers (upload e uid part) [201; 400; 413; 500])
  /\ (forall uid, answers (list_datasets e uid) [200; 500])
  /\ (forall uid i q c,
        answers (chat e uid i q c) [200; 400; 404; 500; 503; 504])
  /\ (forall uid i, answers (history e uid i) [200; 500])
  /\ answers (health e) [200]
  /\ (forall uid r,
        answers (upload_callback e uid r) [201; 400; 413; 500])
  /\ answers (express_app e Preflight) [204]
  /\ answers (express_app e BadBody) [500]
  /\ (forall i,
        answers (express_app e i)
                [200; 201; 204; 400; 401; 404; 409; 413; 429; 500; 503;
                 504]).
Proof.
  repeat split;
    auto using register_answers, login_answers, upload_answers,
      list_datasets_answers, chat_answers, history_answers, health_answers,
      upload_callback_answers.
  1,2: apply answers_send; simpl; tauto.
  intros [| |rq]; try (apply answers_send; simpl; tauto).
  assert (Hsend : forall st p,
             In st [401; 404; 429] ->
             answers (send st p)
                     [200; 201; 204; 400; 401; 404; 409; 413; 429; 500; 503;
                      504]).
  { intros st p H. apply answers_send. simpl in *. tauto. }
  assert (Hnf : answers route_not_found
                  [200; 201; 204; 400; 401; 404; 409; 413; 429; 500; 503;
                      504])
    by (apply Hsend; simpl; tauto).
  assert (Hchat : forall u rest,
             answers (chatRoutes e u rq rest)
                     [200; 201; 204; 400; 401; 404; 409; 413; 429; 500; 503;
                      504]).
  { intros u rest. unfold chatRoutes.
    destruct rest as [|s [|]]; try exact Hnf.
    - destruct (posts _); [|exact Hnf].
      eapply answers_incl; [apply chat_answers|intros a; simpl; tauto].
    - destruct (reads _ && seg_is s "history"); [|exact Hnf].
      eapply answers_incl; [apply history_answers|intros a; simpl; tauto]. }
  assert (Hauth : forall r,
             authMiddleware (hr_authorization rq) = inl r ->
             answers (send (status r) (body r))
                     [200; 201; 204; 400; 401; 404; 409; 413; 429; 500; 503;
                      504]).
  { intros r Hr. apply Hsend.
    unfold authMiddleware in Hr.
    destruct (hr_authorization rq) as [[|c h]|];
      try (injection Hr as <-; simpl; tauto).
    destruct (jwt_verify _) as [[id name]|]; [discriminate|].
    injection Hr as <-; simpl; tauto. }
  unfold express_app, routes.
  destruct (is_health rq).
  { eapply answers_incl; [apply health_answers|intros a; simpl; tauto]. }
  unfold mounts, protected, limited.
  destruct (under _ _) as [rest|].
  { destruct (hr_over_limit rq); [apply Hsend; simpl; tauto|].
    unfold authRoutes. destruct rest as [|s [|]]; try exact Hnf.
    destruct (posts _ && seg_is s "register").
    { eapply answers_incl; [apply register_answers|intros a; simpl; tauto]. }
    destruct (posts _ && seg_is s "login"); [|exact Hnf].
    eapply answers_incl; [apply login_answers|intros a; simpl; tauto]. }
  destruct (under _ _) as [rest|].
  { destruct (authMiddleware _) as [r|u] eqn:Ea; [exact (Hauth r eq_refl)|].
    unfold datasetRoutes. destruct rest as [|s [|]]; try exact Hnf.
    - destruct (posts _); [|exact Hnf].
      eapply answers_incl; [apply upload_answers|intros a; simpl; tauto].
    - destruct (reads _ && seg_is s "datasets"); [|exact Hnf].
      eapply answers_incl;
        [apply list_datasets_answers|intros a; simpl; tauto]. }
  destruct (under _ _) as [rest|].
  { destruct (authMiddleware _) as [r|u] eqn:Ea; [exact (Hauth r eq_refl)|].
    destruct (hr_over_limit rq); [apply Hsend; simpl; tauto|].
    apply Hchat. }
  destruct (under _ _) as [rest|]; [|exact Hnf].
  destruct (authMiddleware _) as [r|u] eqn:Ea; [exact (Hauth r eq_refl)|].
  apply Hchat.
Qed.
